(** * SoraCleaner: the restoration pipeline of the browser client

    A shallow embedding of the TypeScript sources

      - [types.ts]                  (data model),
      - [components/VideoUploader]  (link and file intake),
      - [App]                       (frame capture and the orchestrator),
      - [services/gemini]           (the three remote stages),

    followed by the properties of the pipeline that the specification
    states.  Asynchronous code is written in a state-and-exception monad
    over an explicit [World]: the host page, the scripted answers of the
    remote collaborator, the two DOM elements the component refers to, the
    log of external effects and the React state of [App]. *)

From Stdlib Require Import String Ascii List Arith Bool Lia RelationClasses.
Import ListNotations.
Open Scope string_scope.
Open Scope list_scope.
Open Scope nat_scope.

(** ** The JavaScript string operations the sources use *)

Module Js.

(** [!!s]: the empty string is the only falsy string. *)
Definition truthy (s : string) : bool :=
  match s with
  | EmptyString => false
  | String _ _ => true
  end.

(** Truthiness of a value of type [string | undefined | null]. *)
Definition truthy_opt (o : option string) : bool :=
  match o with
  | Some s => truthy s
  | None => false
  end.

(** [o || d] where [o : string | undefined] and [d : string]. *)
Definition or_else (o : option string) (d : string) : string :=
  match o with
  | Some s => if truthy s then s else d
  | None => d
  end.

(** [hay.includes(needle)]. *)
Fixpoint includes (needle hay : string) : bool :=
  if String.prefix needle hay then true
  else match hay with
       | EmptyString => false
       | String _ rest => includes needle rest
       end.

(** [s.split(sep)] for a one-character separator. *)
Fixpoint split (sep : ascii) (s : string) : list string :=
  match s with
  | EmptyString => [EmptyString]
  | String c rest =>
      if Ascii.eqb c sep then EmptyString :: split sep rest
      else match split sep rest with
           | [] => [String c EmptyString]
           | hd :: tl => String c hd :: tl
           end
  end.

(** Case folding of the [i] flag, which on the letters of the pattern
    below only identifies the two ASCII cases. *)
Definition toLowerAscii (c : ascii) : ascii :=
  let n := nat_of_ascii c in
  if (65 <=? n) && (n <=? 90) then ascii_of_nat (n + 32) else c.

Fixpoint toLowerCase (s : string) : string :=
  match s with
  | EmptyString => EmptyString
  | String c rest => String (toLowerAscii c) (toLowerCase rest)
  end.

(** [`${x}`] for [x : string | undefined]. *)
Definition interpolate (o : option string) : string :=
  match o with
  | Some s => s
  | None => "undefined"
  end.

(** A value of type [string | null], keeping [undefined] apart since an
    out-of-range array read produces it. *)
Inductive nullable : Type :=
| Null
| Undefined
| Str (s : string).

Definition truthy_nullable (v : nullable) : bool :=
  match v with
  | Str s => truthy s
  | _ => false
  end.

End Js.

(** A thrown value.  The handlers read only its [message], and guard that
    read with [?.] and [||], so the message may be missing. *)
Module Err.
Record t : Type := mk { message : option string }.
(** [new Error(msg)] *)
Definition new (msg : string) : t := mk (Some msg).
End Err.

(** ** types.ts *)

Module Types.

Record GeneratedVideoFile : Type := {
  uri : string;
  expirationTime : option string
}.

Record GeneratedVideo : Type := { video : GeneratedVideoFile }.

Record VeoResponse : Type := { generatedVideos : option (list GeneratedVideo) }.

Module Status.
Inductive t : Type :=
| idle
| analyzing
| cleaning_frame
| generating
| completed
| error.

(** Position in the enumeration of [ProcessingState.status]. *)
Definition rank (s : t) : nat :=
  match s with
  | idle => 0
  | analyzing => 1
  | cleaning_frame => 2
  | generating => 3
  | completed => 4
  | error => 5
  end.

Definition eqb (a b : t) : bool := rank a =? rank b.
End Status.

(** [progress] is declared [number], but the state object built in the
    [catch] of [startProcessing] carries none, hence the option. *)
Record ProcessingState : Type := {
  status : Status.t;
  message : string;
  progress : option nat;
  error : option string
}.

Record File : Type := {
  file_name : string;
  file_type : string
}.

Record VideoData : Type := {
  file : option File;
  url : option string;
  previewUrl : option string;
  base64Data : option string;
  mimeType : option string
}.

End Types.
Import Types.

(** ** What the sources read of the SDK's answers *)

Module Sdk.

Record GenerateContentResponse : Type := { text : option string }.

Record Image : Type := { imageBytes : string }.
Record GeneratedImage : Type := { image : Image }.
Record GenerateImagesResponse : Type := { generatedImages : list GeneratedImage }.

(** The handle of the long-running video operation. *)
Record Operation : Type := {
  name : string;
  done : bool;
  op_error : option Err.t;
  response : option VeoResponse
}.

(** How an awaited SDK promise settles.  A request that is never answered
    is not represented: every statement below is about calls that are
    answered, by a result or by a rejection. *)
Inductive Settled (A : Type) : Type :=
| Fulfilled (a : A)
| Rejected (e : Err.t).
Arguments Fulfilled {A} a.
Arguments Rejected {A} e.

End Sdk.
Import Sdk.

(** ** The world the client runs in *)

(** External effects, in the order they happen. *)
Inductive Event : Type :=
| EHasSelectedApiKey
| EOpenSelectKey
| EGenerateContent (model data mime text : string)
| EGenerateImages (model prompt : string) (numberOfImages : nat)
                  (aspectRatio outputMimeType : string)
| EGenerateVideos (model prompt imageBytes mime : string) (numberOfVideos : nat)
                  (resolution aspectRatio : string)
| EGetVideosOperation (operation : Operation)
| ESetTimeout (ms : nat)
| EProgress (msg : string)
| EConsoleLog (label arg : string)
| EConsoleError (args : list string) (e : Err.t)
| EAlert (msg : string).

(** [process.env.API_KEY] and [window.aistudio]. *)
Record Host : Type := {
  API_KEY : option string;
  aistudio : bool
}.

(** The remote collaborator and the host's key dialog are scripted: each
    field is the stream of answers to the successive calls of one
    operation; a call takes the head and leaves the tail. *)
Record Remote : Type := {
  hasSelectedApiKey : nat -> bool;
  generateContent : nat -> Settled GenerateContentResponse;
  generateImages : nat -> Settled GenerateImagesResponse;
  generateVideos : nat -> Settled Operation;
  getVideosOperation : nat -> Settled Operation
}.

Record Video : Type := {
  readyState : nat;
  videoWidth : nat;
  videoHeight : nat
}.

Record Canvas : Type := {
  width : nat;
  height : nat;
  context2d : bool
}.

(** [videoRef.current], [canvasRef.current], the element as it is once its
    [loadeddata] event fires ([None]: it never fires), and the browser's
    [toDataURL('image/png')] for a canvas of the given size on which the
    video was drawn. *)
Record Dom : Type := {
  videoRef : option Video;
  canvasRef : option Canvas;
  loadeddata : option Video;
  toDataURL : Video -> nat -> nat -> string
}.

(** The React state of [App]; [history] lists every state handed to
    [setProcessingState], oldest first. *)
Record AppState : Type := {
  videoData : option VideoData;
  processingState : ProcessingState;
  resultVideoUrl : option string;
  history : list ProcessingState
}.

Record World : Type := {
  host : Host;
  remote : Remote;
  dom : Dom;
  trace : list Event;
  appState : AppState
}.

Definition set_remote (r : Remote) (w : World) : World :=
  {| host := host w; remote := r; dom := dom w; trace := trace w; appState := appState w |}.

Definition set_dom (d : Dom) (w : World) : World :=
  {| host := host w; remote := remote w; dom := d; trace := trace w; appState := appState w |}.

Definition set_trace (t : list Event) (w : World) : World :=
  {| host := host w; remote := remote w; dom := dom w; trace := t; appState := appState w |}.

Definition set_app (a : AppState) (w : World) : World :=
  {| host := host w; remote := remote w; dom := dom w; trace := trace w; appState := a |}.

(** ** The monad of asynchronous code *)

(** An [async] function either returns, throws, or is still suspended on a
    promise that has not settled when the observation ends. *)
Inductive Outcome (A : Type) : Type :=
| Ret (a : A)
| Throw (e : Err.t)
| Pending.
Arguments Ret {A} a.
Arguments Throw {A} e.
Arguments Pending {A}.

Definition M (A : Type) : Type := World -> Outcome A * World.

Definition ret {A} (a : A) : M A := fun w => (Ret a, w).

Definition throw {A} (e : Err.t) : M A := fun w => (Throw e, w).

Definition pending {A} : M A := fun w => (Pending, w).

Definition bind {A B} (m : M A) (k : A -> M B) : M B :=
  fun w =>
    match m w with
    | (Ret a, w') => k a w'
    | (Throw e, w') => (Throw e, w')
    | (Pending, w') => (Pending, w')
    end.

(** [try { m } catch (e) { h e }] *)
Definition try_catch {A} (m : M A) (h : Err.t -> M A) : M A :=
  fun w =>
    match m w with
    | (Throw e, w') => h e w'
    | r => r
    end.

Declare Scope monad_scope.
Delimit Scope monad_scope with monad.
Notation "x <- m ;; k" := (bind m (fun x => k))
  (at level 61, m at next level, right associativity) : monad_scope.
Notation "m ;; k" := (bind m (fun _ => k))
  (at level 61, right associativity) : monad_scope.
Open Scope monad_scope.

Definition emit (e : Event) : M unit :=
  fun w => (Ret tt, set_trace (trace w ++ [e]) w).

(** [await p] for a scripted promise. *)
Definition await {A} (s : Settled A) : M A :=
  match s with
  | Fulfilled a => ret a
  | Rejected e => throw e
  end.

Definition tail_of {A} (f : nat -> A) : nat -> A := fun n => f (S n).

Definition pop_hasSelectedApiKey (r : Remote) : Remote :=
  {| hasSelectedApiKey := tail_of (hasSelectedApiKey r);
     generateContent := generateContent r;
     generateImages := generateImages r;
     generateVideos := generateVideos r;
     getVideosOperation := getVideosOperation r |}.

Definition pop_generateContent (r : Remote) : Remote :=
  {| hasSelectedApiKey := hasSelectedApiKey r;
     generateContent := tail_of (generateContent r);
     generateImages := generateImages r;
     generateVideos := generateVideos r;
     getVideosOperation := getVideosOperation r |}.

Definition pop_generateImages (r : Remote) : Remote :=
  {| hasSelectedApiKey := hasSelectedApiKey r;
     generateContent := generateContent r;
     generateImages := tail_of (generateImages r);
     generateVideos := generateVideos r;
     getVideosOperation := getVideosOperation r |}.

Definition pop_generateVideos (r : Remote) : Remote :=
  {| hasSelectedApiKey := hasSelectedApiKey r;
     generateContent := generateContent r;
     generateImages := generateImages r;
     generateVideos := tail_of (generateVideos r);
     getVideosOperation := getVideosOperation r |}.

Definition pop_getVideosOperation (r : Remote) : Remote :=
  {| hasSelectedApiKey := hasSelectedApiKey r;
     generateContent := generateContent r;
     generateImages := generateImages r;
     generateVideos := generateVideos r;
     getVideosOperation := tail_of (getVideosOperation r) |}.

(** [process.env.API_KEY] *)
Definition env_API_KEY : M (option string) :=
  fun w => (Ret (API_KEY (host w)), w).

(** [(window as any).aistudio], read for its truthiness. *)
Definition window_aistudio : M bool :=
  fun w => (Ret (aistudio (host w)), w).

(** [await aistudio.hasSelectedApiKey()].  The two promises of the host's
    key dialog are taken to resolve: the sources handle no failure of
    theirs. *)
Definition aistudio_hasSelectedApiKey : M bool :=
  fun w =>
    (Ret (hasSelectedApiKey (remote w) 0),
     set_trace (trace w ++ [EHasSelectedApiKey])
       (set_remote (pop_hasSelectedApiKey (remote w)) w)).

(** [await aistudio.openSelectKey()] *)
Definition aistudio_openSelectKey : M unit := emit EOpenSelectKey.

(** [await new Promise((resolve) => setTimeout(resolve, ms))] *)
Definition sleep (ms : nat) : M unit := emit (ESetTimeout ms).

(** The progress callback a caller hands to the service: it runs in the
    caller's component and only rewrites the component's state. *)
Definition Callback : Type := string -> AppState -> AppState.

(** [if (onProgress) onProgress(msg)] *)
Definition notify (onProgress : option Callback) (msg : string) : M unit :=
  match onProgress with
  | Some cb =>
      emit (EProgress msg) ;;
      fun w => (Ret tt, set_app (cb msg (appState w)) w)
  | None => ret tt
  end.

(** ** services/gemini *)

Module Gemini.

(** [new GoogleGenAI({ apiKey })] is taken to build a client for any key,
    a missing one included: what the SDK's constructor does with a missing
    key is outside the sources. *)
Record GoogleGenAI : Type := { apiKey : option string }.

Definition models_generateContent (ai : GoogleGenAI)
    (model data mime text : string) : M GenerateContentResponse :=
  emit (EGenerateContent model data mime text) ;;
  fun w =>
    await (generateContent (remote w) 0)
          (set_remote (pop_generateContent (remote w)) w).

Definition models_generateImages (ai : GoogleGenAI)
    (model prompt : string) (numberOfImages : nat)
    (aspectRatio outputMimeType : string) : M GenerateImagesResponse :=
  emit (EGenerateImages model prompt numberOfImages aspectRatio outputMimeType) ;;
  fun w =>
    await (generateImages (remote w) 0)
          (set_remote (pop_generateImages (remote w)) w).

Definition models_generateVideos (ai : GoogleGenAI)
    (model prompt imageBytes mime : string) (numberOfVideos : nat)
    (resolution aspectRatio : string) : M Operation :=
  emit (EGenerateVideos model prompt imageBytes mime numberOfVideos
                        resolution aspectRatio) ;;
  fun w =>
    await (generateVideos (remote w) 0)
          (set_remote (pop_generateVideos (remote w)) w).

Definition operations_getVideosOperation (ai : GoogleGenAI)
    (operation : Operation) : M Operation :=
  emit (EGetVideosOperation operation) ;;
  fun w =>
    await (getVideosOperation (remote w) 0)
          (set_remote (pop_getVideosOperation (remote w)) w).

Definition getAiClient : M GoogleGenAI :=
  present <- window_aistudio ;;
  (if present then
     hasKey <- aistudio_hasSelectedApiKey ;;
     if negb hasKey then aistudio_openSelectKey else ret tt
   else ret tt) ;;
  key <- env_API_KEY ;;
  ret {| apiKey := key |}.

Definition describe_video_text : string :=
  "Describe the visual content, subject, movement, and camera angle of this video in high detail. Focus on the main action and scene description. Do not mention any watermarks or text overlays in the description.".

Definition analyzeVideoContent (videoBase64 mimeType : string) : M string :=
  ai <- getAiClient ;;
  response <- models_generateContent ai "gemini-2.5-flash-latest"
                videoBase64 mimeType describe_video_text ;;
  ret (Js.or_else (text response) "A cinematic video scene.").

Definition remove_watermark_text : string :=
  "Remove the 'Sora' or 'Sora 2' watermark and any text overlays from this image. Output only the visual data of the cleaned image.".

Definition describe_frame_text : string :=
  "Describe this image in extreme detail for reconstruction. Ignore any text or watermarks like 'Sora'.".

Definition imagen_qualifier : string :=
  " high quality, photorealistic, no text, no watermarks, clear 8k.".

(** Reading [generatedImages[0].image] of an empty answer. *)
Definition TypeError_image : Err.t :=
  Err.new "Cannot read properties of undefined (reading 'image')".

(** [mimeType] defaults to ['image/png'] when the argument is omitted. *)
Definition cleanFrame (imageBase64 : string) (mimeTypeArg : option string)
  : M string :=
  let mimeType := match mimeTypeArg with Some m => m | None => "image/png" end in
  ai <- getAiClient ;;
  response <- models_generateContent ai "gemini-2.5-flash-image"
                imageBase64 mimeType remove_watermark_text ;;
  descriptionResponse <- models_generateContent ai "gemini-2.5-flash-latest"
                imageBase64 mimeType describe_frame_text ;;
  let prompt := Js.or_else (text descriptionResponse) "A clean video frame" in
  imagenResponse <- models_generateImages ai "imagen-4.0-generate-001"
                (prompt ++ imagen_qualifier)%string 1 "16:9" "image/png" ;;
  match nth_error (generatedImages imagenResponse) 0 with
  | Some first => ret (imageBytes (image first))
  | None => throw TypeError_image
  end.

(** [operation.response?.generatedVideos?.[0]?.video?.uri] *)
Definition videoUri_of (operation : Operation) : option string :=
  match response operation with
  | None => None
  | Some r =>
      match generatedVideos r with
      | None => None
      | Some videos =>
          match nth_error videos 0 with
          | None => None
          | Some v => Some (uri (video v))
          end
      end
  end.

(** The [while (!operation.done)] loop.  [fuel] bounds the number of
    iterations that are observed; a loop still running then is
    [Pending]. *)
Fixpoint poll (fuel : nat) (ai : GoogleGenAI) (onProgress : option Callback)
    (operation : Operation) : M Operation :=
  if done operation then ret operation
  else
    match fuel with
    | O => pending
    | S fuel' =>
        notify onProgress "Rendering video frames..." ;;
        sleep 5000 ;;
        operation' <- operations_getVideosOperation ai operation ;;
        poll fuel' ai onProgress operation'
    end.

Definition veo_qualifier : string :=
  " cinematic, high quality, consistent motion.".

(** The body of the [try] block. *)
Definition generate_try (fuel : nat) (ai : GoogleGenAI)
    (startFrameBase64 prompt : string) (onProgress : option Callback)
  : M (option string) :=
  operation <- models_generateVideos ai "veo-3.1-fast-generate-preview"
                 (prompt ++ veo_qualifier)%string startFrameBase64 "image/png"
                 1 "720p" "16:9" ;;
  notify onProgress "Video generation started. This may take a moment..." ;;
  operation <- poll fuel ai onProgress operation ;;
  match op_error operation with
  | Some err =>
      throw (Err.new (Js.or_else (Err.message err) "Video generation failed"))
  | None =>
      let videoUri := videoUri_of operation in
      if negb (Js.truthy_opt videoUri) then
        throw (Err.new "No video URI returned")
      else
        key <- env_API_KEY ;;
        ret (Some (Js.interpolate videoUri ++ "&key=" ++ Js.interpolate key)%string)
  end.

Definition entity_not_found : string := "Requested entity was not found".

Definition session_expired : string :=
  "API Key session expired. Please try again.".

(** [error.message?.includes("Requested entity was not found")] *)
Definition is_entity_not_found (error : Err.t) : bool :=
  match Err.message error with
  | Some m => Js.includes entity_not_found m
  | None => false
  end.

(** The [catch (error)] block. *)
Definition generate_catch (error : Err.t) : M (option string) :=
  emit (EConsoleError ["Veo Error:"] error) ;;
  (if is_entity_not_found error then
     present <- window_aistudio ;;
     if present then
       aistudio_openSelectKey ;;
       throw (Err.new session_expired)
     else ret tt
   else ret tt) ;;
  throw error.

Definition generateCleanVideo (fuel : nat) (startFrameBase64 prompt : string)
    (onProgress : option Callback) : M (option string) :=
  ai <- getAiClient ;;
  notify onProgress "Initializing generation model..." ;;
  try_catch (generate_try fuel ai startFrameBase64 prompt onProgress)
            generate_catch.

End Gemini.

(** ** App: the React state setters *)

Definition setVideoData (v : option VideoData) : M unit :=
  fun w =>
    (Ret tt,
     set_app {| videoData := v;
                processingState := processingState (appState w);
                resultVideoUrl := resultVideoUrl (appState w);
                history := history (appState w) |} w).

Definition setResultVideoUrl (u : option string) : M unit :=
  fun w =>
    (Ret tt,
     set_app {| videoData := videoData (appState w);
                processingState := processingState (appState w);
                resultVideoUrl := u;
                history := history (appState w) |} w).

(** [setProcessingState(updater)] on the component state. *)
Definition update_processingState (f : ProcessingState -> ProcessingState)
    (a : AppState) : AppState :=
  {| videoData := videoData a;
     processingState := f (processingState a);
     resultVideoUrl := resultVideoUrl a;
     history := history a ++ [f (processingState a)] |}.

Definition setProcessingState (s : ProcessingState) : M unit :=
  fun w => (Ret tt, set_app (update_processingState (fun _ => s) (appState w)) w).

(** [{ ...prev, message: msg }] *)
Definition with_message (msg : string) (prev : ProcessingState) : ProcessingState :=
  {| status := status prev;
     message := msg;
     progress := progress prev;
     error := error prev |}.

Definition alert (msg : string) : M unit := emit (EAlert msg).

(** ** components/VideoUploader *)

Module VideoUploader.

(** The pattern [\.(mp4|webm|mov)$] with flag [i], tried at the start of
    [s]: a dot, one of the three extensions in either case, then the end
    of the input. *)
Definition video_extension_here (s : string) : bool :=
  match s with
  | String "."%char ext =>
      let e := Js.toLowerCase ext in
      String.eqb e "mp4" || String.eqb e "webm" || String.eqb e "mov"
  | _ => false
  end.

(** [s.match(/\.(mp4|webm|mov)$/i)] as a truth value: the pattern is
    tried at every position from left to right. *)
Fixpoint matches_video_extension (s : string) : bool :=
  video_extension_here s ||
  match s with
  | EmptyString => false
  | String _ rest => matches_video_extension rest
  end.

Definition link_warning : string :=
  "For this demo, please use a direct link to a video file (.mp4) or upload a file. Standard website URLs cannot be processed client-side.".

Definition handleLinkSubmit (linkInput : string)
    (onVideoSelected : VideoData -> M unit) : M unit :=
  if negb (Js.truthy linkInput) then ret tt
  else if matches_video_extension linkInput then
    onVideoSelected {| file := None;
                       url := Some linkInput;
                       previewUrl := Some linkInput;
                       base64Data := None;
                       mimeType := None |}
  else alert link_warning.

(** [disabled={!linkInput || disabled}] on the submit button of the link
    form: while it holds the form cannot be submitted, so
    [handleLinkSubmit] is not called. *)
Definition submit_disabled (linkInput : string) (disabled : bool) : bool :=
  negb (Js.truthy linkInput) || disabled.

(** The two browser services [processFile] uses: [URL.createObjectURL],
    and the [result] a [FileReader] holds when [readAsDataURL] has ended
    ([None]: the read failed and the result is [null]). *)
Record Browser : Type := {
  createObjectURL : File -> string;
  readAsDataURL : File -> option string
}.

(** Calling [split] on the [null] result of a failed read. *)
Definition TypeError_split : Err.t :=
  Err.new "Cannot read properties of null (reading 'split')".

(** [processFile], with the [onloadend] handler run when the read ends. *)
Definition processFile (browser : Browser) (f : File)
    (onVideoSelected : VideoData -> M unit) : M unit :=
  let url := createObjectURL browser f in
  match readAsDataURL browser f with
  | None => throw TypeError_split
  | Some base64String =>
      let base64Data := nth_error (Js.split ","%char base64String) 1 in
      onVideoSelected {| file := Some f;
                         url := None;
                         previewUrl := Some url;
                         base64Data := base64Data;
                         mimeType := Some (file_type f) |}
  end.

(** [if (files && files[0]) processFile(files[0])] *)
Definition process_first (browser : Browser) (files : option (list File))
    (onVideoSelected : VideoData -> M unit) : M unit :=
  match files with
  | Some (first :: _) => processFile browser first onVideoSelected
  | _ => ret tt
  end.

Definition handleFileChange (browser : Browser) (files : option (list File))
    (onVideoSelected : VideoData -> M unit) : M unit :=
  process_first browser files onVideoSelected.

(** The new value of [dragActive] after a drag event of type [type]. *)
Definition handleDrag (type : string) (dragActive : bool) : bool :=
  if String.eqb type "dragenter" || String.eqb type "dragover" then true
  else if String.eqb type "dragleave" then false
  else dragActive.

(** [handleDrop]: the new value of [dragActive] and what is done with the
    dropped files. *)
Definition handleDrop (browser : Browser) (files : option (list File))
    (onVideoSelected : VideoData -> M unit) : bool * M unit :=
  (false, process_first browser files onVideoSelected).

End VideoUploader.

(** ** App *)

Module App.

Definition idle_state : ProcessingState :=
  {| status := Status.idle; message := ""; progress := Some 0; error := None |}.

Definition handleVideoSelected (data : VideoData) : M unit :=
  setVideoData (Some data) ;;
  setResultVideoUrl None ;;
  setProcessingState idle_state.

(** The [onClick] of the "Try Again" button of the failed view. *)
Definition tryAgain : M unit := setProcessingState idle_state.

(** The browser calls are taken as they are documented: [getContext]
    answers a context or [null] ([context2d]), [drawImage] returns
    nothing, [toDataURL] is the DOM's; it does not throw, the video being
    loaded with [crossOrigin="anonymous"] never taints the canvas. *)
Definition captureFirstFrame : M Js.nullable :=
  fun w =>
    match videoRef (dom w), canvasRef (dom w) with
    | Some video, Some canvas =>
        let canvas' := {| width := videoWidth video;
                          height := videoHeight video;
                          context2d := context2d canvas |} in
        let w' := set_dom {| videoRef := videoRef (dom w);
                             canvasRef := Some canvas';
                             loadeddata := loadeddata (dom w);
                             toDataURL := toDataURL (dom w) |} w in
        if negb (context2d canvas') then (Ret Js.Null, w')
        else
          let dataUrl := toDataURL (dom w) video (width canvas') (height canvas') in
          (Ret match nth_error (Js.split ","%char dataUrl) 1 with
               | Some payload => Js.Str payload
               | None => Js.Undefined
               end, w')
    | _, _ => (Ret Js.Null, w)
    end.

(** [if (videoRef.current && videoRef.current.readyState < 2)
       await new Promise(resolve => videoRef.current.onloadeddata = resolve)] *)
Definition await_loadeddata : M unit :=
  fun w =>
    match videoRef (dom w) with
    | Some v =>
        if readyState v <? 2 then
          match loadeddata (dom w) with
          | Some loaded =>
              (Ret tt, set_dom {| videoRef := Some loaded;
                                  canvasRef := canvasRef (dom w);
                                  loadeddata := loadeddata (dom w);
                                  toDataURL := toDataURL (dom w) |} w)
          | None => (Pending, w)
          end
        else (Ret tt, w)
    | None => (Ret tt, w)
    end.

Definition analyzing_state : ProcessingState :=
  {| status := Status.analyzing; message := "Analyzing video structure...";
     progress := Some 10; error := None |}.

Definition cleaning_frame_state : ProcessingState :=
  {| status := Status.cleaning_frame; message := "Reconstructing clean keyframes...";
     progress := Some 40; error := None |}.

Definition generating_state : ProcessingState :=
  {| status := Status.generating; message := "Generating logo-free video with Veo...";
     progress := Some 60; error := None |}.

Definition completed_state : ProcessingState :=
  {| status := Status.completed; message := "Restoration complete!";
     progress := Some 100; error := None |}.

Definition error_state (e : Err.t) : ProcessingState :=
  {| status := Status.error; message := "Processing failed";
     progress := None;
     error := Some (Js.or_else (Err.message e) "Unknown error occurred") |}.

(** [(msg) => setProcessingState(prev => ({ ...prev, message: msg }))] *)
Definition onProgress : Callback :=
  fun msg a => update_processingState (with_message msg) a.

(** Step 1: the state goes to [analyzing], the first frame is awaited and
    captured. *)
Definition capture_stage : M string :=
  setProcessingState analyzing_state ;;
  await_loadeddata ;;
  firstFrameBase64 <- captureFirstFrame ;;
  match firstFrameBase64 with
  | Js.Str s =>
      if Js.truthy s then ret s
      else throw (Err.new "Could not capture video frame")
  | _ => throw (Err.new "Could not capture video frame")
  end.

(** Step 2: analyze content. *)
Definition describe_stage (vd : VideoData) (firstFrameBase64 : string) : M string :=
  let dataToAnalyze := Js.or_else (base64Data vd) firstFrameBase64 in
  let mimeToAnalyze := Js.or_else (mimeType vd) "image/png" in
  analysisPrompt <- Gemini.analyzeVideoContent dataToAnalyze mimeToAnalyze ;;
  emit (EConsoleLog "Analysis:" analysisPrompt) ;;
  ret analysisPrompt.

(** Step 3: clean the first frame. *)
Definition clean_stage (firstFrameBase64 : string) : M string :=
  setProcessingState cleaning_frame_state ;;
  Gemini.cleanFrame firstFrameBase64 None.

(** Step 4: generate the video. *)
Definition generate_stage (fuel : nat) (cleanedFrameBase64 analysisPrompt : string)
  : M (option string) :=
  setProcessingState generating_state ;;
  Gemini.generateCleanVideo fuel cleanedFrameBase64 analysisPrompt (Some onProgress).

(** [if (videoUrl) { ... }] *)
Definition publish (videoUrl : option string) : M unit :=
  if Js.truthy_opt videoUrl then
    setResultVideoUrl videoUrl ;;
    setProcessingState completed_state
  else ret tt.

(** The body of the [try] block of [startProcessing]. *)
Definition processing_try (fuel : nat) (vd : VideoData) : M unit :=
  firstFrameBase64 <- capture_stage ;;
  analysisPrompt <- describe_stage vd firstFrameBase64 ;;
  cleanedFrameBase64 <- clean_stage firstFrameBase64 ;;
  videoUrl <- generate_stage fuel cleanedFrameBase64 analysisPrompt ;;
  publish videoUrl.

(** The [catch (error)] block of [startProcessing]. *)
Definition processing_catch (e : Err.t) : M unit :=
  emit (EConsoleError [] e) ;;
  setProcessingState (error_state e).

Definition startProcessing (fuel : nat) : M unit :=
  fun w =>
    match videoData (appState w) with
    | None => (Ret tt, w)
    | Some vd =>
        if negb (Js.truthy_opt (previewUrl vd)) then (Ret tt, w)
        else if negb (Js.truthy_opt (API_KEY (host w))) && negb (aistudio (host w))
        then alert "API Key environment missing." w
        else try_catch (processing_try fuel vd) processing_catch w
    end.

(** The [onClick] of the "Change Video" button. *)
Definition changeVideo : M unit := setVideoData None.

(** What the user can do on the rendered page. *)
Inductive Action : Type :=
| SelectVideo (data : VideoData)
| ChangeVideo
| StartRestoration
| TryAgain.

(** The conditions under which the JSX renders the control of an action:
    the uploader when there is no video; with a video, "Change Video"
    always, "Start Restoration" in the idle state without a result, and
    "Try Again" in the error state. *)
Definition offered (a : AppState) (act : Action) : bool :=
  match act, videoData a with
  | SelectVideo _, None => true
  | SelectVideo _, Some _ => false
  | _, None => false
  | ChangeVideo, Some _ => true
  | StartRestoration, Some _ =>
      Status.eqb (status (processingState a)) Status.idle
      && negb (Js.truthy_opt (resultVideoUrl a))
  | TryAgain, Some _ => Status.eqb (status (processingState a)) Status.error
  end.

(** The four blocks of the "Restored Output" panel.  The panel is inside
    [{videoData && (...)}], so without a video none of them is rendered;
    with one, each block is rendered under its own condition. *)
Inductive View : Type :=
| ReadyView
| ProcessingView
| FailedView
| ResultView.

Definition views (a : AppState) : list View :=
  match videoData a with
  | None => []
  | Some _ =>
      let st := status (processingState a) in
      (if Status.eqb st Status.idle && negb (Js.truthy_opt (resultVideoUrl a))
       then [ReadyView] else [])
      ++ (if negb (Status.eqb st Status.idle)
             && negb (Status.eqb st Status.completed)
             && negb (Status.eqb st Status.error)
          then [ProcessingView] else [])
      ++ (if Status.eqb st Status.error then [FailedView] else [])
      ++ (if Js.truthy_opt (resultVideoUrl a) then [ResultView] else [])
  end.

(** An action performed on a page on which no earlier run is still in
    flight.  A run that is still suspended when the observation ends is
    not resumed later: what an unfinished run would do after a further
    action of the user is not represented. *)
Definition perform (fuel : nat) (act : Action) : M unit :=
  match act with
  | SelectVideo data => handleVideoSelected data
  | ChangeVideo => changeVideo
  | StartRestoration => startProcessing fuel
  | TryAgain => tryAgain
  end.

End App.

(** * Vocabulary of the properties *)

(** Whatever its outcome, [m] takes a world to an [R]-related one. *)
Definition respects (R : World -> World -> Prop) {A} (m : M A) : Prop :=
  forall w, R w (snd (m w)).

(** The host page and the two DOM elements are left alone. *)
Definition same_page (w w' : World) : Prop :=
  host w' = host w /\ dom w' = dom w.

(** The component state changed only through calls of the callback. *)
Definition progressed (cb : option Callback) (w w' : World) : Prop :=
  exists msgs,
    appState w' =
    fold_left (fun a msg => match cb with Some f => f msg a | None => a end)
              msgs (appState w).

(** Only the DOM elements changed. *)
Definition same_but_dom (w w' : World) : Prop :=
  host w' = host w /\ remote w' = remote w /\ trace w' = trace w
  /\ appState w' = appState w.

(** The log only grows, by events that satisfy [P]. *)
Definition logs (P : Event -> Prop) (w w' : World) : Prop :=
  exists evs, trace w' = trace w ++ evs /\ Forall P evs.

(** What [notify cb msg] logs. *)
Definition notify_events (cb : option Callback) (msg : string) : list Event :=
  match cb with
  | Some _ => [EProgress msg]
  | None => []
  end.

(** The log of one iteration of the polling loop that re-fetches handle
    [h]: the callback, the five-second wait, the status check. *)
Definition poll_iteration (cb : option Callback) (h : Operation) : list Event :=
  notify_events cb "Rendering video frames..." ++
  [ESetTimeout 5000; EGetVideosOperation h].

(** The world after one iteration of the polling loop on handle [h]. *)
Definition after_iteration (cb : option Callback) (h : Operation) (w : World) : World :=
  {| host := host w;
     remote := pop_getVideosOperation (remote w);
     dom := dom w;
     trace := trace w ++ poll_iteration cb h;
     appState := match cb with
                 | Some f => f "Rendering video frames..." (appState w)
                 | None => appState w
                 end |}.

(** The [i]-th status check from now on answers a handle that is not done. *)
Definition answers_not_done (s : nat -> Settled Operation) (i : nat) : Prop :=
  exists h, s i = Fulfilled h /\ done h = false.

(** ** Sample worlds *)

Module Sample.

Definition pending_operation : Operation :=
  {| name := "operations/1"; done := false; op_error := None; response := None |}.

Definition finished_operation : Operation :=
  {| name := "operations/1"; done := true; op_error := None;
     response := Some {| generatedVideos :=
       Some [ {| video := {| uri := "https://videos.example/1?alt=media";
                             expirationTime := None |} |} ] |} |}.

(** A remote side on which every call succeeds and the video is ready at
    the third status check. *)
Definition remote_ok : Remote :=
  {| hasSelectedApiKey := fun _ => true;
     generateContent := fun _ => Fulfilled {| text := Some "a cat on a skateboard" |};
     generateImages := fun _ =>
       Fulfilled {| generatedImages := [ {| image := {| imageBytes := "CLEAN" |} |} ] |};
     generateVideos := fun _ => Fulfilled pending_operation;
     getVideosOperation := fun n =>
       if n <? 2 then Fulfilled pending_operation else Fulfilled finished_operation |}.

(** The same remote side with other answers to [generateContent],
    [generateVideos] and [getVideosOperation]. *)
Definition remote_with (content : nat -> Settled GenerateContentResponse)
    (videos : nat -> Settled Operation) (checks : nat -> Settled Operation) : Remote :=
  {| hasSelectedApiKey := hasSelectedApiKey remote_ok;
     generateContent := content;
     generateImages := generateImages remote_ok;
     generateVideos := videos;
     getVideosOperation := checks |}.

(** [toDataURL] as the HTML standard has it: the empty data URL for a
    canvas without pixels. *)
Definition html_toDataURL (v : Video) (w h : nat) : string :=
  if (w =? 0) || (h =? 0) then "data:," else "data:image/png;base64,FRAME".

Definition page (v : Video) : Dom :=
  {| videoRef := Some v;
     canvasRef := Some {| width := 300; height := 150; context2d := true |};
     loadeddata := None;
     toDataURL := html_toDataURL |}.

Definition loaded_video : Video :=
  {| readyState := 4; videoWidth := 1280; videoHeight := 720 |}.

Definition empty_video : Video :=
  {| readyState := 4; videoWidth := 0; videoHeight := 0 |}.

Definition uploaded : VideoData :=
  {| file := Some {| file_name := "clip.mp4"; file_type := "video/mp4" |};
     url := None;
     previewUrl := Some "blob:clip";
     base64Data := Some "VIDEO";
     mimeType := Some "video/mp4" |}.

Definition fresh : AppState :=
  {| videoData := Some uploaded;
     processingState := App.idle_state;
     resultVideoUrl := None;
     history := [] |}.

Definition world (h : Host) (r : Remote) (d : Dom) : World :=
  {| host := h; remote := r; dom := d; trace := []; appState := fresh |}.

Definition studio : Host := {| API_KEY := Some "KEY"; aistudio := true |}.

Definition standalone : Host := {| API_KEY := Some "KEY"; aistudio := false |}.

(** Everything succeeds. *)
Definition happy : World := world studio remote_ok (page loaded_video).


(** The page after a successful restoration, and then after a click on
    "Change Video". *)
Definition restored : World := snd (App.startProcessing 5 happy).

Definition awaiting_new_video : World := snd (App.changeVideo restored).

Definition missing_entity : Err.t :=
  Err.new "404 NOT_FOUND: Requested entity was not found.".

(** The video generation call is rejected for a missing entity. *)
Definition remote_missing_entity : Remote :=
  remote_with (generateContent remote_ok)
              (fun _ => Rejected missing_entity)
              (getVideosOperation remote_ok).

(** Every [generateContent] call, the describe call first, is rejected for
    a missing entity. *)
Definition remote_missing_entity_early : Remote :=
  remote_with (fun _ => Rejected missing_entity)
              (generateVideos remote_ok)
              (getVideosOperation remote_ok).

(** The describe call is rejected with an error of empty message. *)
Definition remote_silent_failure : Remote :=
  remote_with (fun _ => Rejected (Err.new ""))
              (generateVideos remote_ok)
              (getVideosOperation remote_ok).

(** The describe call is rejected for a network failure. *)
Definition network_error : Err.t := Err.new "Failed to fetch".

Definition remote_offline : Remote :=
  remote_with (fun _ => Rejected network_error)
              (generateVideos remote_ok)
              (getVideosOperation remote_ok).

(** The image-edit request that opens [cleanFrame] is rejected. *)
Definition edit_error : Err.t := Err.new "Image editing is not supported".

Definition remote_no_edit : Remote :=
  remote_with (fun n => if n =? 0 then Rejected edit_error
                        else generateContent remote_ok n)
              (generateVideos remote_ok)
              (getVideosOperation remote_ok).

End Sample.

(** ** Links *)

(** The link ends in a dot followed by one of the three container
    extensions, in either case. *)
Definition ends_with_video_extension (s : string) : Prop :=
  exists stem ext,
    s = (stem ++ "." ++ ext)%string /\
    In (Js.toLowerCase ext) ["mp4"; "webm"; "mov"].

(** The record [handleLinkSubmit] builds for an accepted link. *)
Definition link_record (linkInput : string) : VideoData :=
  {| file := None;
     url := Some linkInput;
     previewUrl := Some linkInput;
     base64Data := None;
     mimeType := None |}.

(** ** The generate call *)

(** The client [getAiClient] builds in world [w]. *)
Definition client_of (w : World) : Gemini.GoogleGenAI :=
  {| Gemini.apiKey := API_KEY (host w) |}.

(** The world in which [generateCleanVideo] enters its [try] block. *)
Definition entering_try (cb : option Callback) (w : World) : World :=
  snd ((Gemini.getAiClient ;; notify cb "Initializing generation model...") w).

(** The event is not the opening of the key dialog. *)
Definition not_openSelectKey (ev : Event) : Prop := ev <> EOpenSelectKey.

(** ** Runs of the orchestrator *)

(** The guards at the top of [startProcessing] let a run begin on the
    selected video [vd]. *)
Definition can_start (w : World) (vd : VideoData) : Prop :=
  videoData (appState w) = Some vd
  /\ Js.truthy_opt (previewUrl vd) = true
  /\ (Js.truthy_opt (API_KEY (host w)) = true \/ aistudio (host w) = true).

(** The world the [catch] block of [startProcessing] leaves when it
    receives [e] in world [w]. *)
Definition failed_with (e : Err.t) (w : World) : World :=
  set_app (update_processingState (fun _ => App.error_state e) (appState w))
          (set_trace (trace w ++ [EConsoleError [] e]) w).

(** The event is a call that only the clean-frame or the generate stage
    makes. *)
Definition clean_or_generate_call (ev : Event) : bool :=
  match ev with
  | EGenerateImages _ _ _ _ _ => true
  | EGenerateVideos _ _ _ _ _ _ _ => true
  | EGetVideosOperation _ => true
  | EGenerateContent _ _ _ text =>
      String.eqb text Gemini.remove_watermark_text
      || String.eqb text Gemini.describe_frame_text
  | _ => false
  end.

(** The states the callback of [startProcessing] sets for the messages
    [msgs] while the status is [generating]. *)
Definition generating_updates (msgs : list string) : list ProcessingState :=
  map (fun msg => with_message msg App.generating_state) msgs.

(** Every status in the list is at or after its predecessor in the
    enumeration, starting from [s]. *)
Fixpoint forward_from (s : Status.t) (l : list Status.t) : bool :=
  match l with
  | [] => true
  | x :: rest => (Status.rank s <=? Status.rank x) && forward_from x rest
  end.

(** The list without the immediate repetitions of a status. *)
Fixpoint changes (s : Status.t) (l : list Status.t) : list Status.t :=
  match l with
  | [] => []
  | x :: rest => if Status.eqb s x then changes s rest else x :: changes x rest
  end.

(** The progress values never go down, starting from [p]. *)
Fixpoint non_decreasing_from (p : nat) (l : list (option nat)) : bool :=
  match l with
  | [] => true
  | Some q :: rest => (p <=? q) && non_decreasing_from q rest
  | None :: _ => false
  end.

(** How far a run got: the stages before the named one returned. *)
Definition reaches_describe (w : World) (frame : string) (w1 : World) : Prop :=
  App.capture_stage w = (Ret frame, w1).

Definition reaches_clean (vd : VideoData) (w : World)
    (frame prompt : string) (w2 : World) : Prop :=
  exists w1,
    reaches_describe w frame w1 /\
    App.describe_stage vd frame w1 = (Ret prompt, w2).

Definition reaches_generate (vd : VideoData) (w : World)
    (frame prompt cleaned : string) (w3 : World) : Prop :=
  exists w2,
    reaches_clean vd w frame prompt w2 /\
    App.clean_stage frame w2 = (Ret cleaned, w3).

(** The ways a run of [startProcessing] that passed the guards can go: a
    stage throws and the [catch] block records the failure, a stage is
    still suspended, or all four stages return and the result is
    published. *)
Inductive Run (fuel : nat) (vd : VideoData) (w : World)
  : Outcome unit * World -> Prop :=
| capture_throws e w1 :
    App.capture_stage w = (Throw e, w1) ->
    Run fuel vd w (Ret tt, failed_with e w1)
| capture_pending w1 :
    App.capture_stage w = (Pending, w1) ->
    Run fuel vd w (Pending, w1)
| describe_throws frame w1 e w2 :
    reaches_describe w frame w1 ->
    App.describe_stage vd frame w1 = (Throw e, w2) ->
    Run fuel vd w (Ret tt, failed_with e w2)
| describe_pending frame w1 w2 :
    reaches_describe w frame w1 ->
    App.describe_stage vd frame w1 = (Pending, w2) ->
    Run fuel vd w (Pending, w2)
| clean_throws frame prompt w2 e w3 :
    reaches_clean vd w frame prompt w2 ->
    App.clean_stage frame w2 = (Throw e, w3) ->
    Run fuel vd w (Ret tt, failed_with e w3)
| clean_pending frame prompt w2 w3 :
    reaches_clean vd w frame prompt w2 ->
    App.clean_stage frame w2 = (Pending, w3) ->
    Run fuel vd w (Pending, w3)
| generate_throws frame prompt cleaned w3 e w4 :
    reaches_generate vd w frame prompt cleaned w3 ->
    App.generate_stage fuel cleaned prompt w3 = (Throw e, w4) ->
    Run fuel vd w (Ret tt, failed_with e w4)
| generate_pending frame prompt cleaned w3 w4 :
    reaches_generate vd w frame prompt cleaned w3 ->
    App.generate_stage fuel cleaned prompt w3 = (Pending, w4) ->
    Run fuel vd w (Pending, w4)
| generate_returns frame prompt cleaned w3 videoUrl w4 :
    reaches_generate vd w frame prompt cleaned w3 ->
    App.generate_stage fuel cleaned prompt w3 = (Ret videoUrl, w4) ->
    Run fuel vd w (App.publish videoUrl w4).

(** The world in which the generate stage calls [generateCleanVideo]. *)
Definition entering_generate (w : World) : World :=
  set_app (update_processingState (fun _ => App.generating_state) (appState w)) w.

(** The event is a remote call. *)
Definition remote_call (ev : Event) : bool :=
  match ev with
  | EGenerateContent _ _ _ _ => true
  | EGenerateImages _ _ _ _ _ => true
  | EGenerateVideos _ _ _ _ _ _ _ => true
  | EGetVideosOperation _ => true
  | _ => false
  end.

(** The event is a call that only the generate stage makes. *)
Definition generate_call (ev : Event) : bool :=
  match ev with
  | EGenerateVideos _ _ _ _ _ _ _ => true
  | EGetVideosOperation _ => true
  | _ => false
  end.

(** Each status in the list is strictly after its predecessor in the
    enumeration, starting from [s]. *)
Fixpoint strictly_forward_from (s : Status.t) (l : list Status.t) : bool :=
  match l with
  | [] => true
  | x :: rest => (Status.rank s <? Status.rank x) && strictly_forward_from x rest
  end.

(** ** Vocabulary of the further properties *)

(** What the key check of [getAiClient] logs in world [w]. *)
Definition key_events (w : World) : list Event :=
  if aistudio (host w) then
    if hasSelectedApiKey (remote w) 0 then [EHasSelectedApiKey]
    else [EHasSelectedApiKey; EOpenSelectKey]
  else [].

(** The event is a call of the host's key dialog. *)
Definition dialog_event (ev : Event) : bool :=
  match ev with
  | EHasSelectedApiKey => true
  | EOpenSelectKey => true
  | _ => false
  end.

(** Between [w] and [w'] the log grew, and the remote calls it grew by are
    [cs], in this order. *)
Definition calls (cs : list Event) (w w' : World) : Prop :=
  exists evs, trace w' = trace w ++ evs /\ filter remote_call evs = cs.

(** The messages handed to the progress callback, in order. *)
Definition progress_messages (evs : list Event) : list string :=
  flat_map (fun ev => match ev with EProgress msg => [msg] | _ => [] end) evs.

(** The event is a pause or a status check of the polling loop. *)
Definition polling_event (ev : Event) : bool :=
  match ev with
  | ESetTimeout _ => true
  | EGetVideosOperation _ => true
  | _ => false
  end.

(** The event is a video generation request. *)
Definition generateVideos_event (ev : Event) : bool :=
  match ev with
  | EGenerateVideos _ _ _ _ _ _ _ => true
  | _ => false
  end.

(** Two worlds with the same host and the same remote answers left. *)
Definition same_service (w w' : World) : Prop :=
  host w = host w' /\ remote w = remote w'.

(** From worlds that agree on the service, [m1] and [m2] have the same
    outcome and lead to worlds that agree on the service. *)
Definition simulates {A} (m1 m2 : M A) : Prop :=
  forall w1 w2,
    same_service w1 w2 ->
    fst (m1 w1) = fst (m2 w2) /\ same_service (snd (m1 w1)) (snd (m2 w2)).

(** The polling loop started on [operation] ends with the handle [d]:
    [operation] itself when it is done, otherwise the first done handle
    that a status check answers, within the observed iterations. *)
Definition ends_with_handle (fuel : nat) (s : nat -> Settled Operation)
    (operation d : Operation) : Prop :=
  (done operation = true /\ d = operation)
  \/ (done operation = false /\
      exists k, k < fuel
                /\ (forall i, i < k -> answers_not_done s i)
                /\ s k = Fulfilled d /\ done d = true).

(** The string holds the character. *)
Fixpoint has_char (c : ascii) (s : string) : bool :=
  match s with
  | EmptyString => false
  | String x rest => Ascii.eqb x c || has_char c rest
  end.

(** A result URL is stored exactly when the status is [completed]. *)
Definition result_iff_completed (a : AppState) : Prop :=
  Js.truthy_opt (resultVideoUrl a) = true <->
  status (processingState a) = Status.completed.

(** The page after the actions [acts], each run to its end or observed for
    the given number of polling iterations, one after the other. *)
Fixpoint perform_all (acts : list (nat * App.Action)) (w : World) : World :=
  match acts with
  | [] => w
  | (fuel, act) :: rest => perform_all rest (snd (App.perform fuel act w))
  end.

(** Each action of the list is offered by the page when its turn comes,
    and has returned before the next one. *)
Fixpoint all_offered (acts : list (nat * App.Action)) (w : World) : Prop :=
  match acts with
  | [] => True
  | (fuel, act) :: rest =>
      App.offered (appState w) act = true
      /\ fst (App.perform fuel act w) = Ret tt
      /\ all_offered rest (snd (App.perform fuel act w))
  end.

(** The component state when the page is opened. *)
Definition initial_state : AppState :=
  {| videoData := None;
     processingState := App.idle_state;
     resultVideoUrl := None;
     history := [] |}.

(** The record [processFile] builds from a file, its object URL and the
    data URL read from it. *)
Definition file_record (f : File) (objectUrl dataUrl : string) : VideoData :=
  {| file := Some f;
     url := None;
     previewUrl := Some objectUrl;
     base64Data := nth_error (Js.split ","%char dataUrl) 1;
     mimeType := Some (file_type f) |}.

Module SampleFiles.

Definition clip : File := {| file_name := "clip.mp4"; file_type := "video/mp4" |}.

Definition notes : File := {| file_name := "notes.txt"; file_type := "text/plain" |}.

(** A browser that reads [clip] and fails to read anything else. *)
Definition browser : VideoUploader.Browser :=
  {| VideoUploader.createObjectURL := fun f => ("blob:" ++ file_name f)%string;
     VideoUploader.readAsDataURL := fun f =>
       if String.eqb (file_name f) "clip.mp4"
       then Some "data:video/mp4;base64,AAAAIGZ0eXA="
       else None |}.

(** The page before any video is selected. *)
Definition blank : World :=
  {| host := Sample.studio;
     remote := Sample.remote_ok;
     dom := Sample.page Sample.loaded_video;
     trace := [];
     appState := {| videoData := None;
                    processingState := App.idle_state;
                    resultVideoUrl := None;
                    history := [] |} |}.

(** A video element that has not loaded and never will, [Sample.page]
    leaving [loadeddata] out. *)
Definition stalled_video : Video :=
  {| readyState := 0; videoWidth := 0; videoHeight := 0 |}.

(** A page whose canvas is missing. *)
Definition page_without_canvas : Dom :=
  {| videoRef := Some Sample.loaded_video;
     canvasRef := None;
     loadeddata := None;
     toDataURL := Sample.html_toDataURL |}.

(** A finished operation that reports an error. *)
Definition failed_operation : Operation :=
  {| name := "operations/1"; done := true;
     op_error := Some (Err.new "The prompt was blocked");
     response := response Sample.finished_operation |}.

(** A finished operation without a result. *)
Definition empty_operation : Operation :=
  {| name := "operations/1"; done := true; op_error := None;
     response := Some {| generatedVideos := Some [] |} |}.

End SampleFiles.

(** The event is a status check. *)
Definition status_check (ev : Event) : bool :=
  match ev with
  | EGetVideosOperation _ => true
  | _ => false
  end.

(** The event is one of those the [catch] block of [generateCleanVideo]
    logs. *)
Definition catch_event (ev : Event) : bool :=
  match ev with
  | EConsoleError _ _ => true
  | EOpenSelectKey => true
  | _ => false
  end.

(** The three requests of [cleanFrame] and the one of
    [analyzeVideoContent], of [generateCleanVideo]. *)
Definition edit_request (img mime : string) : Event :=
  EGenerateContent "gemini-2.5-flash-image" img mime Gemini.remove_watermark_text.

Definition describe_frame_request (img mime : string) : Event :=
  EGenerateContent "gemini-2.5-flash-latest" img mime Gemini.describe_frame_text.

Definition imagen_request (description : string) : Event :=
  EGenerateImages "imagen-4.0-generate-001"
    (description ++ Gemini.imagen_qualifier)%string 1 "16:9" "image/png".

Definition describe_request (data mime : string) : Event :=
  EGenerateContent "gemini-2.5-flash-latest" data mime Gemini.describe_video_text.

Definition veo_request (prompt frame : string) : Event :=
  EGenerateVideos "veo-3.1-fast-generate-preview"
    (prompt ++ Gemini.veo_qualifier)%string frame "image/png" 1 "720p" "16:9".

(** [mimeType = 'image/png'] as a default parameter. *)
Definition mime_or_png (mime : option string) : string :=
  match mime with
  | Some m => m
  | None => "image/png"
  end.

(** No answer of the remote collaborator was consumed between [w] and
    [w']. *)
Definition same_remote_answers (w w' : World) : Prop :=
  generateContent (remote w') = generateContent (remote w)
  /\ generateImages (remote w') = generateImages (remote w)
  /\ generateVideos (remote w') = generateVideos (remote w)
  /\ getVideosOperation (remote w') = getVideosOperation (remote w).

(** The error of a run that could capture no frame. *)
Definition capture_error : Err.t := Err.new "Could not capture video frame".

(** The state carries an error message exactly in status [error], and
    lacks a progress value exactly there. *)
Definition consistent (s : ProcessingState) : Prop :=
  (error s <> None <-> status s = Status.error)
  /\ (progress s = None <-> status s = Status.error).

(** What the handler of [generateCleanVideo] throws for the caught
    error [e]. *)
Definition rethrown (w : World) (e : Err.t) : Outcome (option string) :=
  if Gemini.is_entity_not_found e && aistudio (host w)
  then Throw (Err.new Gemini.session_expired)
  else Throw e.

(** The states an action hands to [setProcessingState] go strictly forward
    from the status the page had, or the action is one of the two resets
    and hands over the idle state alone. *)
Definition forward_or_reset (fuel : nat) (act : App.Action) (w : World) : Prop :=
  exists hs,
    history (appState (snd (App.perform fuel act w))) = history (appState w) ++ hs
    /\ (strictly_forward_from (status (processingState (appState w)))
          (changes (status (processingState (appState w))) (map status hs)) = true
        \/ ((act = App.TryAgain \/ exists data, act = App.SelectVideo data)
            /\ hs = [App.idle_state])).

(** [P] holds of each action of the list when its turn comes. *)
Fixpoint each_in_turn (P : nat -> App.Action -> World -> Prop)
    (acts : list (nat * App.Action)) (w : World) : Prop :=
  match acts with
  | [] => True
  | (fuel, act) :: rest =>
      P fuel act w /\ each_in_turn P rest (snd (App.perform fuel act w))
  end.
(** * Running a sequence *)

Lemma bind_ret {A B} (m : M A) (k : A -> M B) w a w' :
  m w = (Ret a, w') -> bind m k w = k a w'.
Proof. intros H. unfold bind. rewrite H. reflexivity. Qed.

Lemma bind_throw {A B} (m : M A) (k : A -> M B) w e w' :
  m w = (Throw e, w') -> bind m k w = (Throw e, w').
Proof. intros H. unfold bind. rewrite H. reflexivity. Qed.

Lemma bind_pending {A B} (m : M A) (k : A -> M B) w w' :
  m w = (Pending, w') -> bind m k w = (Pending, w').
Proof. intros H. unfold bind. rewrite H. reflexivity. Qed.

Lemma try_catch_ret {A} (m : M A) h w a w' :
  m w = (Ret a, w') -> try_catch m h w = (Ret a, w').
Proof. intros H. unfold try_catch. rewrite H. reflexivity. Qed.

Lemma try_catch_throw {A} (m : M A) h w e w' :
  m w = (Throw e, w') -> try_catch m h w = h e w'.
Proof. intros H. unfold try_catch. rewrite H. reflexivity. Qed.

Lemma try_catch_pending {A} (m : M A) h w w' :
  m w = (Pending, w') -> try_catch m h w = (Pending, w').
Proof. intros H. unfold try_catch. rewrite H. reflexivity. Qed.

(** * Relations between the world before and after a computation *)

Section Respects.

Context (R : World -> World -> Prop) `{!PreOrder R}.

Lemma respects_unchanged {A} (m : M A) :
  (forall w, snd (m w) = w) -> respects R m.
Proof. intros H w. rewrite H. reflexivity. Qed.

Lemma respects_ret {A} (a : A) : respects R (ret a).
Proof. apply respects_unchanged. reflexivity. Qed.

Lemma respects_throw {A} e : respects R (@throw A e).
Proof. apply respects_unchanged. reflexivity. Qed.

Lemma respects_pending {A} : respects R (@pending A).
Proof. apply respects_unchanged. reflexivity. Qed.

Lemma respects_bind {A B} (m : M A) (k : A -> M B) :
  respects R m -> (forall a, respects R (k a)) -> respects R (bind m k).
Proof.
  intros Hm Hk w. unfold bind.
  specialize (Hm w). destruct (m w) as [[a | e | ] w1]; simpl in *; auto.
  transitivity w1; [exact Hm | apply Hk].
Qed.

Lemma respects_try_catch {A} (m : M A) h :
  respects R m -> (forall e, respects R (h e)) -> respects R (try_catch m h).
Proof.
  intros Hm Hh w. unfold try_catch.
  specialize (Hm w). destruct (m w) as [[a | e | ] w1]; simpl in *; auto.
  transitivity w1; [exact Hm | apply Hh].
Qed.

Lemma respects_if {A} (b : bool) (m1 m2 : M A) :
  respects R m1 -> respects R m2 -> respects R (if b then m1 else m2).
Proof. destruct b; auto. Qed.

End Respects.

#[export] Instance same_page_PreOrder : PreOrder same_page.
Proof.
  split.
  - intros w. split; reflexivity.
  - intros a b c [H1 H2] [H3 H4]. split; congruence.
Qed.

#[export] Instance same_but_dom_PreOrder : PreOrder same_but_dom.
Proof.
  split.
  - intros w. repeat split.
  - intros a b c (H1 & H2 & H3 & H4) (H5 & H6 & H7 & H8).
    repeat split; congruence.
Qed.

#[export] Instance progressed_PreOrder cb : PreOrder (progressed cb).
Proof.
  split.
  - intros w. exists []. reflexivity.
  - intros a b c [m1 H1] [m2 H2]. exists (m1 ++ m2).
    rewrite fold_left_app, <- H1. exact H2.
Qed.

#[export] Instance logs_PreOrder P : PreOrder (logs P).
Proof.
  split.
  - intros w. exists []. split; [symmetry; apply app_nil_r | constructor].
  - intros a b c (e1 & H1 & F1) (e2 & H2 & F2). exists (e1 ++ e2). split.
    + rewrite H2, H1, app_assoc. reflexivity.
    + apply Forall_app. split; assumption.
Qed.

Lemma progressed_same cb w w' : appState w' = appState w -> progressed cb w w'.
Proof. intros H. exists []. exact H. Qed.

Lemma progressed_None w w' : progressed None w w' -> appState w' = appState w.
Proof.
  intros [msgs H]. rewrite H. clear H.
  generalize (appState w). induction msgs; simpl; auto.
Qed.

Lemma logs_nothing P w w' : trace w' = trace w -> logs P w w'.
Proof.
  intros H. exists []. split; [rewrite app_nil_r; exact H | constructor].
Qed.

Lemma logs_one P e w w' : P e -> trace w' = trace w ++ [e] -> logs P w w'.
Proof.
  intros He H. exists [e]. split; [exact H | constructor; [exact He | constructor]].
Qed.

Lemma logs_weaken (P Q : Event -> Prop) w w' :
  (forall e, P e -> Q e) -> logs P w w' -> logs Q w w'.
Proof.
  intros HPQ (evs & H & F). exists evs. split; [exact H |].
  eapply Forall_impl; [exact HPQ | exact F].
Qed.

Create HintDb respects_db.

(** Closes [respects R m] for a sequence of steps whose lemmas are in the
    hint database. *)
Ltac respects_seq :=
  repeat first
    [ solve [auto 1 with respects_db nocore]
    | apply respects_ret; exact _
    | apply respects_throw; exact _
    | apply respects_pending; exact _
    | apply respects_if
    | apply respects_try_catch; [exact _ | | intros ?]
    | apply respects_bind; [exact _ | | intros ?] ].

(** ** What the service leaves alone

    [R] is any relation that holds between two worlds with the same host,
    DOM and component state: the steps of the service, which only log and
    consume answers of the remote side, respect it. *)

Section ServiceFrame.

Context (R : World -> World -> Prop) `{!PreOrder R}.
Hypothesis R_frame : forall w w',
  host w' = host w -> dom w' = dom w -> appState w' = appState w -> R w w'.

Lemma frame_emit e : respects R (emit e).
Proof. intros w. apply R_frame; reflexivity. Qed.

Lemma frame_env_API_KEY : respects R env_API_KEY.
Proof. apply respects_unchanged; [exact _ | reflexivity]. Qed.

Lemma frame_window_aistudio : respects R window_aistudio.
Proof. apply respects_unchanged; [exact _ | reflexivity]. Qed.

Lemma frame_hasSelectedApiKey : respects R aistudio_hasSelectedApiKey.
Proof. intros w. apply R_frame; reflexivity. Qed.

Lemma frame_openSelectKey : respects R aistudio_openSelectKey.
Proof. apply frame_emit. Qed.

Lemma frame_sleep ms : respects R (sleep ms).
Proof. apply frame_emit. Qed.

Lemma frame_generateContent ai model data mime text :
  respects R (Gemini.models_generateContent ai model data mime text).
Proof.
  intros w. unfold Gemini.models_generateContent, bind, emit. simpl.
  destruct (generateContent (remote w) 0); apply R_frame; reflexivity.
Qed.

Lemma frame_generateImages ai model prompt n ratio mime :
  respects R (Gemini.models_generateImages ai model prompt n ratio mime).
Proof.
  intros w. unfold Gemini.models_generateImages, bind, emit. simpl.
  destruct (generateImages (remote w) 0); apply R_frame; reflexivity.
Qed.

Lemma frame_generateVideos ai model prompt bytes mime n res ratio :
  respects R (Gemini.models_generateVideos ai model prompt bytes mime n res ratio).
Proof.
  intros w. unfold Gemini.models_generateVideos, bind, emit. simpl.
  destruct (generateVideos (remote w) 0); apply R_frame; reflexivity.
Qed.

Lemma frame_getVideosOperation ai operation :
  respects R (Gemini.operations_getVideosOperation ai operation).
Proof.
  intros w. unfold Gemini.operations_getVideosOperation, bind, emit. simpl.
  destruct (getVideosOperation (remote w) 0); apply R_frame; reflexivity.
Qed.

#[local] Hint Resolve frame_emit frame_env_API_KEY frame_window_aistudio
  frame_hasSelectedApiKey frame_openSelectKey frame_sleep
  frame_generateContent frame_generateImages frame_generateVideos
  frame_getVideosOperation : respects_db.

Lemma frame_getAiClient : respects R Gemini.getAiClient.
Proof. unfold Gemini.getAiClient. respects_seq. Qed.

#[local] Hint Resolve frame_getAiClient : respects_db.

Lemma frame_analyzeVideoContent data mime :
  respects R (Gemini.analyzeVideoContent data mime).
Proof. unfold Gemini.analyzeVideoContent. respects_seq. Qed.

Lemma frame_cleanFrame img mime : respects R (Gemini.cleanFrame img mime).
Proof.
  unfold Gemini.cleanFrame. respects_seq.
  destruct (nth_error _ 0); respects_seq.
Qed.

(** The caller's callback is the one step that may touch the component. *)
Variable cb : option Callback.
Hypothesis R_notify : forall msg, respects R (notify cb msg).

#[local] Hint Resolve R_notify : respects_db.

Lemma frame_poll fuel ai : forall operation,
  respects R (Gemini.poll fuel ai cb operation).
Proof.
  induction fuel as [| fuel IH]; intros operation; simpl;
    destruct (done operation); respects_seq.
Qed.

#[local] Hint Resolve frame_poll : respects_db.

Lemma frame_generate_try fuel ai frame prompt :
  respects R (Gemini.generate_try fuel ai frame prompt cb).
Proof.
  unfold Gemini.generate_try. respects_seq.
  destruct (op_error _); respects_seq.
Qed.

Lemma frame_generate_catch e : respects R (Gemini.generate_catch e).
Proof. unfold Gemini.generate_catch. respects_seq. Qed.

#[local] Hint Resolve frame_generate_try frame_generate_catch : respects_db.

Lemma frame_generateCleanVideo fuel frame prompt :
  respects R (Gemini.generateCleanVideo fuel frame prompt cb).
Proof. unfold Gemini.generateCleanVideo. respects_seq. Qed.

End ServiceFrame.

Lemma same_page_frame w w' :
  host w' = host w -> dom w' = dom w -> appState w' = appState w -> same_page w w'.
Proof. intros H1 H2 _. split; assumption. Qed.

Lemma progressed_frame cb w w' :
  host w' = host w -> dom w' = dom w -> appState w' = appState w ->
  progressed cb w w'.
Proof. intros _ _ H. apply progressed_same. exact H. Qed.

Lemma same_page_notify cb msg : respects same_page (notify cb msg).
Proof. destruct cb; intros w; split; reflexivity. Qed.

Lemma progressed_notify cb msg : respects (progressed cb) (notify cb msg).
Proof.
  destruct cb as [f |]; intros w.
  - exists [msg]. reflexivity.
  - exists []. reflexivity.
Qed.

(** The service never touches the host page or the DOM. *)
Lemma generate_try_same_page fuel ai frame prompt cb w :
  same_page w (snd (Gemini.generate_try fuel ai frame prompt cb w)).
Proof.
  apply (frame_generate_try same_page same_page_frame cb (same_page_notify cb)).
Qed.

Lemma generateCleanVideo_same_page fuel frame prompt cb w :
  same_page w (snd (Gemini.generateCleanVideo fuel frame prompt cb w)).
Proof.
  apply (frame_generateCleanVideo same_page same_page_frame cb (same_page_notify cb)).
Qed.

Lemma analyzeVideoContent_same_page data mime w :
  same_page w (snd (Gemini.analyzeVideoContent data mime w)).
Proof. apply (frame_analyzeVideoContent same_page same_page_frame). Qed.

Lemma cleanFrame_same_page img mime w :
  same_page w (snd (Gemini.cleanFrame img mime w)).
Proof. apply (frame_cleanFrame same_page same_page_frame). Qed.

(** The describe and clean-frame calls leave the component state alone; the
    generate call changes it only through the callback. *)
Lemma analyzeVideoContent_appState data mime w :
  appState (snd (Gemini.analyzeVideoContent data mime w)) = appState w.
Proof.
  apply (progressed_None w).
  apply (frame_analyzeVideoContent (progressed None) (progressed_frame None)).
Qed.

Lemma cleanFrame_appState img mime w :
  appState (snd (Gemini.cleanFrame img mime w)) = appState w.
Proof.
  apply (progressed_None w).
  apply (frame_cleanFrame (progressed None) (progressed_frame None)).
Qed.

Lemma generateCleanVideo_progressed fuel frame prompt cb w :
  progressed cb w (snd (Gemini.generateCleanVideo fuel frame prompt cb w)).
Proof.
  apply (frame_generateCleanVideo (progressed cb) (progressed_frame cb) cb
           (progressed_notify cb)).
Qed.

(** ** The polling loop *)

Lemma poll_done fuel ai cb operation w :
  done operation = true ->
  Gemini.poll fuel ai cb operation w = (Ret operation, w).
Proof. intros H. destruct fuel; simpl; rewrite H; reflexivity. Qed.

Lemma poll_out_of_fuel ai cb operation w :
  done operation = false ->
  Gemini.poll 0 ai cb operation w = (Pending, w).
Proof. intros H. simpl. rewrite H. reflexivity. Qed.

(** One turn of the loop: the callback, the wait and one status check, whose
    answer decides how the loop goes on. *)
Lemma poll_step fuel ai cb operation w :
  done operation = false ->
  Gemini.poll (S fuel) ai cb operation w =
  match getVideosOperation (remote w) 0 with
  | Fulfilled operation' =>
      Gemini.poll fuel ai cb operation' (after_iteration cb operation w)
  | Rejected e => (Throw e, after_iteration cb operation w)
  end.
Proof.
  intros H. simpl. rewrite H.
  unfold after_iteration, poll_iteration, notify_events.
  destruct cb as [f |]; unfold bind, notify, sleep, emit,
    Gemini.operations_getVideosOperation, bind, emit; simpl;
    destruct (getVideosOperation (remote w) 0); simpl;
    unfold set_remote, set_trace, set_app; simpl;
    repeat rewrite <- app_assoc; reflexivity.
Qed.

Lemma after_iteration_answers cb h w i :
  getVideosOperation (remote (after_iteration cb h w)) i =
  getVideosOperation (remote w) (S i).
Proof. reflexivity. Qed.

(** The log of the loop is a sequence of whole iterations, one per handle
    that was found not done, and the way the loop ends is read off the
    answer to the last status check. *)
Lemma poll_log fuel ai cb : forall operation w,
  exists handles,
    trace (snd (Gemini.poll fuel ai cb operation w)) =
      trace w ++ flat_map (poll_iteration cb) handles
    /\ Forall (fun h => done h = false) handles
    /\ length handles <= fuel
    /\ match fst (Gemini.poll fuel ai cb operation w) with
       | Ret operation' => done operation' = true
       | Throw e =>
           handles <> [] /\
           getVideosOperation (remote w) (length handles - 1) = Rejected e
       | Pending => length handles = fuel
       end.
Proof.
  induction fuel as [| fuel IH]; intros operation w.
  - exists []. destruct (done operation) eqn:D.
    + rewrite poll_done by exact D. simpl. rewrite app_nil_r. auto.
    + rewrite poll_out_of_fuel by exact D. simpl. rewrite app_nil_r. auto.
  - destruct (done operation) eqn:D.
    + exists []. rewrite poll_done by exact D. simpl. rewrite app_nil_r.
      repeat split; auto with arith.
    + rewrite poll_step by exact D.
      destruct (getVideosOperation (remote w) 0) as [operation' | e] eqn:A.
      * destruct (IH operation' (after_iteration cb operation w))
          as (handles & Ht & Hf & Hl & Ho).
        exists (operation :: handles). simpl. repeat split.
        -- rewrite Ht. simpl. rewrite <- app_assoc. reflexivity.
        -- constructor; assumption.
        -- lia.
        -- destruct (fst (Gemini.poll fuel ai cb operation'
                            (after_iteration cb operation w))).
           ++ exact Ho.
           ++ destruct Ho as [Hne Hr]. split; [discriminate |].
              rewrite after_iteration_answers in Hr.
              destruct handles as [| h0 handles0]; [congruence |].
              simpl in *. rewrite Nat.sub_0_r in *. exact Hr.
           ++ congruence.
      * exists [operation]. simpl. repeat split.
        -- rewrite app_nil_r. reflexivity.
        -- constructor; [exact D | constructor].
        -- lia.
        -- discriminate.
        -- exact A.
Qed.

(** Once a status check answers a handle that is done, the loop returns it
    without a further iteration. *)
Lemma poll_exits_promptly ai cb : forall k fuel operation w d,
  done operation = false ->
  (forall i, i < k -> answers_not_done (getVideosOperation (remote w)) i) ->
  getVideosOperation (remote w) k = Fulfilled d ->
  done d = true ->
  k < fuel ->
  exists handles,
    length handles = S k
    /\ fst (Gemini.poll fuel ai cb operation w) = Ret d
    /\ trace (snd (Gemini.poll fuel ai cb operation w)) =
         trace w ++ flat_map (poll_iteration cb) handles.
Proof.
  induction k as [| k IH]; intros fuel operation w d D Hn Hk Hd Hf;
    destruct fuel as [| fuel]; try lia; rewrite poll_step by exact D.
  - rewrite Hk. exists [operation]. rewrite poll_done by exact Hd. simpl.
    rewrite app_nil_r. auto.
  - destruct (Hn 0) as (h & Hh & Dh); [lia |]. rewrite Hh.
    destruct (IH fuel h (after_iteration cb operation w) d) as (hs & Hl & Ho & Ht).
    + exact Dh.
    + intros i Hi. unfold answers_not_done. rewrite after_iteration_answers.
      apply Hn. lia.
    + rewrite after_iteration_answers. exact Hk.
    + exact Hd.
    + lia.
    + exists (operation :: hs). simpl. repeat split.
      * congruence.
      * exact Ho.
      * rewrite Ht. simpl. rewrite <- app_assoc. reflexivity.
Qed.

(** A rejected status check ends the loop with its error. *)
Lemma poll_rejected ai cb : forall k fuel operation w e,
  done operation = false ->
  (forall i, i < k -> answers_not_done (getVideosOperation (remote w)) i) ->
  getVideosOperation (remote w) k = Rejected e ->
  k < fuel ->
  fst (Gemini.poll fuel ai cb operation w) = Throw e.
Proof.
  induction k as [| k IH]; intros fuel operation w e D Hn Hk Hf;
    destruct fuel as [| fuel]; try lia; rewrite poll_step by exact D.
  - rewrite Hk. reflexivity.
  - destruct (Hn 0) as (h & Hh & Dh); [lia |]. rewrite Hh.
    apply IH.
    + exact Dh.
    + intros i Hi. unfold answers_not_done. rewrite after_iteration_answers.
      apply Hn. lia.
    + rewrite after_iteration_answers. exact Hk.
    + lia.
Qed.


(** ** The link pattern *)

Lemma video_extension_here_spec s :
  VideoUploader.video_extension_here s = true <->
  exists ext, s = String "."%char ext /\
              In (Js.toLowerCase ext) ["mp4"; "webm"; "mov"].
Proof.
  unfold VideoUploader.video_extension_here. split.
  - destruct s as [| c ext]; [discriminate |].
    destruct (Ascii.eqb_spec c "."%char) as [-> | Hc].
    + intros H. exists ext. split; [reflexivity |].
      apply orb_true_iff in H. destruct H as [H | H].
      * apply orb_true_iff in H. destruct H as [H | H];
          apply String.eqb_eq in H; rewrite H; simpl; auto.
      * apply String.eqb_eq in H; rewrite H; simpl; auto.
    + intros H. exfalso. apply Hc.
      destruct c as [[] [] [] [] [] [] [] []]; try discriminate H. reflexivity.
  - intros (ext & -> & Hin). simpl in Hin.
    destruct Hin as [H | [H | [H | []]]]; rewrite <- H; reflexivity.
Qed.

(** The search of the pattern over the link finds exactly the links that
    end in one of the extensions. *)
Lemma matches_video_extension_spec s :
  VideoUploader.matches_video_extension s = true <-> ends_with_video_extension s.
Proof.
  induction s as [| c s IH].
  - split; [discriminate |].
    intros (stem & ext & H & _). destruct stem; discriminate H.
  - change (VideoUploader.matches_video_extension (String c s))
      with (VideoUploader.video_extension_here (String c s)
            || VideoUploader.matches_video_extension s).
    rewrite orb_true_iff, video_extension_here_spec, IH. split.
    + intros [(ext & H & Hin) | (stem & ext & H & Hin)].
      * exists EmptyString, ext. split; [exact H | exact Hin].
      * exists (String c stem), ext. split; [simpl; rewrite H; reflexivity | exact Hin].
    + intros (stem & ext & H & Hin). destruct stem as [| c' stem].
      * left. exists ext. split; [exact H | exact Hin].
      * right. simpl in H. injection H as _ H. exists stem, ext.
        split; [exact H | exact Hin].
Qed.

(** ** Taking a sequence apart *)

Lemma bind_inv {A B} (m : M A) (k : A -> M B) w o w' :
  bind m k w = (o, w') ->
  (exists a w1, m w = (Ret a, w1) /\ k a w1 = (o, w'))
  \/ (exists e, m w = (Throw e, w') /\ o = Throw e)
  \/ (m w = (Pending, w') /\ o = Pending).
Proof.
  unfold bind. destruct (m w) as [[a | e |] w1]; intros H.
  - left. exists a, w1. auto.
  - right. left. exists e. injection H as <- <-. auto.
  - right. right. injection H as <- <-. auto.
Qed.

Lemma bind_inv_ret {A B} (m : M A) (k : A -> M B) w b w' :
  bind m k w = (Ret b, w') ->
  exists a w1, m w = (Ret a, w1) /\ k a w1 = (Ret b, w').
Proof.
  intros H. apply bind_inv in H.
  destruct H as [H | [(e & _ & H) | (_ & H)]]; [exact H | discriminate | discriminate].
Qed.

(** ** [getAiClient] *)

Lemma getAiClient_returns w :
  fst (Gemini.getAiClient w) = Ret (client_of w).
Proof.
  unfold Gemini.getAiClient, bind, window_aistudio, aistudio_hasSelectedApiKey,
    aistudio_openSelectKey, emit, env_API_KEY, ret, client_of. simpl.
  destruct (aistudio (host w)); simpl; [| reflexivity].
  destruct (hasSelectedApiKey (remote w) 0); reflexivity.
Qed.

Lemma getAiClient_standalone w :
  aistudio (host w) = false ->
  Gemini.getAiClient w = (Ret (client_of w), w).
Proof.
  intros H. unfold Gemini.getAiClient, bind, window_aistudio, env_API_KEY, ret,
    client_of. simpl. rewrite H. reflexivity.
Qed.

(** ** [generateCleanVideo] *)

Lemma generateCleanVideo_unfold fuel frame prompt cb w :
  Gemini.generateCleanVideo fuel frame prompt cb w =
  try_catch (Gemini.generate_try fuel (client_of w) frame prompt cb)
            Gemini.generate_catch (entering_try cb w).
Proof.
  unfold Gemini.generateCleanVideo, entering_try.
  pose proof (getAiClient_returns w) as H.
  unfold bind at 1 3.
  destruct (Gemini.getAiClient w) as [o w1]. simpl in H. subst o.
  unfold bind.
  assert (N : exists w2, notify cb "Initializing generation model..." w1 = (Ret tt, w2)).
  { destruct cb; simpl; unfold bind, emit; simpl; eexists; reflexivity. }
  destruct N as [w2 N]. rewrite N. reflexivity.
Qed.

Lemma entering_try_same_page cb w : same_page w (entering_try cb w).
Proof.
  unfold entering_try.
  apply (respects_bind same_page).
  - apply (frame_getAiClient same_page same_page_frame).
  - intros _. apply same_page_notify.
Qed.

Lemma entering_try_standalone cb w :
  aistudio (host w) = false ->
  entering_try cb w = snd (notify cb "Initializing generation model..." w).
Proof.
  intros H. unfold entering_try.
  rewrite (bind_ret _ _ _ _ _ (getAiClient_standalone w H)). reflexivity.
Qed.

(** The [catch] block always throws: the session-expired error after one
    opening of the key dialog when the message names the missing entity and
    the host has the dialog, the caught error itself otherwise. *)
Lemma generate_catch_run e w :
  Gemini.generate_catch e w =
  if Gemini.is_entity_not_found e && aistudio (host w) then
    (Throw (Err.new Gemini.session_expired),
     set_trace (trace w ++ [EConsoleError ["Veo Error:"] e; EOpenSelectKey]) w)
  else
    (Throw e, set_trace (trace w ++ [EConsoleError ["Veo Error:"] e]) w).
Proof.
  unfold Gemini.generate_catch, bind, emit, window_aistudio, aistudio_openSelectKey,
    emit, throw, ret. simpl.
  destruct (Gemini.is_entity_not_found e); simpl; [| reflexivity].
  destruct (aistudio (host w)); simpl; [| reflexivity].
  unfold set_trace. simpl. rewrite <- app_assoc. reflexivity.
Qed.

(** What the [try] block returns, when it returns. *)
Lemma generate_try_returns fuel ai frame prompt cb w v w' :
  Gemini.generate_try fuel ai frame prompt cb w = (Ret v, w') ->
  exists videoUri,
    Js.truthy videoUri = true /\
    v = Some (videoUri ++ "&key=" ++ Js.interpolate (API_KEY (host w)))%string.
Proof.
  intros H.
  assert (Hp : same_page w w').
  { pose proof (generate_try_same_page fuel ai frame prompt cb w) as P.
    rewrite H in P. exact P. }
  destruct Hp as [Hh _].
  unfold Gemini.generate_try in H.
  apply bind_inv_ret in H. destruct H as (op0 & w1 & _ & H).
  apply bind_inv_ret in H. destruct H as ([] & w2 & _ & H).
  apply bind_inv_ret in H. destruct H as (op & w3 & _ & H).
  destruct (op_error op); [discriminate H |].
  destruct (Gemini.videoUri_of op) as [u |]; simpl in H; [| discriminate H].
  destruct (Js.truthy u) eqn:T; simpl in H; [| discriminate H].
  unfold bind, env_API_KEY, ret in H. injection H as <- <-.
  exists u. split; [exact T |]. rewrite Hh. reflexivity.
Qed.

(** ** What the service logs

    [P] is a property of events; each step of the service logs only events
    with [P] as soon as the events it can emit have it. *)

Section ServiceLog.

Variable P : Event -> Prop.

Lemma logs_emit ev : P ev -> respects (logs P) (emit ev).
Proof. intros H w. apply (logs_one _ ev); [exact H | reflexivity]. Qed.

Lemma logs_notify cb msg :
  P (EProgress msg) -> respects (logs P) (notify cb msg).
Proof.
  intros H. destruct cb as [f |]; intros w.
  - apply (logs_one _ (EProgress msg)); [exact H | reflexivity].
  - apply logs_nothing. reflexivity.
Qed.

Lemma logs_env_API_KEY : respects (logs P) env_API_KEY.
Proof. apply respects_unchanged; [exact _ | reflexivity]. Qed.

Lemma logs_window_aistudio : respects (logs P) window_aistudio.
Proof. apply respects_unchanged; [exact _ | reflexivity]. Qed.

Lemma logs_hasSelectedApiKey :
  P EHasSelectedApiKey -> respects (logs P) aistudio_hasSelectedApiKey.
Proof. intros H w. apply (logs_one _ EHasSelectedApiKey); [exact H | reflexivity]. Qed.

Lemma logs_generateContent ai model data mime text :
  P (EGenerateContent model data mime text) ->
  respects (logs P) (Gemini.models_generateContent ai model data mime text).
Proof.
  intros H w. unfold Gemini.models_generateContent, bind, emit. simpl.
  destruct (generateContent (remote w) 0);
    (eapply logs_one; [exact H | reflexivity]).
Qed.

Lemma logs_generateImages ai model prompt n ratio mime :
  P (EGenerateImages model prompt n ratio mime) ->
  respects (logs P) (Gemini.models_generateImages ai model prompt n ratio mime).
Proof.
  intros H w. unfold Gemini.models_generateImages, bind, emit. simpl.
  destruct (generateImages (remote w) 0);
    (eapply logs_one; [exact H | reflexivity]).
Qed.

Lemma logs_generateVideos ai model prompt bytes mime n res ratio :
  P (EGenerateVideos model prompt bytes mime n res ratio) ->
  respects (logs P)
    (Gemini.models_generateVideos ai model prompt bytes mime n res ratio).
Proof.
  intros H w. unfold Gemini.models_generateVideos, bind, emit. simpl.
  destruct (generateVideos (remote w) 0);
    (eapply logs_one; [exact H | reflexivity]).
Qed.

Lemma logs_getVideosOperation ai operation :
  P (EGetVideosOperation operation) ->
  respects (logs P) (Gemini.operations_getVideosOperation ai operation).
Proof.
  intros H w. unfold Gemini.operations_getVideosOperation, bind, emit. simpl.
  destruct (getVideosOperation (remote w) 0);
    (eapply logs_one; [exact H | reflexivity]).
Qed.

(** The key dialog of [getAiClient]. *)
Hypothesis P_hasSelectedApiKey : P EHasSelectedApiKey.
Hypothesis P_openSelectKey : P EOpenSelectKey.

Lemma logs_getAiClient : respects (logs P) Gemini.getAiClient.
Proof.
  unfold Gemini.getAiClient.
  apply respects_bind; [exact _ | apply logs_window_aistudio | intros present].
  apply respects_bind; [exact _ | | intros _].
  - destruct present; [| apply respects_ret; exact _].
    apply respects_bind; [exact _ | apply logs_hasSelectedApiKey; assumption |].
    intros hasKey. destruct hasKey; simpl.
    + apply respects_ret; exact _.
    + apply logs_emit. assumption.
  - apply respects_bind; [exact _ | apply logs_env_API_KEY | intros key].
    apply respects_ret; exact _.
Qed.

End ServiceLog.

(** ** The key dialog is opened nowhere in the [try] block *)

Lemma quiet_notify cb msg : respects (logs not_openSelectKey) (notify cb msg).
Proof. apply logs_notify. discriminate. Qed.

Lemma quiet_sleep ms : respects (logs not_openSelectKey) (sleep ms).
Proof. apply logs_emit. discriminate. Qed.

Lemma quiet_env_API_KEY : respects (logs not_openSelectKey) env_API_KEY.
Proof. apply logs_env_API_KEY. Qed.

Lemma quiet_generateVideos ai model prompt bytes mime n res ratio :
  respects (logs not_openSelectKey)
    (Gemini.models_generateVideos ai model prompt bytes mime n res ratio).
Proof. apply logs_generateVideos. discriminate. Qed.

Lemma quiet_getVideosOperation ai operation :
  respects (logs not_openSelectKey) (Gemini.operations_getVideosOperation ai operation).
Proof. apply logs_getVideosOperation. discriminate. Qed.

#[local] Hint Resolve quiet_notify quiet_sleep quiet_env_API_KEY
  quiet_generateVideos quiet_getVideosOperation : respects_db.

Lemma quiet_poll fuel ai cb : forall operation,
  respects (logs not_openSelectKey) (Gemini.poll fuel ai cb operation).
Proof.
  induction fuel as [| fuel IH]; intros operation; simpl;
    destruct (done operation); respects_seq.
Qed.

#[local] Hint Resolve quiet_poll : respects_db.

Lemma quiet_generate_try fuel ai frame prompt cb :
  respects (logs not_openSelectKey) (Gemini.generate_try fuel ai frame prompt cb).
Proof.
  unfold Gemini.generate_try. respects_seq.
  destruct (op_error _); respects_seq.
Qed.

(** Without the host's dialog, [generateCleanVideo] never opens it. *)
Lemma quiet_generateCleanVideo fuel frame prompt cb w :
  aistudio (host w) = false ->
  logs not_openSelectKey w (snd (Gemini.generateCleanVideo fuel frame prompt cb w)).
Proof.
  intros Hs. rewrite generateCleanVideo_unfold.
  assert (H1 : logs not_openSelectKey w (entering_try cb w)).
  { rewrite entering_try_standalone by exact Hs. apply quiet_notify. }
  transitivity (entering_try cb w); [exact H1 |].
  pose proof (quiet_generate_try fuel (client_of w) frame prompt cb (entering_try cb w)) as H2.
  pose proof (generate_try_same_page fuel (client_of w) frame prompt cb (entering_try cb w)) as H3.
  pose proof (entering_try_same_page cb w) as H4.
  unfold try_catch.
  destruct (Gemini.generate_try fuel (client_of w) frame prompt cb (entering_try cb w))
    as [[v | e |] w2]; simpl in *; try exact H2.
  transitivity w2; [exact H2 |].
  rewrite generate_catch_run.
  destruct H3 as [H3 _]. destruct H4 as [H4 _].
  rewrite H3, H4, Hs, andb_false_r. simpl.
  eapply logs_one; [| reflexivity]. discriminate.
Qed.

(** ** The stages of [startProcessing] *)

Lemma startProcessing_starts fuel w vd :
  can_start w vd ->
  App.startProcessing fuel w =
  try_catch (App.processing_try fuel vd) App.processing_catch w.
Proof.
  intros (Hv & Hp & Hk). unfold App.startProcessing. rewrite Hv, Hp. simpl.
  destruct Hk as [Hk | Hk]; rewrite Hk; simpl; [reflexivity |].
  rewrite andb_false_r. reflexivity.
Qed.

(** When the guards refuse, nothing of the pipeline runs. *)
Lemma startProcessing_refused fuel w :
  (forall vd, ~ can_start w vd) ->
  fst (App.startProcessing fuel w) = Ret tt
  /\ appState (snd (App.startProcessing fuel w)) = appState w
  /\ remote (snd (App.startProcessing fuel w)) = remote w.
Proof.
  intros H. unfold App.startProcessing.
  destruct (videoData (appState w)) as [vd |] eqn:Hv; [| auto].
  destruct (Js.truthy_opt (previewUrl vd)) eqn:Hp; simpl; [| auto].
  destruct (Js.truthy_opt (API_KEY (host w))) eqn:Hk; simpl.
  - exfalso. apply (H vd). repeat split; auto.
  - destruct (aistudio (host w)) eqn:Hs; simpl.
    + exfalso. apply (H vd). repeat split; auto.
    + auto.
Qed.

Lemma processing_catch_run e w :
  App.processing_catch e w = (Ret tt, failed_with e w).
Proof. reflexivity. Qed.

Lemma await_loadeddata_dom : respects same_but_dom App.await_loadeddata.
Proof.
  intros w. unfold App.await_loadeddata.
  destruct (videoRef (dom w)) as [v |]; [| reflexivity].
  destruct (readyState v <? 2); [| reflexivity].
  destruct (loadeddata (dom w)); repeat split.
Qed.

Lemma captureFirstFrame_dom : respects same_but_dom App.captureFirstFrame.
Proof.
  intros w. unfold App.captureFirstFrame.
  destruct (videoRef (dom w)) as [v |]; [| reflexivity].
  destruct (canvasRef (dom w)) as [c |]; [| reflexivity]. simpl.
  destruct (context2d c); repeat split.
Qed.

(** The capture stage sets [analyzing], logs nothing and calls nobody. *)
Lemma capture_stage_world w :
  appState (snd (App.capture_stage w)) =
    update_processingState (fun _ => App.analyzing_state) (appState w)
  /\ trace (snd (App.capture_stage w)) = trace w
  /\ remote (snd (App.capture_stage w)) = remote w
  /\ host (snd (App.capture_stage w)) = host w.
Proof.
  unfold App.capture_stage.
  rewrite (bind_ret _ _ w tt
             (set_app (update_processingState (fun _ => App.analyzing_state)
                                              (appState w)) w))
    by reflexivity.
  match goal with
  | |- context [snd (?m ?w0)] =>
      assert (H : same_but_dom w0 (snd (m w0)))
  end.
  { apply respects_bind; [exact _ | apply await_loadeddata_dom | intros _].
    apply respects_bind; [exact _ | apply captureFirstFrame_dom | intros r].
    destruct r as [| | s]; try (apply respects_throw; exact _).
    destruct (Js.truthy s); [apply respects_ret | apply respects_throw]; exact _. }
  destruct H as (H1 & H2 & H3 & H4). rewrite H1, H2, H3, H4. repeat split.
Qed.

(** A captured frame is a non-empty string. *)
Lemma capture_stage_truthy w frame w1 :
  App.capture_stage w = (Ret frame, w1) -> Js.truthy frame = true.
Proof.
  unfold App.capture_stage. intros H.
  apply bind_inv_ret in H. destruct H as ([] & wa & _ & H).
  apply bind_inv_ret in H. destruct H as ([] & wb & _ & H).
  apply bind_inv_ret in H. destruct H as (r & wc & _ & H).
  destruct r as [| | s]; try discriminate H.
  destruct (Js.truthy s) eqn:T; [| discriminate H].
  injection H as <- _. exact T.
Qed.

(** The describe stage leaves the component alone and returns a non-empty
    description. *)
Lemma describe_stage_appState vd frame w :
  appState (snd (App.describe_stage vd frame w)) = appState w.
Proof.
  unfold App.describe_stage.
  pose proof (analyzeVideoContent_appState
                (Js.or_else (base64Data vd) frame)
                (Js.or_else (mimeType vd) "image/png") w) as H.
  unfold bind.
  destruct (Gemini.analyzeVideoContent _ _ w) as [[p | e |] w1]; simpl in *; exact H.
Qed.

Lemma or_else_truthy o d : Js.truthy d = true -> Js.truthy (Js.or_else o d) = true.
Proof.
  intros H. unfold Js.or_else. destruct o as [s |]; [| exact H].
  destruct (Js.truthy s) eqn:T; [exact T | exact H].
Qed.

Lemma analyzeVideoContent_truthy data mime w p w1 :
  Gemini.analyzeVideoContent data mime w = (Ret p, w1) -> Js.truthy p = true.
Proof.
  unfold Gemini.analyzeVideoContent. intros H.
  apply bind_inv_ret in H. destruct H as (ai & wa & _ & H).
  apply bind_inv_ret in H. destruct H as (r & wb & _ & H).
  injection H as <- _. apply or_else_truthy. reflexivity.
Qed.

Lemma describe_stage_truthy vd frame w p w1 :
  App.describe_stage vd frame w = (Ret p, w1) -> Js.truthy p = true.
Proof.
  unfold App.describe_stage. intros H.
  apply bind_inv_ret in H. destruct H as (q & wa & Ha & H).
  apply bind_inv_ret in H. destruct H as ([] & wb & _ & H).
  injection H as <- _. eapply analyzeVideoContent_truthy. exact Ha.
Qed.

Lemma clean_stage_appState frame w :
  appState (snd (App.clean_stage frame w)) =
  update_processingState (fun _ => App.cleaning_frame_state) (appState w).
Proof.
  unfold App.clean_stage, bind, setProcessingState. simpl.
  pose proof (cleanFrame_appState frame None
    (set_app (update_processingState (fun _ => App.cleaning_frame_state) (appState w)) w)) as H.
  destruct (Gemini.cleanFrame frame None _) as [[p | e |] w1]; simpl in *; exact H.
Qed.

(** ** Every run is one of the nine *)

Lemma startProcessing_Run fuel w vd :
  can_start w vd -> Run fuel vd w (App.startProcessing fuel w).
Proof.
  intros Hs. rewrite (startProcessing_starts fuel w vd Hs).
  unfold App.processing_try.
  destruct (App.capture_stage w) as [[frame | e |] w1] eqn:E1.
  2: { rewrite (try_catch_throw _ _ _ e w1) by (apply bind_throw; exact E1).
       rewrite processing_catch_run. apply capture_throws. exact E1. }
  2: { rewrite (try_catch_pending _ _ _ w1) by (apply bind_pending; exact E1).
       apply capture_pending. exact E1. }
  destruct (App.describe_stage vd frame w1) as [[prompt | e |] w2] eqn:E2.
  2: { rewrite (try_catch_throw _ _ _ e w2)
         by (rewrite (bind_ret _ _ _ _ _ E1); apply bind_throw; exact E2).
       rewrite processing_catch_run. eapply describe_throws; [exact E1 | exact E2]. }
  2: { rewrite (try_catch_pending _ _ _ w2)
         by (rewrite (bind_ret _ _ _ _ _ E1); apply bind_pending; exact E2).
       eapply describe_pending; [exact E1 | exact E2]. }
  assert (R2 : reaches_clean vd w frame prompt w2) by (exists w1; split; assumption).
  destruct (App.clean_stage frame w2) as [[cleaned | e |] w3] eqn:E3.
  2: { rewrite (try_catch_throw _ _ _ e w3)
         by (rewrite (bind_ret _ _ _ _ _ E1), (bind_ret _ _ _ _ _ E2);
             apply bind_throw; exact E3).
       rewrite processing_catch_run. eapply clean_throws; [exact R2 | exact E3]. }
  2: { rewrite (try_catch_pending _ _ _ w3)
         by (rewrite (bind_ret _ _ _ _ _ E1), (bind_ret _ _ _ _ _ E2);
             apply bind_pending; exact E3).
       eapply clean_pending; [exact R2 | exact E3]. }
  assert (R3 : reaches_generate vd w frame prompt cleaned w3)
    by (exists w2; split; assumption).
  destruct (App.generate_stage fuel cleaned prompt w3) as [[v | e |] w4] eqn:E4.
  2: { rewrite (try_catch_throw _ _ _ e w4)
         by (rewrite (bind_ret _ _ _ _ _ E1), (bind_ret _ _ _ _ _ E2),
               (bind_ret _ _ _ _ _ E3); apply bind_throw; exact E4).
       rewrite processing_catch_run. eapply generate_throws; [exact R3 | exact E4]. }
  2: { rewrite (try_catch_pending _ _ _ w4)
         by (rewrite (bind_ret _ _ _ _ _ E1), (bind_ret _ _ _ _ _ E2),
               (bind_ret _ _ _ _ _ E3); apply bind_pending; exact E4).
       eapply generate_pending; [exact R3 | exact E4]. }
  assert (P : App.processing_try fuel vd w = App.publish v w4).
  { unfold App.processing_try.
    rewrite (bind_ret _ _ _ _ _ E1), (bind_ret _ _ _ _ _ E2),
      (bind_ret _ _ _ _ _ E3), (bind_ret _ _ _ _ _ E4). reflexivity. }
  unfold App.processing_try in P.
  assert (T : try_catch
                (firstFrameBase64 <- App.capture_stage;;
                 analysisPrompt <- App.describe_stage vd firstFrameBase64;;
                 cleanedFrameBase64 <- App.clean_stage firstFrameBase64;;
                 videoUrl <- App.generate_stage fuel cleanedFrameBase64 analysisPrompt;;
                 App.publish videoUrl) App.processing_catch w
              = App.publish v w4).
  { unfold try_catch. rewrite P. unfold App.publish.
    destruct (Js.truthy_opt v); reflexivity. }
  rewrite T. eapply generate_returns; [exact R3 | exact E4].
Qed.

(** ** From the outcome of a stage to the outcome of the run *)

Lemma capture_failure_run fuel w vd e w1 :
  can_start w vd ->
  App.capture_stage w = (Throw e, w1) ->
  App.startProcessing fuel w = (Ret tt, failed_with e w1).
Proof.
  intros Hs E1. rewrite (startProcessing_starts fuel w vd Hs).
  unfold App.processing_try.
  rewrite (try_catch_throw _ _ _ e w1) by (apply bind_throw; exact E1).
  reflexivity.
Qed.

Lemma describe_failure_run fuel w vd frame w1 e w2 :
  can_start w vd ->
  reaches_describe w frame w1 ->
  App.describe_stage vd frame w1 = (Throw e, w2) ->
  App.startProcessing fuel w = (Ret tt, failed_with e w2).
Proof.
  intros Hs E1 E2. rewrite (startProcessing_starts fuel w vd Hs).
  unfold App.processing_try.
  rewrite (try_catch_throw _ _ _ e w2)
    by (rewrite (bind_ret _ _ _ _ _ E1); apply bind_throw; exact E2).
  reflexivity.
Qed.

Lemma clean_failure_run fuel w vd frame prompt w2 e w3 :
  can_start w vd ->
  reaches_clean vd w frame prompt w2 ->
  App.clean_stage frame w2 = (Throw e, w3) ->
  App.startProcessing fuel w = (Ret tt, failed_with e w3).
Proof.
  intros Hs (w1 & E1 & E2) E3. rewrite (startProcessing_starts fuel w vd Hs).
  unfold App.processing_try.
  rewrite (try_catch_throw _ _ _ e w3)
    by (rewrite (bind_ret _ _ _ _ _ E1), (bind_ret _ _ _ _ _ E2);
        apply bind_throw; exact E3).
  reflexivity.
Qed.

Lemma generate_failure_run fuel w vd frame prompt cleaned w3 e w4 :
  can_start w vd ->
  reaches_generate vd w frame prompt cleaned w3 ->
  App.generate_stage fuel cleaned prompt w3 = (Throw e, w4) ->
  App.startProcessing fuel w = (Ret tt, failed_with e w4).
Proof.
  intros Hs (w2 & (w1 & E1 & E2) & E3) E4.
  rewrite (startProcessing_starts fuel w vd Hs).
  unfold App.processing_try.
  rewrite (try_catch_throw _ _ _ e w4)
    by (rewrite (bind_ret _ _ _ _ _ E1), (bind_ret _ _ _ _ _ E2),
          (bind_ret _ _ _ _ _ E3); apply bind_throw; exact E4).
  reflexivity.
Qed.

(** ** The component state along a run *)

Lemma reaches_describe_world w frame w1 :
  reaches_describe w frame w1 ->
  appState w1 = update_processingState (fun _ => App.analyzing_state) (appState w)
  /\ trace w1 = trace w /\ remote w1 = remote w /\ host w1 = host w.
Proof.
  intros E1. pose proof (capture_stage_world w) as H.
  unfold reaches_describe in E1. rewrite E1 in H. exact H.
Qed.

Lemma reaches_clean_appState vd w frame prompt w2 :
  reaches_clean vd w frame prompt w2 ->
  appState w2 = update_processingState (fun _ => App.analyzing_state) (appState w).
Proof.
  intros (w1 & E1 & E2). apply reaches_describe_world in E1.
  destruct E1 as [<- _].
  pose proof (describe_stage_appState vd frame w1) as H. rewrite E2 in H. exact H.
Qed.

Lemma reaches_generate_appState vd w frame prompt cleaned w3 :
  reaches_generate vd w frame prompt cleaned w3 ->
  appState w3 =
  update_processingState (fun _ => App.cleaning_frame_state)
    (update_processingState (fun _ => App.analyzing_state) (appState w)).
Proof.
  intros (w2 & R2 & E3). apply reaches_clean_appState in R2. rewrite <- R2.
  pose proof (clean_stage_appState frame w2) as H. rewrite E3 in H. exact H.
Qed.

Lemma last_cons {A} (x : A) l d : last (x :: l) d = last l x.
Proof.
  revert x d. induction l as [| y l IH]; intros x d; [reflexivity |].
  change (last (x :: y :: l) d) with (last (y :: l) d).
  rewrite (IH y d), (IH y x). reflexivity.
Qed.

(** What a sequence of calls of the callback does to the component. *)
Lemma onProgress_fold msgs : forall a,
  fold_left (fun a msg => App.onProgress msg a) msgs a =
  {| videoData := videoData a;
     processingState :=
       last (map (fun msg => with_message msg (processingState a)) msgs)
            (processingState a);
     resultVideoUrl := resultVideoUrl a;
     history := history a ++
                map (fun msg => with_message msg (processingState a)) msgs |}.
Proof.
  induction msgs as [| m msgs IH]; intros a.
  - simpl. rewrite app_nil_r. destruct a; reflexivity.
  - simpl fold_left. rewrite IH.
    change (map (fun msg => with_message msg (processingState a)) (m :: msgs))
      with (with_message m (processingState a)
            :: map (fun msg => with_message msg (processingState a)) msgs).
    rewrite last_cons. unfold App.onProgress, update_processingState. simpl.
    rewrite <- app_assoc. reflexivity.
Qed.

(** The generate stage sets [generating] and then only rewrites the
    message. *)
Lemma generate_stage_appState fuel cleaned prompt w :
  exists msgs,
    appState (snd (App.generate_stage fuel cleaned prompt w)) =
    {| videoData := videoData (appState w);
       processingState := last (generating_updates msgs) App.generating_state;
       resultVideoUrl := resultVideoUrl (appState w);
       history := history (appState w) ++
                  App.generating_state :: generating_updates msgs |}.
Proof.
  unfold App.generate_stage.
  rewrite (bind_ret _ _ w tt
             (set_app (update_processingState (fun _ => App.generating_state)
                                              (appState w)) w))
    by reflexivity.
  match goal with
  | |- context [snd (?m ?w0)] =>
      destruct (generateCleanVideo_progressed fuel cleaned prompt
                  (Some App.onProgress) w0) as [msgs H]
  end.
  exists msgs. rewrite H, onProgress_fold. simpl.
  rewrite <- app_assoc. reflexivity.
Qed.

Lemma publish_truthy v w :
  Js.truthy_opt v = true ->
  App.publish v w =
  (Ret tt,
   set_app {| videoData := videoData (appState w);
              processingState := App.completed_state;
              resultVideoUrl := v;
              history := history (appState w) ++ [App.completed_state] |} w).
Proof. intros H. unfold App.publish. rewrite H. reflexivity. Qed.

(** The generate call of the orchestrator returns a URL that passes the
    guard. *)
Lemma generateCleanVideo_truthy fuel frame prompt cb w v w' :
  Gemini.generateCleanVideo fuel frame prompt cb w = (Ret v, w') ->
  exists videoUri,
    Js.truthy videoUri = true /\
    v = Some (videoUri ++ "&key=" ++ Js.interpolate (API_KEY (host w)))%string.
Proof.
  rewrite generateCleanVideo_unfold. unfold try_catch.
  destruct (Gemini.generate_try fuel (client_of w) frame prompt cb (entering_try cb w))
    as [[v0 | e |] w2] eqn:E; intros H.
  - injection H as <- <-. apply generate_try_returns in E.
    destruct (entering_try_same_page cb w) as [Hh _]. rewrite Hh in E. exact E.
  - rewrite generate_catch_run in H.
    destruct (Gemini.is_entity_not_found e && aistudio (host w2)); discriminate H.
  - discriminate H.
Qed.

Lemma truthy_app a b : Js.truthy a = true -> Js.truthy (a ++ b) = true.
Proof. destruct a; [discriminate | reflexivity]. Qed.

Lemma generate_stage_truthy fuel cleaned prompt w v w' :
  App.generate_stage fuel cleaned prompt w = (Ret v, w') ->
  Js.truthy_opt v = true.
Proof.
  unfold App.generate_stage. intros H.
  apply bind_inv_ret in H. destruct H as ([] & w0 & _ & H).
  apply generateCleanVideo_truthy in H. destruct H as (u & T & ->).
  simpl. apply truthy_app. exact T.
Qed.

Lemma generate_stage_unfold fuel cleaned prompt w :
  App.generate_stage fuel cleaned prompt w =
  Gemini.generateCleanVideo fuel cleaned prompt (Some App.onProgress)
    (entering_generate w).
Proof. reflexivity. Qed.

Lemma is_entity_not_found_message e :
  Gemini.is_entity_not_found e = true ->
  exists m, Err.message e = Some m
            /\ Js.includes Gemini.entity_not_found m = true
            /\ m <> "" /\ m <> Gemini.session_expired.
Proof.
  unfold Gemini.is_entity_not_found. destruct (Err.message e) as [m |]; [| discriminate].
  intros H. exists m. repeat split; try assumption.
  - intros ->. discriminate H.
  - intros ->. discriminate H.
Qed.

Lemma generate_success_run fuel w vd frame prompt cleaned w3 v w4 :
  can_start w vd ->
  reaches_generate vd w frame prompt cleaned w3 ->
  App.generate_stage fuel cleaned prompt w3 = (Ret v, w4) ->
  App.startProcessing fuel w = App.publish v w4.
Proof.
  intros Hs (w2 & (w1 & E1 & E2) & E3) E4.
  rewrite (startProcessing_starts fuel w vd Hs).
  unfold try_catch, App.processing_try.
  rewrite (bind_ret _ _ _ _ _ E1), (bind_ret _ _ _ _ _ E2),
    (bind_ret _ _ _ _ _ E3), (bind_ret _ _ _ _ _ E4).
  unfold App.publish. destruct (Js.truthy_opt v); reflexivity.
Qed.

Lemma can_start_dec w : (exists vd, can_start w vd) \/ (forall vd, ~ can_start w vd).
Proof.
  unfold can_start.
  destruct (videoData (appState w)) as [vd |] eqn:Hv.
  2: { right. intros vd (H & _). discriminate H. }
  destruct (Js.truthy_opt (previewUrl vd)) eqn:Hp.
  2: { right. intros vd' (H & H' & _). injection H as <-. congruence. }
  destruct (Js.truthy_opt (API_KEY (host w))) eqn:Hk.
  { left. exists vd. auto. }
  destruct (aistudio (host w)) eqn:Hs.
  { left. exists vd. auto. }
  right. intros vd' (_ & _ & [H | H]); discriminate H.
Qed.

(** ** The states a run hands to [setProcessingState] *)

Lemma failed_with_history e w :
  history (appState (failed_with e w)) = history (appState w) ++ [App.error_state e].
Proof. reflexivity. Qed.

Lemma Run_history fuel vd w r :
  Run fuel vd w r ->
  exists hs,
    history (appState (snd r)) = history (appState w) ++ hs
    /\ ((exists e, hs = [App.analyzing_state; App.error_state e])
        \/ hs = [App.analyzing_state]
        \/ (exists e, hs = [App.analyzing_state; App.cleaning_frame_state;
                            App.error_state e])
        \/ hs = [App.analyzing_state; App.cleaning_frame_state]
        \/ (exists frame prompt cleaned w3 msgs tail,
              reaches_generate vd w frame prompt cleaned w3
              /\ hs = App.analyzing_state :: App.cleaning_frame_state
                      :: App.generating_state :: generating_updates msgs ++ tail
              /\ (tail = []
                  \/ (exists e, tail = [App.error_state e])
                  \/ tail = [App.completed_state]))).
Proof.
  intros HR. destruct HR.
  - (* capture throws *)
    pose proof (capture_stage_world w) as (Ha & _). rewrite H in Ha. simpl in Ha.
    exists [App.analyzing_state; App.error_state e]. split.
    + cbn [snd]. rewrite failed_with_history. rewrite Ha. simpl.
      rewrite <- app_assoc. reflexivity.
    + left. exists e. reflexivity.
  - pose proof (capture_stage_world w) as (Ha & _). rewrite H in Ha. simpl in Ha.
    exists [App.analyzing_state]. split; [simpl; rewrite Ha; reflexivity | auto].
  - (* describe *)
    apply reaches_describe_world in H. destruct H as (Ha & _).
    pose proof (describe_stage_appState vd frame w1) as Hb. rewrite H0 in Hb.
    simpl in Hb.
    exists [App.analyzing_state; App.error_state e]. split.
    + cbn [snd]. rewrite failed_with_history. rewrite Hb, Ha. simpl.
      rewrite <- app_assoc. reflexivity.
    + left. exists e. reflexivity.
  - apply reaches_describe_world in H. destruct H as (Ha & _).
    pose proof (describe_stage_appState vd frame w1) as Hb. rewrite H0 in Hb.
    simpl in Hb.
    exists [App.analyzing_state]. split; [simpl; rewrite Hb, Ha; reflexivity | auto].
  - (* clean *)
    apply reaches_clean_appState in H.
    pose proof (clean_stage_appState frame w2) as Hb. rewrite H0 in Hb. simpl in Hb.
    exists [App.analyzing_state; App.cleaning_frame_state; App.error_state e]. split.
    + cbn [snd]. rewrite failed_with_history. rewrite Hb, H. simpl.
      repeat rewrite <- app_assoc. reflexivity.
    + right. right. left. exists e. reflexivity.
  - apply reaches_clean_appState in H.
    pose proof (clean_stage_appState frame w2) as Hb. rewrite H0 in Hb. simpl in Hb.
    exists [App.analyzing_state; App.cleaning_frame_state]. split.
    + simpl. rewrite Hb, H. simpl. rewrite <- app_assoc. reflexivity.
    + auto.
  - (* generate *)
    pose proof (reaches_generate_appState _ _ _ _ _ _ H) as Ha.
    destruct (generate_stage_appState fuel cleaned prompt w3) as [msgs Hb].
    rewrite H0 in Hb. simpl in Hb.
    exists (App.analyzing_state :: App.cleaning_frame_state
            :: App.generating_state :: generating_updates msgs
            ++ [App.error_state e]). split.
    + cbn [snd]. rewrite failed_with_history. rewrite Hb, Ha. simpl.
      repeat rewrite <- app_assoc. reflexivity.
    + do 4 right. exists frame, prompt, cleaned, w3, msgs, [App.error_state e].
      repeat split; eauto.
  - pose proof (reaches_generate_appState _ _ _ _ _ _ H) as Ha.
    destruct (generate_stage_appState fuel cleaned prompt w3) as [msgs Hb].
    rewrite H0 in Hb. simpl in Hb.
    exists (App.analyzing_state :: App.cleaning_frame_state
            :: App.generating_state :: generating_updates msgs ++ []). split.
    + simpl snd. rewrite Hb, Ha. simpl. rewrite app_nil_r.
      repeat rewrite <- app_assoc. reflexivity.
    + do 4 right. exists frame, prompt, cleaned, w3, msgs, [].
      repeat split; eauto.
  - pose proof (reaches_generate_appState _ _ _ _ _ _ H) as Ha.
    destruct (generate_stage_appState fuel cleaned prompt w3) as [msgs Hb].
    rewrite H0 in Hb. simpl in Hb.
    rewrite (publish_truthy _ _ (generate_stage_truthy _ _ _ _ _ _ H0)).
    exists (App.analyzing_state :: App.cleaning_frame_state
            :: App.generating_state :: generating_updates msgs
            ++ [App.completed_state]). split.
    + simpl. rewrite Hb, Ha. simpl. repeat rewrite <- app_assoc. reflexivity.
    + do 4 right. exists frame, prompt, cleaned, w3, msgs, [App.completed_state].
      repeat split; eauto.
Qed.

(** ** Status and progress along the states of a run *)

Lemma changes_generating_updates msgs l :
  changes Status.generating (map status (generating_updates msgs ++ l)) =
  changes Status.generating (map status l).
Proof. induction msgs as [| m msgs IH]; [reflexivity | exact IH]. Qed.

Lemma progress_generating_updates msgs l :
  non_decreasing_from 60 (map progress (generating_updates msgs ++ l)) =
  non_decreasing_from 60 (map progress l).
Proof. induction msgs as [| m msgs IH]; [reflexivity | exact IH]. Qed.

(** The changes of status of any run go strictly forward from [idle]. *)
Lemma Run_forward fuel vd w r hs :
  Run fuel vd w r ->
  history (appState (snd r)) = history (appState w) ++ hs ->
  strictly_forward_from Status.idle (changes Status.idle (map status hs)) = true.
Proof.
  intros HR Hh. destruct (Run_history fuel vd w r HR) as (hs' & Hh' & Hs).
  rewrite Hh' in Hh. apply app_inv_head in Hh. subst hs'.
  destruct Hs as [(e & ->) | [-> | [(e & ->) | [-> | Hg]]]]; try reflexivity.
  destruct Hg as (frame & prompt & cleaned & w3 & msgs & tail & _ & -> & Ht).
  cbn [map changes status App.analyzing_state App.cleaning_frame_state
       App.generating_state Status.eqb Status.rank Nat.eqb strictly_forward_from
       Nat.ltb Nat.leb andb].
  rewrite changes_generating_updates.
  destruct Ht as [-> | [(e & ->) | ->]]; reflexivity.
Qed.

(** ** What the stages before the generate stage log *)

Lemma describe_stage_logs vd frame w :
  logs (fun ev => clean_or_generate_call ev = false) w
       (snd (App.describe_stage vd frame w)).
Proof.
  revert w. change (respects (logs (fun ev => clean_or_generate_call ev = false))
                             (App.describe_stage vd frame)).
  unfold App.describe_stage, Gemini.analyzeVideoContent.
  apply respects_bind; [exact _ | | intros p].
  - apply respects_bind; [exact _ | apply logs_getAiClient; reflexivity | intros ai].
    apply respects_bind; [exact _ | apply logs_generateContent; reflexivity | intros r].
    apply respects_ret; exact _.
  - apply respects_bind; [exact _ | apply logs_emit; reflexivity | intros _].
    apply respects_ret; exact _.
Qed.

Lemma cleanFrame_logs img mime w :
  logs (fun ev => generate_call ev = false) w (snd (Gemini.cleanFrame img mime w)).
Proof.
  revert w. change (respects (logs (fun ev => generate_call ev = false))
                             (Gemini.cleanFrame img mime)).
  unfold Gemini.cleanFrame.
  apply respects_bind; [exact _ | apply logs_getAiClient; reflexivity | intros ai].
  apply respects_bind; [exact _ | apply logs_generateContent; reflexivity | intros r].
  apply respects_bind; [exact _ | apply logs_generateContent; reflexivity | intros d].
  apply respects_bind; [exact _ | apply logs_generateImages; reflexivity | intros i].
  destruct (nth_error (generatedImages i) 0);
    [apply respects_ret | apply respects_throw]; exact _.
Qed.

Lemma failed_with_logs (P : Event -> Prop) e w :
  P (EConsoleError [] e) -> logs P w (failed_with e w).
Proof. intros H. apply (logs_one _ (EConsoleError [] e)); [exact H | reflexivity]. Qed.

Lemma describe_failure_logs vd w frame w1 e w2 :
  reaches_describe w frame w1 ->
  App.describe_stage vd frame w1 = (Throw e, w2) ->
  logs (fun ev => clean_or_generate_call ev = false) w (failed_with e w2).
Proof.
  intros E1 E2. apply reaches_describe_world in E1. destruct E1 as (_ & Ht & _).
  transitivity w1; [apply logs_nothing; exact Ht |].
  transitivity w2.
  - pose proof (describe_stage_logs vd frame w1) as H. rewrite E2 in H. exact H.
  - apply failed_with_logs. reflexivity.
Qed.

Lemma clean_failure_logs vd w frame prompt w2 e w3 :
  reaches_clean vd w frame prompt w2 ->
  App.clean_stage frame w2 = (Throw e, w3) ->
  logs (fun ev => generate_call ev = false) w (failed_with e w3).
Proof.
  intros (w1 & E1 & E2) E3.
  apply reaches_describe_world in E1. destruct E1 as (_ & Ht & _).
  transitivity w1; [apply logs_nothing; exact Ht |].
  transitivity w2.
  { eapply logs_weaken; [| pose proof (describe_stage_logs vd frame w1) as H;
                           rewrite E2 in H; exact H].
    intros [] H; try reflexivity; discriminate H. }
  transitivity w3.
  - unfold App.clean_stage in E3.
    apply bind_inv in E3.
    destruct E3 as [([] & wa & Ha & E3) | [(e' & Ha & _) | (Ha & _)]];
      try discriminate Ha.
    injection Ha as <-.
    pose proof (cleanFrame_logs frame None
      (set_app (update_processingState (fun _ => App.cleaning_frame_state)
                                       (appState w2)) w2)) as H.
    rewrite E3 in H. exact H.
  - apply failed_with_logs. reflexivity.
Qed.

(** ** The image-edit request of [cleanFrame] *)

Lemma cleanFrame_edit_rejected img mime w e :
  generateContent (remote w) 0 = Rejected e ->
  fst (Gemini.cleanFrame img mime w) = Throw e
  /\ exists evs,
       trace (snd (Gemini.cleanFrame img mime w)) = trace w ++ evs
       /\ filter remote_call evs =
          [EGenerateContent "gemini-2.5-flash-image" img
             match mime with Some m => m | None => "image/png" end
             Gemini.remove_watermark_text].
Proof.
  intros H.
  unfold Gemini.cleanFrame, Gemini.getAiClient, Gemini.models_generateContent,
    bind, window_aistudio, aistudio_hasSelectedApiKey, aistudio_openSelectKey,
    emit, env_API_KEY, ret. simpl.
  destruct (aistudio (host w)); simpl.
  - destruct (hasSelectedApiKey (remote w) 0); simpl; rewrite H; simpl;
      (split; [reflexivity |]); eexists;
      (split; [repeat rewrite <- app_assoc; reflexivity | reflexivity]).
  - rewrite H. simpl. split; [reflexivity |]. eexists.
    split; reflexivity.
Qed.

(** ** The actions of the page *)

Lemma Status_eqb_eq a b : Status.eqb a b = true -> a = b.
Proof. destruct a, b; simpl; intros H; try reflexivity; discriminate H. Qed.

Lemma no_new_state l (hs : list ProcessingState) : l = l ++ hs -> hs = [].
Proof.
  intros H. rewrite <- (app_nil_r l) in H at 1.
  apply app_inv_head in H. symmetry. exact H.
Qed.

(** * The service and the stages, event by event *)

(** ** The key check *)

Lemma getAiClient_run w :
  fst (Gemini.getAiClient w) = Ret (client_of w)
  /\ trace (snd (Gemini.getAiClient w)) = trace w ++ key_events w
  /\ host (snd (Gemini.getAiClient w)) = host w
  /\ dom (snd (Gemini.getAiClient w)) = dom w
  /\ appState (snd (Gemini.getAiClient w)) = appState w
  /\ generateContent (remote (snd (Gemini.getAiClient w))) = generateContent (remote w)
  /\ generateImages (remote (snd (Gemini.getAiClient w))) = generateImages (remote w)
  /\ generateVideos (remote (snd (Gemini.getAiClient w))) = generateVideos (remote w)
  /\ getVideosOperation (remote (snd (Gemini.getAiClient w)))
     = getVideosOperation (remote w).
Proof.
  unfold Gemini.getAiClient, bind, window_aistudio, aistudio_hasSelectedApiKey,
    aistudio_openSelectKey, emit, env_API_KEY, ret, client_of, key_events. simpl.
  destruct (aistudio (host w)); simpl.
  - destruct (hasSelectedApiKey (remote w) 0); simpl;
      repeat split; rewrite <- app_assoc; reflexivity.
  - repeat split. rewrite app_nil_r. reflexivity.
Qed.

Lemma getAiClient_eq w :
  Gemini.getAiClient w = (Ret (client_of w), snd (Gemini.getAiClient w)).
Proof.
  pose proof (getAiClient_run w) as (H & _).
  destruct (Gemini.getAiClient w) as [o w1]. simpl in *. subst o. reflexivity.
Qed.

Lemma key_events_no_call w : filter remote_call (key_events w) = [].
Proof.
  unfold key_events. destruct (aistudio (host w)); [| reflexivity].
  destruct (hasSelectedApiKey (remote w) 0); reflexivity.
Qed.

Lemma key_events_no_progress w : progress_messages (key_events w) = [].
Proof.
  unfold key_events. destruct (aistudio (host w)); [| reflexivity].
  destruct (hasSelectedApiKey (remote w) 0); reflexivity.
Qed.

(** What follows the key check in a service call. *)
Lemma after_key_check (P : Event -> Prop) {A}
    (k : Gemini.GoogleGenAI -> M A) w :
  (forall ai, respects (logs P) (k ai)) ->
  exists evs,
    trace (snd (bind Gemini.getAiClient k w)) = trace w ++ key_events w ++ evs
    /\ Forall P evs.
Proof.
  intros H. rewrite (bind_ret _ _ _ _ _ (getAiClient_eq w)).
  destruct (H (client_of w) (snd (Gemini.getAiClient w))) as (evs & Ht & F).
  exists evs. split; [| exact F].
  rewrite Ht. destruct (getAiClient_run w) as (_ & Hk & _). rewrite Hk.
  rewrite <- app_assoc. reflexivity.
Qed.

Lemma analyzeVideoContent_rest ai data mime :
  respects (logs (fun ev => dialog_event ev = false))
    (response <- Gemini.models_generateContent ai "gemini-2.5-flash-latest"
                   data mime Gemini.describe_video_text ;;
     ret (Js.or_else (text response) "A cinematic video scene.")).
Proof.
  apply respects_bind; [exact _ | apply logs_generateContent; reflexivity |].
  intros r. apply respects_ret; exact _.
Qed.

Lemma cleanFrame_rest ai img mime :
  respects (logs (fun ev => dialog_event ev = false))
    (response <- Gemini.models_generateContent ai "gemini-2.5-flash-image"
                   img mime Gemini.remove_watermark_text ;;
     descriptionResponse <- Gemini.models_generateContent ai
                   "gemini-2.5-flash-latest" img mime Gemini.describe_frame_text ;;
     imagenResponse <- Gemini.models_generateImages ai "imagen-4.0-generate-001"
                   (Js.or_else (text descriptionResponse) "A clean video frame"
                    ++ Gemini.imagen_qualifier)%string 1 "16:9" "image/png" ;;
     match nth_error (generatedImages imagenResponse) 0 with
     | Some first => ret (imageBytes (image first))
     | None => throw Gemini.TypeError_image
     end).
Proof.
  apply respects_bind; [exact _ | apply logs_generateContent; reflexivity | intros r].
  apply respects_bind; [exact _ | apply logs_generateContent; reflexivity | intros d].
  apply respects_bind; [exact _ | apply logs_generateImages; reflexivity | intros i].
  destruct (nth_error (generatedImages i) 0);
    [apply respects_ret | apply respects_throw]; exact _.
Qed.


(** ** The log of a service call, event by event *)

Lemma bind_trace_end {A B} (m : M A) (k : A -> M B) w :
  (forall a w', trace (snd (k a w')) = trace w') ->
  trace (snd (bind m k w)) = trace (snd (m w)).
Proof.
  intros H. unfold bind. destruct (m w) as [[a | e |] w1]; simpl; auto.
Qed.

Lemma notify_eq cb msg w : notify cb msg w = (Ret tt, snd (notify cb msg w)).
Proof. destruct cb; reflexivity. Qed.

Lemma notify_world cb msg w :
  trace (snd (notify cb msg w)) = trace w ++ notify_events cb msg
  /\ remote (snd (notify cb msg w)) = remote w
  /\ host (snd (notify cb msg w)) = host w.
Proof.
  destruct cb; simpl; repeat split. rewrite app_nil_r. reflexivity.
Qed.

Lemma generateVideos_run ai model prompt bytes mime n res ratio w :
  Gemini.models_generateVideos ai model prompt bytes mime n res ratio w =
  (match generateVideos (remote w) 0 with
   | Fulfilled op => Ret op
   | Rejected e => Throw e
   end,
   set_remote (pop_generateVideos (remote w))
     (set_trace (trace w ++ [EGenerateVideos model prompt bytes mime n res ratio]) w)).
Proof.
  unfold Gemini.models_generateVideos, bind, emit. simpl.
  destruct (generateVideos (remote w) 0); reflexivity.
Qed.

(** The tail of the [try] block, after the polling loop, logs nothing. *)
Lemma generate_try_tail_silent (operation : Operation) w :
  trace (snd (match op_error operation with
              | Some err =>
                  throw (Err.new (Js.or_else (Err.message err)
                                             "Video generation failed"))
              | None =>
                  if negb (Js.truthy_opt (Gemini.videoUri_of operation)) then
                    throw (Err.new "No video URI returned")
                  else
                    key <- env_API_KEY ;;
                    ret (Some (Js.interpolate (Gemini.videoUri_of operation)
                               ++ "&key=" ++ Js.interpolate key)%string)
              end w)) = trace w.
Proof.
  destruct (op_error operation); [reflexivity |].
  destruct (negb (Js.truthy_opt (Gemini.videoUri_of operation))); reflexivity.
Qed.

(** The log of the [try] block: the generation request, and when it is
    accepted the "started" message and whole iterations of the polling
    loop. *)
Lemma generate_try_log fuel ai frame prompt cb w :
  exists handles,
    trace (snd (Gemini.generate_try fuel ai frame prompt cb w)) =
      trace w ++ veo_request prompt frame ::
        match generateVideos (remote w) 0 with
        | Rejected _ => []
        | Fulfilled _ =>
            notify_events cb "Video generation started. This may take a moment..."
            ++ flat_map (poll_iteration cb) handles
        end
    /\ Forall (fun h => done h = false) handles
    /\ length handles <= fuel.
Proof.
  unfold Gemini.generate_try. unfold bind at 1. rewrite generateVideos_run.
  destruct (generateVideos (remote w) 0) as [op | e].
  - unfold bind at 1. rewrite notify_eq.
    rewrite bind_trace_end by (intros; apply generate_try_tail_silent).
    match goal with
    | |- context [Gemini.poll fuel ai cb op ?w2] =>
        destruct (poll_log fuel ai cb op w2) as (handles & Ht & Hf & Hl & _);
        destruct (notify_world cb "Video generation started. This may take a moment..."
                    (set_remote (pop_generateVideos (remote w))
                       (set_trace (trace w ++ [veo_request prompt frame]) w)))
          as (Hn & _)
    end.
    exists handles. repeat split; try assumption.
    rewrite Ht. unfold veo_request in *. rewrite Hn. simpl.
    repeat rewrite <- app_assoc. reflexivity.
  - exists []. repeat split; [constructor | simpl; lia].
Qed.

Lemma entering_try_world cb w :
  trace (entering_try cb w)
  = trace w ++ key_events w ++ notify_events cb "Initializing generation model..."
  /\ generateVideos (remote (entering_try cb w)) = generateVideos (remote w)
  /\ getVideosOperation (remote (entering_try cb w)) = getVideosOperation (remote w)
  /\ host (entering_try cb w) = host w.
Proof.
  unfold entering_try. rewrite (bind_ret _ _ _ _ _ (getAiClient_eq w)).
  destruct (getAiClient_run w) as (_ & Ht & Hh & _ & _ & _ & _ & Hv & Hc).
  destruct (notify_world cb "Initializing generation model..."
              (snd (Gemini.getAiClient w))) as (Hn & Hr & Hh').
  rewrite Hn, Hr, Hh', Ht, Hh, Hv, Hc. rewrite <- app_assoc. auto.
Qed.

(** The log of a whole call of [generateCleanVideo]. *)
Lemma generateCleanVideo_log fuel frame prompt cb w :
  exists handles tail,
    trace (snd (Gemini.generateCleanVideo fuel frame prompt cb w)) =
      trace w ++ key_events w
      ++ notify_events cb "Initializing generation model..."
      ++ veo_request prompt frame ::
         match generateVideos (remote w) 0 with
         | Rejected _ => []
         | Fulfilled _ =>
             notify_events cb "Video generation started. This may take a moment..."
             ++ flat_map (poll_iteration cb) handles
         end
      ++ tail
    /\ Forall (fun h => done h = false) handles
    /\ length handles <= fuel
    /\ Forall (fun ev => catch_event ev = true) tail.
Proof.
  rewrite generateCleanVideo_unfold.
  destruct (entering_try_world cb w) as (Ht & Hv & _ & _).
  destruct (generate_try_log fuel (client_of w) frame prompt cb (entering_try cb w))
    as (handles & Hg & Hf & Hl).
  rewrite Hv, Ht in Hg.
  unfold try_catch.
  destruct (Gemini.generate_try fuel (client_of w) frame prompt cb (entering_try cb w))
    as [[v | e |] w2]; simpl in Hg.
  - exists handles, []. simpl. rewrite Hg. repeat split; try assumption.
    + repeat rewrite <- app_assoc. simpl. rewrite app_nil_r. reflexivity.
    + constructor.
  - rewrite generate_catch_run.
    destruct (Gemini.is_entity_not_found e && aistudio (host w2)).
    + exists handles, [EConsoleError ["Veo Error:"] e; EOpenSelectKey].
      simpl. rewrite Hg. repeat split; try assumption.
      * repeat rewrite <- app_assoc. reflexivity.
      * repeat constructor.
    + exists handles, [EConsoleError ["Veo Error:"] e].
      simpl. rewrite Hg. repeat split; try assumption.
      * repeat rewrite <- app_assoc. reflexivity.
      * repeat constructor.
  - exists handles, []. simpl. rewrite Hg. repeat split; try assumption.
    + repeat rewrite <- app_assoc. simpl. rewrite app_nil_r. reflexivity.
    + constructor.
Qed.

(** ** Reading the log *)

Lemma filter_none (p q : Event -> bool) l :
  Forall (fun ev => q ev = true) l ->
  (forall ev, q ev = true -> p ev = false) ->
  filter p l = [].
Proof.
  intros F H. induction F as [| ev l Hq F IH]; [reflexivity |].
  simpl. rewrite (H ev Hq). exact IH.
Qed.

Lemma filter_flat_map {A} (p : Event -> bool) (f : A -> list Event) l :
  filter p (flat_map f l) = flat_map (fun a => filter p (f a)) l.
Proof.
  induction l as [| a l IH]; [reflexivity |].
  simpl. rewrite filter_app, IH. reflexivity.
Qed.

Lemma flat_map_singleton {A B} (f : A -> B) l :
  flat_map (fun a => [f a]) l = map f l.
Proof. induction l as [| a l IH]; [reflexivity | simpl; rewrite IH; reflexivity]. Qed.

Lemma progress_messages_app l1 l2 :
  progress_messages (l1 ++ l2) = progress_messages l1 ++ progress_messages l2.
Proof. apply flat_map_app. Qed.

Lemma progress_messages_catch tail :
  Forall (fun ev => catch_event ev = true) tail -> progress_messages tail = [].
Proof.
  intros F. induction F as [| ev l Hq F IH]; [reflexivity |].
  destruct ev; try discriminate Hq; exact IH.
Qed.

Lemma progress_messages_poll cb handles :
  progress_messages (flat_map (poll_iteration cb) handles) =
  match cb with
  | Some _ => repeat "Rendering video frames..." (length handles)
  | None => []
  end.
Proof.
  induction handles as [| h hs IH].
  - destruct cb; reflexivity.
  - simpl flat_map. rewrite progress_messages_app, IH.
    destruct cb; reflexivity.
Qed.

Lemma remote_calls_poll cb handles :
  filter remote_call (flat_map (poll_iteration cb) handles)
  = map EGetVideosOperation handles.
Proof.
  rewrite filter_flat_map, <- flat_map_singleton.
  apply flat_map_ext. intros h. destruct cb; reflexivity.
Qed.

Lemma polling_events_poll cb handles :
  filter polling_event (flat_map (poll_iteration cb) handles)
  = flat_map (fun h => [ESetTimeout 5000; EGetVideosOperation h]) handles.
Proof.
  rewrite filter_flat_map. apply flat_map_ext. intros h. destruct cb; reflexivity.
Qed.

Lemma generateVideos_events_poll cb handles :
  filter generateVideos_event (flat_map (poll_iteration cb) handles) = [].
Proof.
  rewrite filter_flat_map. induction handles as [| h hs IH]; [reflexivity |].
  simpl. rewrite IH. destruct cb; reflexivity.
Qed.

Lemma key_events_filter (p : Event -> bool) w :
  (forall ev, dialog_event ev = true -> p ev = false) ->
  filter p (key_events w) = [].
Proof.
  intros H. unfold key_events. destruct (aistudio (host w)); [| reflexivity].
  destruct (hasSelectedApiKey (remote w) 0); simpl;
    repeat rewrite H by reflexivity; reflexivity.
Qed.

Lemma notify_events_filter (p : Event -> bool) cb msg :
  p (EProgress msg) = false -> filter p (notify_events cb msg) = [].
Proof. intros H. destruct cb; simpl; [rewrite H |]; reflexivity. Qed.

(** What a call of [generateCleanVideo] adds to the log, read by kind of
    event. *)
Lemma generateCleanVideo_events fuel frame prompt cb w :
  exists evs handles,
    trace (snd (Gemini.generateCleanVideo fuel frame prompt cb w)) = trace w ++ evs
    /\ Forall (fun h => done h = false) handles
    /\ length handles <= fuel
    /\ (forall e, generateVideos (remote w) 0 = Rejected e -> handles = [])
    /\ filter remote_call evs
       = veo_request prompt frame :: map EGetVideosOperation handles
    /\ filter generateVideos_event evs = [veo_request prompt frame]
    /\ filter polling_event evs
       = flat_map (fun h => [ESetTimeout 5000; EGetVideosOperation h]) handles
    /\ progress_messages evs
       = match cb with
         | None => []
         | Some _ =>
             "Initializing generation model..." ::
             match generateVideos (remote w) 0 with
             | Rejected _ => []
             | Fulfilled _ =>
                 "Video generation started. This may take a moment..." ::
                 repeat "Rendering video frames..." (length handles)
             end
         end.
Proof.
  destruct (generateCleanVideo_log fuel frame prompt cb w)
    as (handles & tail & Ht & Hf & Hl & Hc).
  assert (Tr : filter remote_call tail = []).
  { apply (filter_none _ catch_event); [exact Hc |].
    intros [] H; try discriminate H; reflexivity. }
  assert (Tg : filter generateVideos_event tail = []).
  { apply (filter_none _ catch_event); [exact Hc |].
    intros [] H; try discriminate H; reflexivity. }
  assert (Tp : filter polling_event tail = []).
  { apply (filter_none _ catch_event); [exact Hc |].
    intros [] H; try discriminate H; reflexivity. }
  pose proof (progress_messages_catch tail Hc) as Tm.
  assert (Kr : filter remote_call (key_events w) = []).
  { apply key_events_filter. intros [] H; try discriminate H; reflexivity. }
  assert (Kg : filter generateVideos_event (key_events w) = []).
  { apply key_events_filter. intros [] H; try discriminate H; reflexivity. }
  assert (Kp : filter polling_event (key_events w) = []).
  { apply key_events_filter. intros [] H; try discriminate H; reflexivity. }
  pose proof (key_events_no_progress w) as Km.
  destruct (generateVideos (remote w) 0) as [op | e] eqn:Hv.
  - eexists. exists handles. split; [exact Ht |].
    split; [exact Hf |]. split; [exact Hl |]. split; [discriminate |].
    repeat rewrite filter_app. simpl filter. repeat rewrite filter_app.
    repeat rewrite progress_messages_app.
    change (progress_messages (veo_request prompt frame :: ?l))
      with (progress_messages l).
    rewrite Kr, Kg, Kp, Tr, Tg, Tp.
    repeat rewrite notify_events_filter by reflexivity.
    rewrite remote_calls_poll, polling_events_poll, generateVideos_events_poll.
    repeat rewrite app_nil_r. simpl.
    split; [reflexivity |]. split; [reflexivity |]. split; [reflexivity |].
    simpl progress_messages. rewrite progress_messages_app, Km.
    rewrite progress_messages_app.
    change (progress_messages (veo_request prompt frame :: ?l))
      with (progress_messages l).
    repeat rewrite progress_messages_app. rewrite progress_messages_poll, Tm.
    destruct cb; simpl; rewrite ?app_nil_r; reflexivity.
  - eexists. exists []. split; [exact Ht |].
    split; [constructor |]. split; [simpl; lia |]. split; [reflexivity |].
    repeat rewrite filter_app. simpl filter. 
    rewrite Kr, Kg, Kp, Tr, Tg, Tp.
    repeat rewrite notify_events_filter by reflexivity.
    simpl.
    split; [reflexivity |]. split; [reflexivity |]. split; [reflexivity |].
    rewrite progress_messages_app, Km. rewrite progress_messages_app.
    change (progress_messages (veo_request prompt frame :: ?l))
      with (progress_messages l).
    rewrite Tm. destruct cb; simpl; rewrite ?app_nil_r; reflexivity.
Qed.

(** ** The describe and the clean-frame call, answer by answer *)

Lemma generateContent_run ai model data mime text w :
  Gemini.models_generateContent ai model data mime text w =
  (match generateContent (remote w) 0 with
   | Fulfilled r => Ret r
   | Rejected e => Throw e
   end,
   set_remote (pop_generateContent (remote w))
     (set_trace (trace w ++ [EGenerateContent model data mime text]) w)).
Proof.
  unfold Gemini.models_generateContent, bind, emit. simpl.
  destruct (generateContent (remote w) 0); reflexivity.
Qed.

Lemma generateImages_run ai model prompt n ratio mime w :
  Gemini.models_generateImages ai model prompt n ratio mime w =
  (match generateImages (remote w) 0 with
   | Fulfilled r => Ret r
   | Rejected e => Throw e
   end,
   set_remote (pop_generateImages (remote w))
     (set_trace (trace w ++ [EGenerateImages model prompt n ratio mime]) w)).
Proof.
  unfold Gemini.models_generateImages, bind, emit. simpl.
  destruct (generateImages (remote w) 0); reflexivity.
Qed.

Lemma calls_after_key_check cs w w' :
  trace w' = trace w ++ key_events w ++ cs ->
  filter remote_call cs = cs ->
  calls cs w w'.
Proof.
  intros H F. exists (key_events w ++ cs). split; [exact H |].
  rewrite filter_app, key_events_no_call. exact F.
Qed.

Lemma analyzeVideoContent_run data mime w :
  fst (Gemini.analyzeVideoContent data mime w)
  = match generateContent (remote w) 0 with
    | Fulfilled r => Ret (Js.or_else (text r) "A cinematic video scene.")
    | Rejected e => Throw e
    end
  /\ trace (snd (Gemini.analyzeVideoContent data mime w))
     = trace w ++ key_events w ++ [describe_request data mime].
Proof.
  destruct (getAiClient_run w) as (_ & Ht & _ & _ & _ & Hc & _).
  unfold Gemini.analyzeVideoContent.
  rewrite (bind_ret _ _ _ _ _ (getAiClient_eq w)).
  unfold bind. rewrite generateContent_run. rewrite Hc, Ht.
  destruct (generateContent (remote w) 0); simpl;
    (split; [reflexivity | rewrite <- app_assoc; reflexivity]).
Qed.

(** [cleanFrame], by the answers to its three requests. *)
Lemma cleanFrame_run img mime w :
  match generateContent (remote w) 0 with
  | Rejected e =>
      fst (Gemini.cleanFrame img mime w) = Throw e
      /\ calls [edit_request img (mime_or_png mime)] w
               (snd (Gemini.cleanFrame img mime w))
  | Fulfilled _ =>
      match generateContent (remote w) 1 with
      | Rejected e =>
          fst (Gemini.cleanFrame img mime w) = Throw e
          /\ calls [edit_request img (mime_or_png mime);
                    describe_frame_request img (mime_or_png mime)] w
                   (snd (Gemini.cleanFrame img mime w))
      | Fulfilled d =>
          calls [edit_request img (mime_or_png mime);
                 describe_frame_request img (mime_or_png mime);
                 imagen_request (Js.or_else (text d) "A clean video frame")] w
                (snd (Gemini.cleanFrame img mime w))
          /\ fst (Gemini.cleanFrame img mime w)
             = match generateImages (remote w) 0 with
               | Rejected e => Throw e
               | Fulfilled i =>
                   match nth_error (generatedImages i) 0 with
                   | Some first => Ret (imageBytes (image first))
                   | None => Throw Gemini.TypeError_image
                   end
               end
      end
  end.
Proof.
  destruct (getAiClient_run w) as (_ & Ht & _ & _ & _ & Hc & Hi & _).
  remember (Gemini.cleanFrame img mime w) as r eqn:R.
  unfold Gemini.cleanFrame in R.
  rewrite (bind_ret _ _ _ _ _ (getAiClient_eq w)) in R.
  fold (mime_or_png mime) in R.
  unfold bind at 1 in R. rewrite generateContent_run in R. rewrite Hc in R.
  destruct (generateContent (remote w) 0) as [r1 | e1].
  2: { subst r. split; [reflexivity |].
       apply calls_after_key_check; [| reflexivity].
       simpl. rewrite Ht, <- app_assoc. reflexivity. }
  unfold bind at 1 in R. rewrite generateContent_run in R.
  cbn [remote set_remote set_trace pop_generateContent generateContent trace] in R.
  rewrite Hc in R. unfold tail_of in R.
  destruct (generateContent (remote w) 1) as [r2 | e2].
  2: { subst r. split; [reflexivity |].
       apply calls_after_key_check; [| reflexivity].
       simpl. rewrite Ht. repeat rewrite <- app_assoc. reflexivity. }
  unfold bind at 1 in R. rewrite generateImages_run in R.
  cbn [remote set_remote set_trace pop_generateContent generateImages trace] in R.
  rewrite Hi in R.
  destruct (generateImages (remote w) 0) as [i | e3].
  - destruct (nth_error (generatedImages i) 0) as [first |] eqn:N;
      subst r; (split; [| reflexivity]);
      (apply calls_after_key_check; [| reflexivity]);
      simpl; rewrite Ht; repeat rewrite <- app_assoc; reflexivity.
  - subst r. split; [| reflexivity].
    apply calls_after_key_check; [| reflexivity].
    simpl. rewrite Ht. repeat rewrite <- app_assoc. reflexivity.
Qed.

(** ** The finished operation *)

Lemma poll_ends fuel ai cb operation d w :
  ends_with_handle fuel (getVideosOperation (remote w)) operation d ->
  fst (Gemini.poll fuel ai cb operation w) = Ret d.
Proof.
  intros [[Hd ->] | (Hd & k & Hk & Hb & Hs & Hdd)].
  - rewrite poll_done by exact Hd. reflexivity.
  - destruct (poll_exits_promptly ai cb k fuel operation w d Hd Hb Hs Hdd Hk)
      as (_ & _ & H & _).
    exact H.
Qed.

Lemma poll_same_page fuel ai cb operation w :
  same_page w (snd (Gemini.poll fuel ai cb operation w)).
Proof. apply (frame_poll same_page same_page_frame cb (same_page_notify cb)). Qed.

(** The [try] block on an accepted request whose operation ends with the
    handle [d]. *)
Lemma generate_try_finished fuel ai frame prompt cb w operation d :
  generateVideos (remote w) 0 = Fulfilled operation ->
  ends_with_handle fuel (getVideosOperation (remote w)) operation d ->
  fst (Gemini.generate_try fuel ai frame prompt cb w) =
  match op_error d with
  | Some err =>
      Throw (Err.new (Js.or_else (Err.message err) "Video generation failed"))
  | None =>
      if negb (Js.truthy_opt (Gemini.videoUri_of d)) then
        Throw (Err.new "No video URI returned")
      else
        Ret (Some (Js.interpolate (Gemini.videoUri_of d) ++ "&key="
                   ++ Js.interpolate (API_KEY (host w)))%string)
  end.
Proof.
  intros Hv He. unfold Gemini.generate_try.
  unfold bind at 1. rewrite generateVideos_run, Hv.
  unfold bind at 1. rewrite notify_eq.
  match goal with
  | |- context [notify cb ?msg ?w1] =>
      destruct (notify_world cb msg w1) as (_ & Hr & Hh);
      set (w2 := snd (notify cb msg w1)) in *
  end.
  simpl in Hr, Hh.
  assert (Hc : getVideosOperation (remote w2) = getVideosOperation (remote w))
    by (rewrite Hr; reflexivity).
  rewrite <- Hc in He.
  pose proof (poll_ends fuel ai cb operation d w2 He) as Hp.
  destruct (poll_same_page fuel ai cb operation w2) as (Hh3 & _).
  unfold bind at 1.
  destruct (Gemini.poll fuel ai cb operation w2) as [o w3]. simpl in Hp, Hh3.
  subst o.
  destruct (op_error d); [reflexivity |].
  destruct (negb (Js.truthy_opt (Gemini.videoUri_of d))); [reflexivity |].
  unfold bind, env_API_KEY, ret. simpl. rewrite Hh3, Hh. reflexivity.
Qed.

(** The outcome of [generateCleanVideo] from that of its [try] block. *)
Lemma generateCleanVideo_outcome fuel frame prompt cb w :
  fst (Gemini.generateCleanVideo fuel frame prompt cb w) =
  match fst (Gemini.generate_try fuel (client_of w) frame prompt cb
               (entering_try cb w)) with
  | Ret v => Ret v
  | Throw e =>
      if Gemini.is_entity_not_found e && aistudio (host w)
      then Throw (Err.new Gemini.session_expired)
      else Throw e
  | Pending => Pending
  end.
Proof.
  rewrite generateCleanVideo_unfold. unfold try_catch.
  destruct (entering_try_same_page cb w) as (Hh & _).
  destruct (generate_try_same_page fuel (client_of w) frame prompt cb
              (entering_try cb w)) as (Hh2 & _).
  destruct (Gemini.generate_try fuel (client_of w) frame prompt cb (entering_try cb w))
    as [[v | e |] w2]; simpl in *; try reflexivity.
  rewrite generate_catch_run, Hh2, Hh.
  destruct (Gemini.is_entity_not_found e && aistudio (host w)); reflexivity.
Qed.

(** ** The callback does not steer the service *)

Lemma simulates_bind {A B} (m1 m2 : M A) (k1 k2 : A -> M B) :
  simulates m1 m2 ->
  (forall a, simulates (k1 a) (k2 a)) ->
  simulates (bind m1 k1) (bind m2 k2).
Proof.
  intros Hm Hk w1 w2 S. unfold bind. destruct (Hm w1 w2 S) as (Ho & Hs).
  destruct (m1 w1) as [o1 w1'], (m2 w2) as [o2 w2']. simpl in *. subst o2.
  destruct o1 as [a | e |]; [apply Hk; exact Hs | split; [reflexivity | exact Hs] ..].
Qed.

Lemma simulates_try_catch {A} (m1 m2 : M A) (h1 h2 : Err.t -> M A) :
  simulates m1 m2 ->
  (forall e, simulates (h1 e) (h2 e)) ->
  simulates (try_catch m1 h1) (try_catch m2 h2).
Proof.
  intros Hm Hh w1 w2 S. unfold try_catch. destruct (Hm w1 w2 S) as (Ho & Hs).
  destruct (m1 w1) as [o1 w1'], (m2 w2) as [o2 w2']. simpl in *. subst o2.
  destruct o1 as [a | e |]; [split; [reflexivity | exact Hs] | apply Hh; exact Hs
                            | split; [reflexivity | exact Hs]].
Qed.

Lemma simulates_ret {A} (a : A) : simulates (ret a) (ret a).
Proof. intros w1 w2 S. split; [reflexivity | exact S]. Qed.

Lemma simulates_throw {A} e : simulates (@throw A e) (@throw A e).
Proof. intros w1 w2 S. split; [reflexivity | exact S]. Qed.

Lemma simulates_emit e : simulates (emit e) (emit e).
Proof. intros w1 w2 S. split; [reflexivity | exact S]. Qed.

Lemma simulates_notify cb1 cb2 msg : simulates (notify cb1 msg) (notify cb2 msg).
Proof. intros w1 w2 S. destruct cb1, cb2; (split; [reflexivity | exact S]). Qed.

Lemma simulates_env_API_KEY : simulates env_API_KEY env_API_KEY.
Proof.
  intros w1 w2 [Hh Hr]. unfold env_API_KEY. simpl. rewrite Hh.
  split; [reflexivity | split; assumption].
Qed.

Lemma simulates_window_aistudio : simulates window_aistudio window_aistudio.
Proof.
  intros w1 w2 [Hh Hr]. unfold window_aistudio. simpl. rewrite Hh.
  split; [reflexivity | split; assumption].
Qed.

Lemma simulates_hasSelectedApiKey :
  simulates aistudio_hasSelectedApiKey aistudio_hasSelectedApiKey.
Proof.
  intros w1 w2 [Hh Hr]. unfold aistudio_hasSelectedApiKey. simpl. rewrite Hr.
  split; [reflexivity | split; [exact Hh | reflexivity]].
Qed.

Lemma simulates_getAiClient : simulates Gemini.getAiClient Gemini.getAiClient.
Proof.
  unfold Gemini.getAiClient.
  apply simulates_bind; [apply simulates_window_aistudio | intros present].
  apply simulates_bind.
  - destruct present; [| apply simulates_ret].
    apply simulates_bind; [apply simulates_hasSelectedApiKey | intros hasKey].
    destruct hasKey; [apply simulates_ret | apply simulates_emit].
  - intros _. apply simulates_bind; [apply simulates_env_API_KEY | intros key].
    apply simulates_ret.
Qed.

Lemma simulates_generateVideos ai model prompt bytes mime n res ratio :
  simulates (Gemini.models_generateVideos ai model prompt bytes mime n res ratio)
            (Gemini.models_generateVideos ai model prompt bytes mime n res ratio).
Proof.
  intros w1 w2 [Hh Hr]. rewrite !generateVideos_run. simpl. rewrite Hr.
  split; [reflexivity | split; [exact Hh | reflexivity]].
Qed.

Lemma simulates_getVideosOperation ai operation :
  simulates (Gemini.operations_getVideosOperation ai operation)
            (Gemini.operations_getVideosOperation ai operation).
Proof.
  intros w1 w2 [Hh Hr].
  unfold Gemini.operations_getVideosOperation, bind, emit. simpl. rewrite Hr.
  destruct (getVideosOperation (remote w2) 0);
    (split; [reflexivity | split; [exact Hh | reflexivity]]).
Qed.

Lemma simulates_poll fuel ai cb1 cb2 : forall operation,
  simulates (Gemini.poll fuel ai cb1 operation) (Gemini.poll fuel ai cb2 operation).
Proof.
  induction fuel as [| fuel IH]; intros operation; simpl;
    destruct (done operation); try apply simulates_ret.
  - intros w1 w2 S. split; [reflexivity | exact S].
  - apply simulates_bind; [apply simulates_notify | intros _].
    apply simulates_bind; [apply simulates_emit | intros _].
    apply simulates_bind; [apply simulates_getVideosOperation | exact IH].
Qed.

Lemma simulates_generate_try fuel ai frame prompt cb1 cb2 :
  simulates (Gemini.generate_try fuel ai frame prompt cb1)
            (Gemini.generate_try fuel ai frame prompt cb2).
Proof.
  unfold Gemini.generate_try.
  apply simulates_bind; [apply simulates_generateVideos | intros operation].
  apply simulates_bind; [apply simulates_notify | intros _].
  apply simulates_bind; [apply simulates_poll | intros d].
  destruct (op_error d); [apply simulates_throw |].
  destruct (negb (Js.truthy_opt (Gemini.videoUri_of d))); [apply simulates_throw |].
  apply simulates_bind; [apply simulates_env_API_KEY | intros key].
  apply simulates_ret.
Qed.

Lemma simulates_generate_catch e :
  simulates (Gemini.generate_catch e) (Gemini.generate_catch e).
Proof.
  unfold Gemini.generate_catch.
  apply simulates_bind; [apply simulates_emit | intros _].
  apply simulates_bind; [| intros _; apply simulates_throw].
  destruct (Gemini.is_entity_not_found e); [| apply simulates_ret].
  apply simulates_bind; [apply simulates_window_aistudio | intros present].
  destruct present; [| apply simulates_ret].
  apply simulates_bind; [apply simulates_emit | intros _]. apply simulates_throw.
Qed.

Lemma simulates_generateCleanVideo fuel frame prompt cb1 cb2 :
  simulates (Gemini.generateCleanVideo fuel frame prompt cb1)
            (Gemini.generateCleanVideo fuel frame prompt cb2).
Proof.
  unfold Gemini.generateCleanVideo.
  apply simulates_bind; [apply simulates_getAiClient | intros ai].
  apply simulates_bind; [apply simulates_notify | intros _].
  apply simulates_try_catch;
    [apply simulates_generate_try | apply simulates_generate_catch].
Qed.

(** ** The guards and the capture stage *)


Lemma await_loadeddata_no_throw w e w1 : App.await_loadeddata w <> (Throw e, w1).
Proof.
  unfold App.await_loadeddata.
  destruct (videoRef (dom w)) as [v |]; [| discriminate].
  destruct (readyState v <? 2); [| discriminate].
  destruct (loadeddata (dom w)); discriminate.
Qed.

Lemma captureFirstFrame_returns w :
  exists r, App.captureFirstFrame w = (Ret r, snd (App.captureFirstFrame w)).
Proof.
  unfold App.captureFirstFrame.
  destruct (videoRef (dom w)) as [v |]; [| eexists; reflexivity].
  destruct (canvasRef (dom w)) as [c |]; [| eexists; reflexivity]. simpl.
  destruct (context2d c); eexists; reflexivity.
Qed.

(** The capture stage throws one error only. *)
Lemma capture_stage_throws w e w1 :
  App.capture_stage w = (Throw e, w1) -> e = capture_error.
Proof.
  unfold App.capture_stage. intros H.
  apply bind_inv in H.
  destruct H as [(a & wa & _ & H) | [(e0 & H & _) | (H & _)]];
    [| discriminate H | discriminate H].
  apply bind_inv in H.
  destruct H as [(b & wb & _ & H) | [(e0 & H & _) | (_ & H)]];
    [| exfalso; exact (await_loadeddata_no_throw _ _ _ H) | discriminate H].
  apply bind_inv in H.
  destruct H as [(r & wc & _ & H) | [(e0 & H & _) | (_ & H)]];
    [| | discriminate H].
  - destruct r as [| | s]; try (injection H as <- _; reflexivity).
    destruct (Js.truthy s); [discriminate H | injection H as <- _; reflexivity].
  - destruct (captureFirstFrame_returns wb) as (r & C). rewrite C in H.
    discriminate H.
Qed.

Ltac capture_step :=
  cbn [dom set_app set_dom videoRef canvasRef loadeddata toDataURL fst snd
       context2d negb width height].
Lemma capture_stage_no_element w :
  videoRef (dom w) = None -> fst (App.capture_stage w) = Throw capture_error.
Proof.
  intros H. unfold App.capture_stage, bind, setProcessingState,
    App.await_loadeddata, App.captureFirstFrame. capture_step.
  rewrite H. capture_step. rewrite H. reflexivity.
Qed.

Lemma capture_stage_no_canvas w v :
  videoRef (dom w) = Some v ->
  2 <= readyState v ->
  canvasRef (dom w) = None
  \/ (exists c, canvasRef (dom w) = Some c /\ context2d c = false) ->
  fst (App.capture_stage w) = Throw capture_error.
Proof.
  intros Hv Hr Hc.
  assert (R : (readyState v <? 2) = false) by (apply Nat.ltb_ge; exact Hr).
  unfold App.capture_stage, bind, setProcessingState,
    App.await_loadeddata, App.captureFirstFrame. capture_step.
  rewrite Hv, R. capture_step. rewrite Hv.
  destruct Hc as [Hc | (c & Hc & Hx)]; rewrite Hc; capture_step; [reflexivity |].
  rewrite Hx. reflexivity.
Qed.

(** A video element that has not loaded and never will. *)
Lemma capture_stage_stalled w v :
  videoRef (dom w) = Some v ->
  readyState v < 2 ->
  loadeddata (dom w) = None ->
  App.capture_stage w
  = (Pending,
     set_app (update_processingState (fun _ => App.analyzing_state) (appState w)) w).
Proof.
  intros Hv Hr Hl.
  assert (R : (readyState v <? 2) = true) by (apply Nat.ltb_lt; exact Hr).
  unfold App.capture_stage, bind, setProcessingState, App.await_loadeddata.
  capture_step. rewrite Hv, R, Hl. reflexivity.
Qed.

(** A video element that loads while the run waits for it. *)
Lemma capture_stage_loading w v loaded c :
  videoRef (dom w) = Some v ->
  readyState v < 2 ->
  loadeddata (dom w) = Some loaded ->
  canvasRef (dom w) = Some c ->
  context2d c = true ->
  fst (App.capture_stage w)
  = match nth_error (Js.split ","%char
                       (toDataURL (dom w) loaded (videoWidth loaded)
                                  (videoHeight loaded))) 1 with
    | Some payload =>
        if Js.truthy payload then Ret payload else Throw capture_error
    | None => Throw capture_error
    end.
Proof.
  intros Hv Hr Hl Hc Hx.
  assert (R : (readyState v <? 2) = true) by (apply Nat.ltb_lt; exact Hr).
  unfold App.capture_stage, bind, setProcessingState, App.await_loadeddata,
    App.captureFirstFrame.
  capture_step. rewrite Hv, R, Hl. capture_step. rewrite Hc. capture_step.
  rewrite Hx. capture_step.
  destruct (nth_error _ 1) as [payload |]; [| reflexivity].
  destruct (Js.truthy payload); reflexivity.
Qed.

Lemma Run_begins fuel vd w r :
  Run fuel vd w r ->
  exists hs,
    history (appState (snd r)) = history (appState w) ++ App.analyzing_state :: hs.
Proof.
  intros H. destruct (Run_history fuel vd w r H) as (hs & Hh & Hc).
  rewrite Hh.
  destruct Hc as [(e & ->) | [-> | [(e & ->) | [-> | Hc]]]];
    try (eexists; reflexivity).
  destruct Hc as (frame & prompt & cleaned & w3 & msgs & tail & _ & -> & _).
  eexists. reflexivity.
Qed.

(** ** The requests of a run, stage by stage *)

Lemma calls_trans cs1 cs2 w w1 w2 :
  calls cs1 w w1 -> calls cs2 w1 w2 -> calls (cs1 ++ cs2) w w2.
Proof.
  intros (e1 & H1 & F1) (e2 & H2 & F2). exists (e1 ++ e2). split.
  - rewrite H2, H1, app_assoc. reflexivity.
  - rewrite filter_app, F1, F2. reflexivity.
Qed.

Lemma calls_none w w' : trace w' = trace w -> calls [] w w'.
Proof. intros H. exists []. rewrite app_nil_r. auto. Qed.

Lemma describe_stage_calls vd frame w :
  calls [describe_request (Js.or_else (base64Data vd) frame)
                          (Js.or_else (mimeType vd) "image/png")] w
        (snd (App.describe_stage vd frame w)).
Proof.
  unfold App.describe_stage.
  destruct (analyzeVideoContent_run (Js.or_else (base64Data vd) frame)
              (Js.or_else (mimeType vd) "image/png") w) as (_ & Ht).
  unfold bind.
  destruct (Gemini.analyzeVideoContent _ _ w) as [[p | e |] w1]; simpl in *;
    try (apply calls_after_key_check; [exact Ht | reflexivity]).
  eexists. split.
  - rewrite Ht, <- !app_assoc. reflexivity.
  - rewrite filter_app, key_events_no_call. reflexivity.
Qed.

Lemma clean_stage_calls frame w cleaned w3 :
  App.clean_stage frame w = (Ret cleaned, w3) ->
  exists d,
    calls [edit_request frame "image/png";
           describe_frame_request frame "image/png";
           imagen_request d] w w3.
Proof.
  unfold App.clean_stage, bind, setProcessingState. intros H.
  match type of H with
  | Gemini.cleanFrame frame None ?w0 = _ =>
      pose proof (cleanFrame_run frame None w0) as R;
      assert (T : trace w0 = trace w) by reflexivity
  end.
  rewrite H in R. cbn [fst snd] in R.
  destruct (generateContent _ 0) as [r1 | e1]; [| destruct R as (R & _); discriminate R].
  destruct (generateContent _ 1) as [d | e2]; [| destruct R as (R & _); discriminate R].
  destruct R as ((evs & Ht & Hf) & _).
  exists (Js.or_else (text d) "A clean video frame"), evs.
  rewrite <- T. split; assumption.
Qed.

Lemma generate_stage_calls fuel cleaned prompt w :
  exists handles,
    calls (veo_request prompt cleaned :: map EGetVideosOperation handles) w
          (snd (App.generate_stage fuel cleaned prompt w))
    /\ Forall (fun h => done h = false) handles
    /\ length handles <= fuel.
Proof.
  rewrite generate_stage_unfold.
  destruct (generateCleanVideo_events fuel cleaned prompt (Some App.onProgress)
              (entering_generate w))
    as (evs & handles & Ht & Hf & Hl & _ & Hr & _).
  exists handles. split; [| split; assumption].
  exists evs. split; assumption.
Qed.

(** ** The result and the status *)

Lemma last_generating_updates msgs :
  status (last (generating_updates msgs) App.generating_state) = Status.generating.
Proof.
  unfold generating_updates.
  assert (G : forall d, status d = Status.generating ->
                status (last (map (fun msg => with_message msg App.generating_state)
                                  msgs) d) = Status.generating).
  { induction msgs as [| m ms IH]; intros d Hd; [exact Hd |].
    simpl map. rewrite last_cons. apply IH. reflexivity. }
  apply G. reflexivity.
Qed.

Lemma failed_with_result e w :
  status (processingState (appState (failed_with e w))) = Status.error
  /\ resultVideoUrl (appState (failed_with e w)) = resultVideoUrl (appState w).
Proof. split; reflexivity. Qed.

(** A run either ends completed with a result stored, or leaves the stored
    result as it was, in another status. *)
Lemma Run_result fuel vd w r :
  Run fuel vd w r ->
  (status (processingState (appState (snd r))) = Status.completed
   /\ Js.truthy_opt (resultVideoUrl (appState (snd r))) = true)
  \/ (status (processingState (appState (snd r))) <> Status.completed
      /\ resultVideoUrl (appState (snd r)) = resultVideoUrl (appState w)).
Proof.
  intros H. destruct H as
    [e w1 H1 | w1 H1
     | frame w1 e w2 H1 H2 | frame w1 w2 H1 H2
     | frame prompt w2 e w3 H2 H3 | frame prompt w2 w3 H2 H3
     | frame prompt cleaned w3 e w4 H3 H4 | frame prompt cleaned w3 w4 H3 H4
     | frame prompt cleaned w3 v w4 H3 H4]; cbn [snd].
  - right. destruct (capture_stage_world w) as (Ha & _). rewrite H1 in Ha.
    simpl in Ha. split; [discriminate |]. simpl. rewrite Ha. reflexivity.
  - right. destruct (capture_stage_world w) as (Ha & _). rewrite H1 in Ha.
    simpl in Ha. rewrite Ha. split; [discriminate | reflexivity].
  - right. destruct (reaches_describe_world w frame w1 H1) as (Ha & _).
    pose proof (describe_stage_appState vd frame w1) as Hb. rewrite H2 in Hb.
    simpl in Hb. split; [discriminate |]. simpl. rewrite Hb, Ha. reflexivity.
  - right. destruct (reaches_describe_world w frame w1 H1) as (Ha & _).
    pose proof (describe_stage_appState vd frame w1) as Hb. rewrite H2 in Hb.
    simpl in Hb. rewrite Hb, Ha. split; [discriminate | reflexivity].
  - right. pose proof (reaches_clean_appState vd w frame prompt w2 H2) as Ha.
    pose proof (clean_stage_appState frame w2) as Hb. rewrite H3 in Hb.
    simpl in Hb. split; [discriminate |]. simpl. rewrite Hb, Ha. reflexivity.
  - right. pose proof (reaches_clean_appState vd w frame prompt w2 H2) as Ha.
    pose proof (clean_stage_appState frame w2) as Hb. rewrite H3 in Hb.
    simpl in Hb. rewrite Hb, Ha. split; [discriminate | reflexivity].
  - right. pose proof (reaches_generate_appState vd w frame prompt cleaned w3 H3) as Ha.
    destruct (generate_stage_appState fuel cleaned prompt w3) as (msgs & Hb).
    rewrite H4 in Hb. simpl in Hb. split; [discriminate |].
    simpl. rewrite Hb. simpl. rewrite Ha. reflexivity.
  - right. pose proof (reaches_generate_appState vd w frame prompt cleaned w3 H3) as Ha.
    destruct (generate_stage_appState fuel cleaned prompt w3) as (msgs & Hb).
    rewrite H4 in Hb. simpl in Hb. rewrite Hb. cbn [processingState resultVideoUrl].
    rewrite last_generating_updates, Ha. split; [discriminate | reflexivity].
  - left. pose proof (generate_stage_truthy fuel cleaned prompt w3 v w4 H4) as T.
    rewrite (publish_truthy v w4 T). split; [reflexivity | exact T].
Qed.

Lemma perform_keeps_result_iff_completed fuel act w :
  result_iff_completed (appState w) ->
  App.offered (appState w) act = true ->
  result_iff_completed (appState (snd (App.perform fuel act w))).
Proof.
  unfold result_iff_completed. intros I O.
  destruct act as [data | | |]; simpl.
  - split; discriminate.
  - exact I.
  - unfold App.offered in O.
    destruct (videoData (appState w)) as [vd0 |] eqn:Hv; [| discriminate O].
    apply andb_true_iff in O. destruct O as (Oi & Or).
    apply Status_eqb_eq in Oi. apply negb_true_iff in Or.
    destruct (can_start_dec w) as [(vd & Hs) | Hn].
    + destruct (Run_result fuel vd w _ (startProcessing_Run fuel w vd Hs))
        as [(Hc & Ht) | (Hc & Hr)].
      * split; auto.
      * rewrite Hr, Or. split; [discriminate | intros C; contradiction].
    + destruct (startProcessing_refused fuel w Hn) as (_ & Ha & _).
      rewrite Ha. exact I.
  - unfold App.offered in O.
    destruct (videoData (appState w)) as [vd0 |] eqn:Hv; [| discriminate O].
    apply Status_eqb_eq in O.
    split; [| discriminate].
    intros T. apply I in T. rewrite O in T. discriminate T.
Qed.

(** ** Data URLs *)

Lemma split_without_separator sep s :
  has_char sep s = false -> Js.split sep s = [s].
Proof.
  induction s as [| c rest IH]; intros H; [reflexivity |].
  simpl in H. apply orb_false_iff in H. destruct H as (Hc & Hr).
  simpl. rewrite Hc, (IH Hr). reflexivity.
Qed.

Lemma split_at_first_separator sep header rest :
  has_char sep header = false ->
  Js.split sep (header ++ String sep rest) = header :: Js.split sep rest.
Proof.
  induction header as [| c header IH]; intros H.
  - simpl. rewrite Ascii.eqb_refl. reflexivity.
  - simpl in H. apply orb_false_iff in H. destruct H as (Hc & Hr).
    simpl. rewrite Hc, (IH Hr). reflexivity.
Qed.

Lemma payload_of_data_url header payload :
  has_char ","%char header = false ->
  has_char ","%char payload = false ->
  nth_error (Js.split ","%char (header ++ "," ++ payload)) 1 = Some payload.
Proof.
  intros Hh Hp. change (header ++ "," ++ payload)%string
    with (header ++ String ","%char payload)%string.
  rewrite (split_at_first_separator _ _ _ Hh), (split_without_separator _ _ Hp).
  reflexivity.
Qed.

(** ** Runs that have returned *)

Lemma publish_returns v w : fst (App.publish v w) = Ret tt.
Proof. unfold App.publish. destruct (Js.truthy_opt v); reflexivity. Qed.

Lemma Run_never_throws fuel vd w r :
  Run fuel vd w r -> fst r = Ret tt \/ fst r = Pending.
Proof.
  intros H. destruct H; cbn [fst]; auto. left. apply publish_returns.
Qed.

(** A run that has returned is completed or failed. *)
Lemma Run_returned fuel vd w r :
  Run fuel vd w r ->
  fst r = Ret tt ->
  status (processingState (appState (snd r))) = Status.completed
  \/ status (processingState (appState (snd r))) = Status.error.
Proof.
  intros H. destruct H as
    [e w1 H1 | w1 H1
     | frame w1 e w2 H1 H2 | frame w1 w2 H1 H2
     | frame prompt w2 e w3 H2 H3 | frame prompt w2 w3 H2 H3
     | frame prompt cleaned w3 e w4 H3 H4 | frame prompt cleaned w3 w4 H3 H4
     | frame prompt cleaned w3 v w4 H3 H4]; cbn [fst snd]; intros R;
    try discriminate R; try (right; reflexivity).
  left. rewrite (publish_truthy v w4)
    by (apply (generate_stage_truthy fuel cleaned prompt w3 v w4 H4)).
  reflexivity.
Qed.

(** ** Rejections inside the [try] block *)

Lemma generate_try_request_rejected fuel ai frame prompt cb w e :
  generateVideos (remote w) 0 = Rejected e ->
  fst (Gemini.generate_try fuel ai frame prompt cb w) = Throw e.
Proof.
  intros Hv. unfold Gemini.generate_try.
  unfold bind at 1. rewrite generateVideos_run, Hv. reflexivity.
Qed.

Lemma generate_try_check_rejected fuel ai frame prompt cb w operation k e :
  generateVideos (remote w) 0 = Fulfilled operation ->
  done operation = false ->
  (forall i, i < k -> answers_not_done (getVideosOperation (remote w)) i) ->
  getVideosOperation (remote w) k = Rejected e ->
  k < fuel ->
  fst (Gemini.generate_try fuel ai frame prompt cb w) = Throw e.
Proof.
  intros Hv Hd Hn Hk Hf. unfold Gemini.generate_try.
  unfold bind at 1. rewrite generateVideos_run, Hv.
  unfold bind at 1. rewrite notify_eq.
  match goal with
  | |- context [notify cb ?msg ?w1] =>
      destruct (notify_world cb msg w1) as (_ & Hr & _);
      set (w2 := snd (notify cb msg w1)) in *
  end.
  simpl in Hr.
  assert (Hc : getVideosOperation (remote w2) = getVideosOperation (remote w))
    by (rewrite Hr; reflexivity).
  rewrite <- Hc in Hn, Hk.
  pose proof (poll_rejected ai cb k fuel operation w2 e Hd Hn Hk Hf) as Hp.
  unfold bind at 1.
  destruct (Gemini.poll fuel ai cb operation w2) as [o w3]. simpl in Hp.
  subst o. reflexivity.
Qed.

(** ** The states a run sets *)

Lemma consistent_generating_updates msgs : Forall consistent (generating_updates msgs).
Proof.
  unfold generating_updates. induction msgs as [| m ms IH];
    [apply Forall_nil | apply Forall_cons; [| exact IH]].
  split; split; simpl; intros H; try discriminate H; contradiction.
Qed.

Lemma consistent_error_state e : consistent (App.error_state e).
Proof. split; split; simpl; intros H; try reflexivity; discriminate. Qed.

Lemma consistent_without_error s :
  error s = None -> progress s <> None -> status s <> Status.error -> consistent s.
Proof.
  intros He Hp Hs. split; split; intros H; contradiction.
Qed.

Lemma Run_consistent fuel vd w r :
  Run fuel vd w r ->
  exists hs,
    history (appState (snd r)) = history (appState w) ++ hs
    /\ Forall consistent hs.
Proof.
  intros H. destruct (Run_history fuel vd w r H) as (hs & Hh & Hc).
  exists hs. split; [exact Hh |].
  assert (A : consistent App.analyzing_state)
    by (apply consistent_without_error; discriminate || reflexivity).
  assert (C : consistent App.cleaning_frame_state)
    by (apply consistent_without_error; discriminate || reflexivity).
  assert (G : consistent App.generating_state)
    by (apply consistent_without_error; discriminate || reflexivity).
  assert (D : consistent App.completed_state)
    by (apply consistent_without_error; discriminate || reflexivity).
  assert (E : forall e, consistent (App.error_state e))
    by apply consistent_error_state.
  destruct Hc as [(e & ->) | [-> | [(e & ->) | [-> | Hc]]]];
    try (repeat (apply Forall_cons; [solve [auto] |]); apply Forall_nil).
  destruct Hc as (frame & prompt & cleaned & w3 & msgs & tail & _ & -> & Ht).
  repeat (apply Forall_cons; [assumption |]).
  apply Forall_app. split; [apply consistent_generating_updates |].
  destruct Ht as [-> | [(e & ->) | ->]];
    repeat (apply Forall_cons; [solve [auto] |]); apply Forall_nil.
Qed.

(** A run never leaves the status [idle]. *)
Lemma Run_not_idle fuel vd w r :
  Run fuel vd w r ->
  status (processingState (appState (snd r))) <> Status.idle.
Proof.
  intros H. destruct H as
    [e w1 H1 | w1 H1
     | frame w1 e w2 H1 H2 | frame w1 w2 H1 H2
     | frame prompt w2 e w3 H2 H3 | frame prompt w2 w3 H2 H3
     | frame prompt cleaned w3 e w4 H3 H4 | frame prompt cleaned w3 w4 H3 H4
     | frame prompt cleaned w3 v w4 H3 H4]; cbn [snd];
    try (rewrite (proj1 (failed_with_result _ _)); discriminate).
  - destruct (capture_stage_world w) as (Ha & _). rewrite H1 in Ha.
    simpl in Ha. rewrite Ha. discriminate.
  - destruct (reaches_describe_world w frame w1 H1) as (Ha & _).
    pose proof (describe_stage_appState vd frame w1) as Hb. rewrite H2 in Hb.
    simpl in Hb. rewrite Hb, Ha. discriminate.
  - pose proof (clean_stage_appState frame w2) as Hb. rewrite H3 in Hb.
    simpl in Hb. rewrite Hb. discriminate.
  - destruct (generate_stage_appState fuel cleaned prompt w3) as (msgs & Hb).
    rewrite H4 in Hb. simpl in Hb. rewrite Hb. cbn [processingState].
    rewrite last_generating_updates. discriminate.
  - rewrite (publish_truthy v w4)
      by (apply (generate_stage_truthy fuel cleaned prompt w3 v w4 H4)).
    discriminate.
Qed.

Lemma Run_keeps_video fuel vd w r :
  Run fuel vd w r -> videoData (appState (snd r)) = videoData (appState w).
Proof.
  intros H. destruct H as
    [e w1 H1 | w1 H1
     | frame w1 e w2 H1 H2 | frame w1 w2 H1 H2
     | frame prompt w2 e w3 H2 H3 | frame prompt w2 w3 H2 H3
     | frame prompt cleaned w3 e w4 H3 H4 | frame prompt cleaned w3 w4 H3 H4
     | frame prompt cleaned w3 v w4 H3 H4]; cbn [snd].
  - destruct (capture_stage_world w) as (Ha & _). rewrite H1 in Ha.
    simpl in Ha. simpl. rewrite Ha. reflexivity.
  - destruct (capture_stage_world w) as (Ha & _). rewrite H1 in Ha.
    simpl in Ha. rewrite Ha. reflexivity.
  - destruct (reaches_describe_world w frame w1 H1) as (Ha & _).
    pose proof (describe_stage_appState vd frame w1) as Hb. rewrite H2 in Hb.
    simpl in Hb. simpl. rewrite Hb, Ha. reflexivity.
  - destruct (reaches_describe_world w frame w1 H1) as (Ha & _).
    pose proof (describe_stage_appState vd frame w1) as Hb. rewrite H2 in Hb.
    simpl in Hb. rewrite Hb, Ha. reflexivity.
  - pose proof (reaches_clean_appState vd w frame prompt w2 H2) as Ha.
    pose proof (clean_stage_appState frame w2) as Hb. rewrite H3 in Hb.
    simpl in Hb. simpl. rewrite Hb, Ha. reflexivity.
  - pose proof (reaches_clean_appState vd w frame prompt w2 H2) as Ha.
    pose proof (clean_stage_appState frame w2) as Hb. rewrite H3 in Hb.
    simpl in Hb. rewrite Hb, Ha. reflexivity.
  - pose proof (reaches_generate_appState vd w frame prompt cleaned w3 H3) as Ha.
    destruct (generate_stage_appState fuel cleaned prompt w3) as (msgs & Hb).
    rewrite H4 in Hb. simpl in Hb. simpl. rewrite Hb. simpl. rewrite Ha. reflexivity.
  - pose proof (reaches_generate_appState vd w frame prompt cleaned w3 H3) as Ha.
    destruct (generate_stage_appState fuel cleaned prompt w3) as (msgs & Hb).
    rewrite H4 in Hb. simpl in Hb. rewrite Hb. simpl. rewrite Ha. reflexivity.
  - pose proof (reaches_generate_appState vd w frame prompt cleaned w3 H3) as Ha.
    destruct (generate_stage_appState fuel cleaned prompt w3) as (msgs & Hb).
    rewrite H4 in Hb. simpl in Hb.
    rewrite (publish_truthy v w4)
      by (apply (generate_stage_truthy fuel cleaned prompt w3 v w4 H4)).
    simpl. rewrite Hb. simpl. rewrite Ha. reflexivity.
Qed.

Lemma Status_eqb_neq a b : a <> b -> Status.eqb a b = false.
Proof.
  intros H. destruct (Status.eqb a b) eqn:E; [| reflexivity].
  apply Status_eqb_eq in E. contradiction.
Qed.

Lemma tryAgain_state w :
  appState (snd (App.tryAgain w))
  = update_processingState (fun _ => App.idle_state) (appState w).
Proof. reflexivity. Qed.

(** ** What the generate call returns *)

Lemma poll_returns_handle fuel ai cb : forall operation w d w',
  Gemini.poll fuel ai cb operation w = (Ret d, w') ->
  ends_with_handle fuel (getVideosOperation (remote w)) operation d.
Proof.
  induction fuel as [| fuel IH]; intros operation w d w' H.
  - destruct (done operation) eqn:D.
    + rewrite poll_done in H by exact D. injection H as <- _. left. auto.
    + rewrite poll_out_of_fuel in H by exact D. discriminate H.
  - destruct (done operation) eqn:D.
    + rewrite poll_done in H by exact D. injection H as <- _. left. auto.
    + rewrite poll_step in H by exact D.
      destruct (getVideosOperation (remote w) 0) as [op' | e] eqn:A;
        [| discriminate H].
      apply IH in H. right. split; [exact D |].
      destruct H as [[D' ->] | (D' & k & Hk & Hb & Hs & Hd)].
      * exists 0. split; [lia |]. split; [intros i Hi; lia |].
        split; [exact A | exact D'].
      * exists (S k). split; [lia |]. split.
        -- intros [| i] Hi.
           ++ exists op'. split; assumption.
           ++ assert (Hi' : i < k) by lia. specialize (Hb i Hi').
              unfold answers_not_done in *.
              rewrite after_iteration_answers in Hb. exact Hb.
        -- rewrite after_iteration_answers in Hs. split; assumption.
Qed.

(** [videoUri_of] reads the URI of the first video of the response. *)
Lemma videoUri_of_first d :
  Gemini.videoUri_of d
  = match response d with
    | Some r =>
        match generatedVideos r with
        | Some (first :: _) => Some (uri (video first))
        | _ => None
        end
    | None => None
    end.
Proof.
  unfold Gemini.videoUri_of. destruct (response d) as [r |]; [| reflexivity].
  destruct (generatedVideos r) as [[| first rest] |]; reflexivity.
Qed.

(** What the [try] block returns is read off the handle that ended the
    polling. *)
Lemma generate_try_returns_result fuel ai frame prompt cb w v w' :
  Gemini.generate_try fuel ai frame prompt cb w = (Ret v, w') ->
  exists operation d r first rest,
    generateVideos (remote w) 0 = Fulfilled operation
    /\ ends_with_handle fuel (getVideosOperation (remote w)) operation d
    /\ op_error d = None
    /\ response d = Some r
    /\ generatedVideos r = Some (first :: rest)
    /\ Js.truthy (uri (video first)) = true
    /\ v = Some (uri (video first) ++ "&key="
                 ++ Js.interpolate (API_KEY (host w)))%string.
Proof.
  intros H.
  assert (Hp : same_page w w').
  { pose proof (generate_try_same_page fuel ai frame prompt cb w) as P.
    rewrite H in P. exact P. }
  destruct Hp as [Hh _].
  unfold Gemini.generate_try in H.
  apply bind_inv_ret in H. destruct H as (op0 & w1 & H1 & H).
  apply bind_inv_ret in H. destruct H as ([] & w2 & H2 & H).
  apply bind_inv_ret in H. destruct H as (d & w3 & H3 & H).
  rewrite generateVideos_run in H1.
  destruct (generateVideos (remote w) 0) as [op |] eqn:A;
    [| discriminate H1].
  injection H1 as -> <-.
  destruct (notify_world cb "Video generation started. This may take a moment..."
              (set_remote (pop_generateVideos (remote w))
                 (set_trace (trace w ++
                    [EGenerateVideos "veo-3.1-fast-generate-preview"
                       (prompt ++ Gemini.veo_qualifier)%string frame "image/png"
                       1 "720p" "16:9"]) w))) as (_ & Hr & _).
  rewrite H2 in Hr. simpl in Hr.
  apply poll_returns_handle in H3. rewrite Hr in H3. simpl in H3.
  destruct (op_error d) eqn:E; [discriminate H |].
  rewrite videoUri_of_first in H.
  destruct (response d) as [r |] eqn:R; [| discriminate H].
  destruct (generatedVideos r) as [[| first rest] |] eqn:G;
    try discriminate H.
  simpl in H. destruct (Js.truthy (uri (video first))) eqn:T; simpl in H;
    [| discriminate H].
  unfold bind, env_API_KEY, ret in H. injection H as <- <-.
  exists op0, d, r, first, rest. rewrite Hh. repeat split; auto.
Qed.

Lemma generateCleanVideo_returns_result fuel frame prompt cb w v w' :
  Gemini.generateCleanVideo fuel frame prompt cb w = (Ret v, w') ->
  exists operation d r first rest,
    generateVideos (remote w) 0 = Fulfilled operation
    /\ ends_with_handle fuel (getVideosOperation (remote w)) operation d
    /\ op_error d = None
    /\ response d = Some r
    /\ generatedVideos r = Some (first :: rest)
    /\ Js.truthy (uri (video first)) = true
    /\ v = Some (uri (video first) ++ "&key="
                 ++ Js.interpolate (API_KEY (host w)))%string.
Proof.
  rewrite generateCleanVideo_unfold. unfold try_catch.
  destruct (Gemini.generate_try fuel (client_of w) frame prompt cb (entering_try cb w))
    as [[v0 | e |] w2] eqn:E; intros H.
  - injection H as <- <-. apply generate_try_returns_result in E.
    destruct (entering_try_world cb w) as (_ & Hgv & Hgc & Hh).
    rewrite Hgv, Hgc, Hh in E. exact E.
  - rewrite generate_catch_run in H.
    destruct (Gemini.is_entity_not_found e && aistudio (host w2)); discriminate H.
  - discriminate H.
Qed.

(** The finished operation with a first video gives that video's URI. *)
Lemma generateCleanVideo_returns_first_video
    fuel frame prompt cb w operation d r first rest :
  generateVideos (remote w) 0 = Fulfilled operation ->
  ends_with_handle fuel (getVideosOperation (remote w)) operation d ->
  op_error d = None ->
  response d = Some r ->
  generatedVideos r = Some (first :: rest) ->
  uri (video first) <> "" ->
  fst (Gemini.generateCleanVideo fuel frame prompt cb w)
  = Ret (Some (uri (video first) ++ "&key="
               ++ Js.interpolate (API_KEY (host w)))%string).
Proof.
  intros Hv He Hn Hr Hg Hu.
  destruct (entering_try_world cb w) as (_ & Hgv & Hgc & Hh).
  rewrite <- Hgv in Hv. rewrite <- Hgc in He.
  pose proof (generate_try_finished fuel (client_of w) frame prompt cb
                (entering_try cb w) operation d Hv He) as Ht.
  rewrite Hh, Hn, videoUri_of_first, Hr, Hg in Ht.
  pose proof (generateCleanVideo_outcome fuel frame prompt cb w) as Ho.
  rewrite Ht in Ho. simpl in Ho.
  destruct (uri (video first)); [contradiction |]. exact Ho.
Qed.

(** ** The log of a failed describe or clean-frame stage *)

Lemma describe_stage_throw_trace vd frame w e w2 :
  App.describe_stage vd frame w = (Throw e, w2) ->
  trace w2 = trace w ++ key_events w
             ++ [describe_request (Js.or_else (base64Data vd) frame)
                                  (Js.or_else (mimeType vd) "image/png")].
Proof.
  unfold App.describe_stage. intros H.
  destruct (analyzeVideoContent_run (Js.or_else (base64Data vd) frame)
              (Js.or_else (mimeType vd) "image/png") w) as (_ & Ht).
  unfold bind in H.
  destruct (Gemini.analyzeVideoContent _ _ w) as [[p | e0 |] w1]; simpl in *;
    try discriminate H.
  injection H as _ <-. exact Ht.
Qed.

Lemma clean_stage_trace frame w :
  exists evs,
    trace (snd (App.clean_stage frame w)) = trace w ++ key_events w ++ evs
    /\ Forall (fun ev => dialog_event ev = false) evs.
Proof.
  unfold App.clean_stage, bind, setProcessingState.
  match goal with
  | |- context [Gemini.cleanFrame frame None ?w0] =>
      destruct (after_key_check (fun ev => dialog_event ev = false)
                  (fun ai =>
                     response <- Gemini.models_generateContent ai
                       "gemini-2.5-flash-image" frame "image/png"
                       Gemini.remove_watermark_text ;;
                     descriptionResponse <- Gemini.models_generateContent ai
                       "gemini-2.5-flash-latest" frame "image/png"
                       Gemini.describe_frame_text ;;
                     imagenResponse <- Gemini.models_generateImages ai
                       "imagen-4.0-generate-001"
                       (Js.or_else (text descriptionResponse) "A clean video frame"
                        ++ Gemini.imagen_qualifier)%string 1 "16:9" "image/png" ;;
                     match nth_error (generatedImages imagenResponse) 0 with
                     | Some first => ret (imageBytes (image first))
                     | None => throw Gemini.TypeError_image
                     end) w0 (fun ai => cleanFrame_rest ai frame "image/png"))
        as (evs & Ht & F)
  end.
  exists evs. split; [exact Ht | exact F].
Qed.

(** ** The states of an action *)

Lemma perform_forward_or_reset fuel act w hs :
  App.offered (appState w) act = true ->
  history (appState (snd (App.perform fuel act w))) = history (appState w) ++ hs ->
  strictly_forward_from (status (processingState (appState w)))
    (changes (status (processingState (appState w))) (map status hs)) = true
  \/ ((act = App.TryAgain \/ exists data, act = App.SelectVideo data)
      /\ hs = [App.idle_state]).
Proof.
  intros Ho Hh. destruct act as [data | | |]; simpl in Hh.
  - right. split; [right; exists data; reflexivity |].
    apply app_inv_head in Hh. symmetry. exact Hh.
  - left. apply no_new_state in Hh. subst hs. reflexivity.
  - left. unfold App.offered in Ho.
    destruct (videoData (appState w)) as [vd0 |]; [| discriminate Ho].
    apply andb_true_iff in Ho. destruct Ho as [Ho _].
    apply Status_eqb_eq in Ho. rewrite Ho.
    destruct (can_start_dec w) as [[vd Hs] | Hn].
    + eapply Run_forward; [apply (startProcessing_Run fuel w vd Hs) | exact Hh].
    + destruct (startProcessing_refused fuel w Hn) as (_ & Ha & _).
      rewrite Ha in Hh. apply no_new_state in Hh. subst hs. reflexivity.
  - right. split; [left; reflexivity |].
    apply app_inv_head in Hh. symmetry. exact Hh.
Qed.

Lemma perform_extends_history fuel act w :
  exists hs,
    history (appState (snd (App.perform fuel act w))) = history (appState w) ++ hs.
Proof.
  destruct act as [data | | |]; simpl.
  - exists [App.idle_state]. reflexivity.
  - exists []. rewrite app_nil_r. reflexivity.
  - destruct (can_start_dec w) as [(vd & Hs) | Hn].
    + destruct (Run_history fuel vd w _ (startProcessing_Run fuel w vd Hs))
        as (hs & Hh & _).
      exists hs. exact Hh.
    + destruct (startProcessing_refused fuel w Hn) as (_ & Ha & _).
      exists []. rewrite Ha, app_nil_r. reflexivity.
  - exists [App.idle_state]. reflexivity.
Qed.

Lemma offered_forward_or_reset fuel act w :
  App.offered (appState w) act = true -> forward_or_reset fuel act w.
Proof.
  intros Ho. destruct (perform_extends_history fuel act w) as (hs & Hh).
  exists hs. split; [exact Hh |].
  apply (perform_forward_or_reset fuel act w hs Ho Hh).
Qed.

(** The submit button of the link form is enabled for non-empty links
    only. *)
Lemma submit_enabled_link linkInput disabled :
  VideoUploader.submit_disabled linkInput disabled = false -> linkInput <> "".
Proof.
  unfold VideoUploader.submit_disabled. intros H E. subst linkInput.
  discriminate H.
Qed.

(** * The properties of the specification *)



(** C2, as the specification states it, fails: on a video element without
    decoded dimensions whose canvas gives a 2D context, [captureFirstFrame]
    answers the empty string, not [null]. *)
Lemma capture_of_empty_video_is_not_null :
  fst (App.captureFirstFrame
         (Sample.world Sample.studio Sample.remote_ok (Sample.page Sample.empty_video)))
  = Ret (Js.Str "")
  /\ Ret (Js.Str "") <> Ret Js.Null.
Proof. split; [reflexivity | discriminate]. Qed.

(** C2, amended.  For a video element with zero decoded dimensions, on a
    browser whose [toDataURL] gives the empty data URL ["data:,"] for a
    canvas without pixels, [captureFirstFrame] answers [null] exactly when
    the canvas or its 2D context is missing, and the empty string
    otherwise; either answer is falsy, so no payload is ever returned, and
    the capture stage of a run on a loaded element fails with "Could not
    capture video frame". *)
Theorem capture_without_dimensions w v :
  videoRef (dom w) = Some v ->
  videoWidth v = 0 ->
  videoHeight v = 0 ->
  toDataURL (dom w) v 0 0 = "data:," ->
  (fst (App.captureFirstFrame w) = Ret Js.Null <->
     (canvasRef (dom w) = None \/
      exists c, canvasRef (dom w) = Some c /\ context2d c = false))
  /\ ((exists c, canvasRef (dom w) = Some c /\ context2d c = true) ->
      fst (App.captureFirstFrame w) = Ret (Js.Str ""))
  /\ (exists r, fst (App.captureFirstFrame w) = Ret r /\ Js.truthy_nullable r = false)
  /\ (2 <= readyState v ->
      fst (App.capture_stage w) = Throw (Err.new "Could not capture video frame")).
Proof.
  intros Hv Hw Hh Hurl.
  assert (Hstage : 2 <= readyState v ->
            fst (App.capture_stage w) = Throw (Err.new "Could not capture video frame")).
  { intros Hr. unfold App.capture_stage, bind, setProcessingState,
      App.await_loadeddata, App.captureFirstFrame. simpl. rewrite Hv.
    destruct (Nat.ltb_spec (readyState v) 2) as [Hlt | _]; [lia |]. simpl.
    rewrite Hv.
    destruct (canvasRef (dom w)) as [c |]; simpl; [| reflexivity].
    destruct (context2d c); simpl; [| reflexivity].
    rewrite Hw, Hh, Hurl. reflexivity. }
  revert Hstage.
  unfold App.captureFirstFrame. rewrite Hv.
  destruct (canvasRef (dom w)) as [c |] eqn:Hc; simpl; intros Hstage.
  - rewrite Hw, Hh, Hurl. destruct (context2d c) eqn:Hx; simpl.
    + split; [split | split; [| split]].
      * discriminate.
      * intros [H | (c' & H & Hf)]; [discriminate |].
        injection H as <-. congruence.
      * reflexivity.
      * exists (Js.Str ""). split; reflexivity.
      * exact Hstage.
    + split; [split | split; [| split]].
      * intros _. right. exists c. auto.
      * reflexivity.
      * intros (c' & H & Ht). injection H as <-. congruence.
      * exists Js.Null. split; reflexivity.
      * exact Hstage.
  - split; [split | split; [| split]].
    + intros _. left. reflexivity.
    + reflexivity.
    + intros (c' & H & _). discriminate.
    + exists Js.Null. split; reflexivity.
    + exact Hstage.
Qed.

Lemma capture_without_dimensions_witness :
  fst (App.captureFirstFrame
         (Sample.world Sample.studio Sample.remote_ok (Sample.page Sample.empty_video)))
  = Ret (Js.Str "").
Proof.
  apply (capture_without_dimensions
           (Sample.world Sample.studio Sample.remote_ok (Sample.page Sample.empty_video))
           Sample.empty_video); try reflexivity.
  exists {| width := 300; height := 150; context2d := true |}.
  split; reflexivity.
Defined.

(** C3, as the specification states it, fails: the special case belongs
    to the generate stage alone.  With the host's key dialog present, a
    describe call rejected for a missing entity opens no dialog, and the
    run fails with the rejection's own message. *)
Lemma entity_not_found_in_describe_stage_is_not_special :
  aistudio (host (Sample.world Sample.studio Sample.remote_missing_entity_early
                               (Sample.page Sample.loaded_video))) = true
  /\ fst (App.describe_stage Sample.uploaded "FRAME"
            (snd (App.capture_stage
                    (Sample.world Sample.studio Sample.remote_missing_entity_early
                                  (Sample.page Sample.loaded_video)))))
     = Throw Sample.missing_entity
  /\ Gemini.is_entity_not_found Sample.missing_entity = true
  /\ ~ In EOpenSelectKey
         (trace (snd (App.startProcessing 5
            (Sample.world Sample.studio Sample.remote_missing_entity_early
                          (Sample.page Sample.loaded_video)))))
  /\ error (processingState (appState (snd
        (App.startProcessing 5
           (Sample.world Sample.studio Sample.remote_missing_entity_early
                         (Sample.page Sample.loaded_video))))))
     = Some "404 NOT_FOUND: Requested entity was not found."
  /\ Some "404 NOT_FOUND: Requested entity was not found."
     <> Some Gemini.session_expired.
Proof.
  repeat split; try (vm_compute; reflexivity).
  - vm_compute. intros [H | [H | [H | []]]]; discriminate H.
  - discriminate.
Qed.

(** C3, amended.  When an error whose message contains "Requested entity
    was not found" is thrown in the [try] block of [generateCleanVideo]
    (by the video generation call, a status re-fetch or the error reported
    by the finished operation) and the host has its key dialog
    ([window.aistudio]), the handler logs the error, opens the dialog once,
    calls the remote side no more, and throws the session-expired error,
    whose message differs from the caught one; a run of [startProcessing]
    that meets this in its generate stage ends failed with that message and
    is not resumed.  Such an error of the describe stage or of the
    clean-frame stage, whatever the host, opens no dialog: all that is
    logged after the key check with which the stage begins is the stage's
    own requests and the error on the console, and the run fails with the
    error's own message, which is not the session-expired one. *)
Theorem entity_not_found_reselects_once :
  (forall fuel frame prompt cb w e w2,
      aistudio (host w) = true ->
      Gemini.generate_try fuel (client_of w) frame prompt cb (entering_try cb w)
        = (Throw e, w2) ->
      Gemini.is_entity_not_found e = true ->
      Gemini.generateCleanVideo fuel frame prompt cb w
        = (Throw (Err.new Gemini.session_expired),
           set_trace (trace w2 ++ [EConsoleError ["Veo Error:"] e; EOpenSelectKey]) w2)
      /\ Err.message e <> Some Gemini.session_expired
      /\ (forall w0 vd first w3,
            cb = Some App.onProgress ->
            w = entering_generate w3 ->
            can_start w0 vd ->
            reaches_generate vd w0 first prompt frame w3 ->
            let failed :=
              failed_with (Err.new Gemini.session_expired)
                (set_trace (trace w2 ++ [EConsoleError ["Veo Error:"] e;
                                         EOpenSelectKey]) w2)
            in
            App.startProcessing fuel w0 = (Ret tt, failed)
            /\ status (processingState (appState failed)) = Status.error
            /\ error (processingState (appState failed)) = Some Gemini.session_expired
            /\ remote failed = remote w2))
  /\ (forall fuel w vd frame w1 e w2,
        can_start w vd ->
        reaches_describe w frame w1 ->
        App.describe_stage vd frame w1 = (Throw e, w2) ->
        Gemini.is_entity_not_found e = true ->
        App.startProcessing fuel w = (Ret tt, failed_with e w2)
        /\ trace (failed_with e w2)
           = trace w1 ++ key_events w1
             ++ [describe_request (Js.or_else (base64Data vd) frame)
                                  (Js.or_else (mimeType vd) "image/png");
                 EConsoleError [] e]
        /\ remote (failed_with e w2) = remote w2
        /\ status (processingState (appState (failed_with e w2))) = Status.error
        /\ exists m,
             Err.message e = Some m
             /\ error (processingState (appState (failed_with e w2))) = Some m
             /\ m <> Gemini.session_expired)
  /\ (forall fuel w vd frame prompt w2 e w3,
        can_start w vd ->
        reaches_clean vd w frame prompt w2 ->
        App.clean_stage frame w2 = (Throw e, w3) ->
        Gemini.is_entity_not_found e = true ->
        App.startProcessing fuel w = (Ret tt, failed_with e w3)
        /\ (exists evs,
              trace (failed_with e w3)
              = trace w2 ++ key_events w2 ++ evs ++ [EConsoleError [] e]
              /\ Forall (fun ev => dialog_event ev = false) evs)
        /\ remote (failed_with e w3) = remote w3
        /\ status (processingState (appState (failed_with e w3))) = Status.error
        /\ exists m,
             Err.message e = Some m
             /\ error (processingState (appState (failed_with e w3))) = Some m
             /\ m <> Gemini.session_expired).
Proof.
  assert (Own : forall e wk,
             Gemini.is_entity_not_found e = true ->
             exists m,
               Err.message e = Some m
               /\ error (processingState (appState (failed_with e wk))) = Some m
               /\ m <> Gemini.session_expired).
  { intros e wk He.
    destruct (is_entity_not_found_message e He) as (m & Hm & _ & Hne & Hd).
    exists m. split; [exact Hm |]. split; [| exact Hd].
    simpl. unfold Js.or_else. rewrite Hm. destruct m; [contradiction | reflexivity]. }
  split; [| split].
  - intros fuel frame prompt cb w e w2 Hs Ht He.
    assert (G : Gemini.generateCleanVideo fuel frame prompt cb w
                = (Throw (Err.new Gemini.session_expired),
                   set_trace (trace w2 ++ [EConsoleError ["Veo Error:"] e;
                                           EOpenSelectKey]) w2)).
    { rewrite generateCleanVideo_unfold.
      rewrite (try_catch_throw _ _ _ e w2 Ht), generate_catch_run, He.
      pose proof (generate_try_same_page fuel (client_of w) frame prompt cb
                    (entering_try cb w)) as [H1 _].
      rewrite Ht in H1. simpl in H1.
      destruct (entering_try_same_page cb w) as [H2 _].
      rewrite H1, H2, Hs. reflexivity. }
    split; [exact G |]. split.
    + destruct (is_entity_not_found_message e He) as (m & Hm & _ & _ & Hd).
      rewrite Hm. intros H. injection H as H. contradiction.
    + intros w0 vd first w3 -> -> Hc Hr. simpl.
      split; [| repeat split].
      apply (generate_failure_run fuel w0 vd first prompt frame w3 _ _ Hc Hr).
      rewrite generate_stage_unfold. exact G.
  - intros fuel w vd frame w1 e w2 Hs Hr Hd He.
    split; [apply (describe_failure_run fuel w vd frame w1 e w2 Hs Hr Hd) |].
    split.
    { simpl. rewrite (describe_stage_throw_trace vd frame w1 e w2 Hd).
      rewrite <- !app_assoc. reflexivity. }
    split; [reflexivity |]. split; [reflexivity |].
    apply Own. exact He.
  - intros fuel w vd frame prompt w2 e w3 Hs Hr Hc He.
    split; [apply (clean_failure_run fuel w vd frame prompt w2 e w3 Hs Hr Hc) |].
    split.
    { destruct (clean_stage_trace frame w2) as (evs & Ht & F).
      rewrite Hc in Ht. simpl in Ht.
      exists evs. split; [| exact F].
      simpl. rewrite Ht, <- !app_assoc. reflexivity. }
    split; [reflexivity |]. split; [reflexivity |].
    apply Own. exact He.
Qed.

Lemma entity_not_found_reselects_once_witness :
  fst (Gemini.generateCleanVideo 5 "CLEAN" "a cat" (Some App.onProgress)
         (Sample.world Sample.studio Sample.remote_missing_entity
                       (Sample.page Sample.loaded_video)))
  = Throw (Err.new Gemini.session_expired)
  /\ App.startProcessing 5
       (Sample.world Sample.studio Sample.remote_missing_entity_early
                     (Sample.page Sample.loaded_video))
     = (Ret tt,
        failed_with Sample.missing_entity
          (snd (App.describe_stage Sample.uploaded "FRAME"
                  (snd (App.capture_stage
                          (Sample.world Sample.studio
                             Sample.remote_missing_entity_early
                             (Sample.page Sample.loaded_video))))))).
Proof.
  destruct entity_not_found_reselects_once as (Hg & Hd & _).
  split.
  - pose (w := Sample.world Sample.studio Sample.remote_missing_entity
                            (Sample.page Sample.loaded_video)).
    pose (w2 := snd (Gemini.generate_try 5 (client_of w) "CLEAN" "a cat"
                       (Some App.onProgress) (entering_try (Some App.onProgress) w))).
    destruct (Hg 5 "CLEAN" "a cat" (Some App.onProgress) w Sample.missing_entity w2)
      as [H _];
      [reflexivity | vm_compute; reflexivity | reflexivity |].
    fold w. rewrite H. reflexivity.
  - pose (w := Sample.world Sample.studio Sample.remote_missing_entity_early
                            (Sample.page Sample.loaded_video)).
    pose (w1 := snd (App.capture_stage w)).
    pose (w2 := snd (App.describe_stage Sample.uploaded "FRAME" w1)).
    destruct (Hd 5 w Sample.uploaded "FRAME" w1 Sample.missing_entity w2)
      as [H _].
    + repeat split. left. reflexivity.
    + vm_compute. reflexivity.
    + vm_compute. reflexivity.
    + reflexivity.
    + exact H.
Defined.

(** C4, as the specification states it, fails: when the describe call is
    rejected with an error whose message is empty, the failure message of
    the run is not that message but the fallback text. *)
Lemma empty_error_message_is_replaced :
  fst (App.describe_stage Sample.uploaded "FRAME"
         (snd (App.capture_stage
                 (Sample.world Sample.studio Sample.remote_silent_failure
                               (Sample.page Sample.loaded_video)))))
  = Throw (Err.new "")
  /\ error (processingState (appState (snd
       (App.startProcessing 5
          (Sample.world Sample.studio Sample.remote_silent_failure
                        (Sample.page Sample.loaded_video))))))
     = Some "Unknown error occurred"
  /\ Some "Unknown error occurred" <> Err.message (Err.new "").
Proof. repeat split; try (vm_compute; reflexivity). discriminate. Qed.

(** C4, amended.  When the describe, the clean-frame or the generate stage
    throws [e], the run ends there: [startProcessing] returns with the
    state the [catch] block builds from [e], whose status is [error] and
    whose failure message is the message of [e] when it has a non-empty one
    and ["Unknown error occurred"] otherwise; after the throw only the
    error is logged and no answer of the remote side is consumed, so
    nothing is retried and no later stage is attempted.  In particular
    after a describe failure the log holds no call of the clean-frame or
    generate stage, and after a clean-frame failure no call of the generate
    stage. *)
Theorem stage_error_fails_run fuel w vd e :
  can_start w vd ->
  (forall frame w1 w2,
      reaches_describe w frame w1 ->
      App.describe_stage vd frame w1 = (Throw e, w2) ->
      App.startProcessing fuel w = (Ret tt, failed_with e w2)
      /\ logs (fun ev => clean_or_generate_call ev = false) w (failed_with e w2))
  /\ (forall frame prompt w2 w3,
      reaches_clean vd w frame prompt w2 ->
      App.clean_stage frame w2 = (Throw e, w3) ->
      App.startProcessing fuel w = (Ret tt, failed_with e w3)
      /\ logs (fun ev => generate_call ev = false) w (failed_with e w3))
  /\ (forall frame prompt cleaned w3 w4,
      reaches_generate vd w frame prompt cleaned w3 ->
      App.generate_stage fuel cleaned prompt w3 = (Throw e, w4) ->
      App.startProcessing fuel w = (Ret tt, failed_with e w4))
  /\ (forall wk,
      status (processingState (appState (failed_with e wk))) = Status.error
      /\ error (processingState (appState (failed_with e wk)))
         = Some (Js.or_else (Err.message e) "Unknown error occurred")
      /\ (forall m, Err.message e = Some m -> m <> "" ->
            error (processingState (appState (failed_with e wk))) = Some m)
      /\ trace (failed_with e wk) = trace wk ++ [EConsoleError [] e]
      /\ remote (failed_with e wk) = remote wk
      /\ resultVideoUrl (appState (failed_with e wk)) = resultVideoUrl (appState wk)).
Proof.
  intros Hs. split; [| split; [| split]].
  - intros frame w1 w2 E1 E2. split.
    + eapply describe_failure_run; eassumption.
    + eapply describe_failure_logs; eassumption.
  - intros frame prompt w2 w3 R2 E3. split.
    + eapply clean_failure_run; eassumption.
    + eapply clean_failure_logs; eassumption.
  - intros frame prompt cleaned w3 w4 R3 E4.
    eapply generate_failure_run; eassumption.
  - intros wk. repeat split.
    intros m Hm Hne. simpl. rewrite Hm. unfold Js.or_else.
    destruct m; [congruence | reflexivity].
Qed.

Lemma stage_error_fails_run_witness :
  error (processingState (appState (snd
    (App.startProcessing 5
       (Sample.world Sample.studio Sample.remote_offline
                     (Sample.page Sample.loaded_video))))))
  = Some "Failed to fetch"
  /\ filter remote_call (trace (snd
       (App.startProcessing 5
          (Sample.world Sample.studio Sample.remote_offline
                        (Sample.page Sample.loaded_video)))))
     = [EGenerateContent "gemini-2.5-flash-latest" "VIDEO" "video/mp4"
          Gemini.describe_video_text].
Proof.
  pose (w := Sample.world Sample.studio Sample.remote_offline
                          (Sample.page Sample.loaded_video)).
  assert (Hs : can_start w Sample.uploaded).
  { repeat split. left. reflexivity. }
  destruct (stage_error_fails_run 5 w Sample.uploaded Sample.network_error Hs)
    as (H & _).
  destruct (H "FRAME" (snd (App.capture_stage w))
              (snd (App.describe_stage Sample.uploaded "FRAME"
                      (snd (App.capture_stage w)))))
    as (R & _); [vm_compute; reflexivity | vm_compute; reflexivity |].
  fold w. rewrite R. split; vm_compute; reflexivity.
Defined.

(** C5 does not hold of the code.  On the sample world [cleanFrame] makes
    three remote calls, not two: before the description and the image
    synthesis it sends an image-edit request whose answer it never reads;
    and when that request alone is rejected, [cleanFrame] throws without
    having asked for the description or the image. *)
Theorem cleanFrame_makes_three_remote_calls :
  filter remote_call (trace (snd (Gemini.cleanFrame "FRAME" None Sample.happy)))
  = [EGenerateContent "gemini-2.5-flash-image" "FRAME" "image/png"
       Gemini.remove_watermark_text;
     EGenerateContent "gemini-2.5-flash-latest" "FRAME" "image/png"
       Gemini.describe_frame_text;
     EGenerateImages "imagen-4.0-generate-001"
       ("a cat on a skateboard" ++ Gemini.imagen_qualifier)%string
       1 "16:9" "image/png"]
  /\ fst (Gemini.cleanFrame "FRAME" None Sample.happy) = Ret "CLEAN"
  /\ fst (Gemini.cleanFrame "FRAME" None
            (Sample.world Sample.studio Sample.remote_no_edit
                          (Sample.page Sample.loaded_video)))
     = Throw Sample.edit_error
  /\ filter remote_call (trace (snd (Gemini.cleanFrame "FRAME" None
            (Sample.world Sample.studio Sample.remote_no_edit
                          (Sample.page Sample.loaded_video)))))
     = [EGenerateContent "gemini-2.5-flash-image" "FRAME" "image/png"
          Gemini.remove_watermark_text].
Proof. repeat split; vm_compute; reflexivity. Qed.

(** C6.  Whenever a run of [startProcessing] hands a state of status
    [generating] to [setProcessingState], the describe stage has returned a
    non-empty description and the clean-frame stage has returned its
    payload before: the run reached the generate stage, and in the world
    where it did the states set so far were [analyzing] and
    [cleaning_frame] only. *)
Theorem generating_follows_description_and_frame fuel w hs s :
  history (appState (snd (App.startProcessing fuel w))) = history (appState w) ++ hs ->
  In s hs ->
  status s = Status.generating ->
  exists vd frame prompt cleaned w3,
    can_start w vd
    /\ reaches_generate vd w frame prompt cleaned w3
    /\ Js.truthy prompt = true
    /\ history (appState w3) =
       history (appState w) ++ [App.analyzing_state; App.cleaning_frame_state].
Proof.
  intros Hh Hin Hst.
  destruct (can_start_dec w) as [[vd Hs] | Hn].
  - pose proof (startProcessing_Run fuel w vd Hs) as HR.
    destruct (Run_history _ _ _ _ HR) as (hs' & Hh' & Hc).
    rewrite Hh' in Hh. apply app_inv_head in Hh. subst hs'.
    destruct Hc as [(e & ->) | [-> | [(e & ->) | [-> | Hg]]]];
      try (simpl in Hin; repeat (destruct Hin as [<- | Hin]; [discriminate Hst |]);
           contradiction).
    destruct Hg as (frame & prompt & cleaned & w3 & msgs & tail & Hr & _ & _).
    exists vd, frame, prompt, cleaned, w3. repeat split; try assumption.
    + destruct Hs as (H & _). exact H.
    + destruct Hs as (_ & H & _). exact H.
    + destruct Hs as (_ & _ & H). exact H.
    + destruct Hr as (w2 & (w1 & _ & E2) & _).
      eapply describe_stage_truthy. exact E2.
    + rewrite (reaches_generate_appState _ _ _ _ _ _ Hr). simpl.
      rewrite <- app_assoc. reflexivity.
  - destruct (startProcessing_refused fuel w Hn) as (_ & Ha & _).
    rewrite Ha in Hh. rewrite <- (app_nil_r (history (appState w))) in Hh at 1.
    apply app_inv_head in Hh. subst hs. contradiction.
Qed.

Lemma generating_follows_description_and_frame_witness :
  exists vd frame prompt cleaned w3,
    can_start Sample.happy vd
    /\ reaches_generate vd Sample.happy frame prompt cleaned w3
    /\ Js.truthy prompt = true
    /\ history (appState w3) =
       history (appState Sample.happy)
       ++ [App.analyzing_state; App.cleaning_frame_state].
Proof.
  apply (generating_follows_description_and_frame 5 Sample.happy
           (history (appState (snd (App.startProcessing 5 Sample.happy))))
           App.generating_state).
  - vm_compute. reflexivity.
  - vm_compute. auto 10.
  - reflexivity.
Defined.

(** C7, as the specification states it, fails: the retry action is not the
    only way back to idle.  After a successful restoration and a click on
    "Change Video" the status is still [completed]; selecting a video then
    sets it to [idle], which is before [completed] in the enumeration. *)
Lemma new_video_resets_completed_status :
  status (processingState (appState Sample.awaiting_new_video)) = Status.completed
  /\ App.offered (appState Sample.awaiting_new_video)
                 (App.SelectVideo Sample.uploaded) = true
  /\ status (processingState (appState (snd
        (App.perform 5 (App.SelectVideo Sample.uploaded)
                     Sample.awaiting_new_video)))) = Status.idle
  /\ Status.rank Status.idle < Status.rank Status.completed
  /\ App.SelectVideo Sample.uploaded <> App.TryAgain.
Proof.
  repeat split; try (vm_compute; reflexivity).
  - vm_compute. lia.
  - discriminate.
Qed.

(** C7, amended.  In a run whose four stages all return, started in the
    idle state, the states handed to [setProcessingState] are [analyzing]
    (10), [cleaning_frame] (40), [generating] (60), then [generating] again
    for each message of the callback, then [completed] (100): the status
    goes idle, analyzing, cleaning_frame, generating, completed, the
    progress never decreases, and the final state holds the URL that the
    generate stage returned, a non-empty string.  As long as no action is
    taken while a run is in flight, each change of status goes strictly
    forward in the enumeration, except for the two resets to idle, the
    "Try Again" action and the selection of a video: this holds of the
    states an action of the page hands over, whether the run it starts has
    returned or is still suspended, and of every sequence of actions of the
    page each of which has returned before the next.  An action taken
    while an earlier run is still in flight is outside this statement: the
    later updates of that run would then come in between. *)
Theorem status_goes_forward_except_resets :
  (forall fuel w vd frame prompt cleaned w3 videoUrl w4,
      can_start w vd ->
      processingState (appState w) = App.idle_state ->
      reaches_generate vd w frame prompt cleaned w3 ->
      App.generate_stage fuel cleaned prompt w3 = (Ret videoUrl, w4) ->
      exists msgs,
        fst (App.startProcessing fuel w) = Ret tt
        /\ history (appState (snd (App.startProcessing fuel w)))
           = history (appState w)
             ++ [App.analyzing_state; App.cleaning_frame_state; App.generating_state]
             ++ generating_updates msgs ++ [App.completed_state]
        /\ changes (status (processingState (appState w)))
             (map status ([App.analyzing_state; App.cleaning_frame_state;
                           App.generating_state]
                          ++ generating_updates msgs ++ [App.completed_state]))
           = [Status.analyzing; Status.cleaning_frame; Status.generating;
              Status.completed]
        /\ map progress [App.analyzing_state; App.cleaning_frame_state;
                         App.generating_state; App.completed_state]
           = [Some 10; Some 40; Some 60; Some 100]
        /\ non_decreasing_from 0
             (map progress (processingState (appState w)
                            :: [App.analyzing_state; App.cleaning_frame_state;
                                App.generating_state]
                            ++ generating_updates msgs ++ [App.completed_state]))
           = true
        /\ processingState (appState (snd (App.startProcessing fuel w)))
           = App.completed_state
        /\ resultVideoUrl (appState (snd (App.startProcessing fuel w))) = videoUrl
        /\ Js.truthy_opt videoUrl = true)
  /\ (forall fuel w act hs,
        App.offered (appState w) act = true ->
        history (appState (snd (App.perform fuel act w)))
          = history (appState w) ++ hs ->
        strictly_forward_from (status (processingState (appState w)))
          (changes (status (processingState (appState w))) (map status hs)) = true
        \/ ((act = App.TryAgain \/ exists data, act = App.SelectVideo data)
            /\ hs = [App.idle_state]))
  /\ (forall acts w,
        all_offered acts w ->
        each_in_turn forward_or_reset acts w).
Proof.
  split; [| split].
  - intros fuel w vd frame prompt cleaned w3 videoUrl w4 Hs Hi Hr Hg.
    pose proof (generate_stage_truthy _ _ _ _ _ _ Hg) as Ht.
    pose proof (reaches_generate_appState _ _ _ _ _ _ Hr) as Ha.
    destruct (generate_stage_appState fuel cleaned prompt w3) as [msgs Hb].
    rewrite Hg in Hb. simpl in Hb.
    exists msgs.
    rewrite (generate_success_run fuel w vd frame prompt cleaned w3 videoUrl w4 Hs Hr Hg).
    rewrite (publish_truthy _ _ Ht). rewrite Hi.
    cbn [fst snd appState set_app history processingState resultVideoUrl].
    repeat split; try assumption.
    + rewrite Hb, Ha. simpl. repeat rewrite <- app_assoc. reflexivity.
    + cbn [app map changes status App.idle_state App.analyzing_state
           App.cleaning_frame_state App.generating_state Status.eqb Status.rank
           Nat.eqb].
      rewrite changes_generating_updates. reflexivity.
    + cbn [app map progress App.idle_state App.analyzing_state
           App.cleaning_frame_state App.generating_state non_decreasing_from
           Nat.leb andb].
      rewrite progress_generating_updates. reflexivity.
  - intros fuel w act hs. apply perform_forward_or_reset.
  - induction acts as [| [fuel act] rest IH]; intros w O; [exact I |].
    destruct O as (Oa & _ & Or). split.
    + apply offered_forward_or_reset. exact Oa.
    + apply IH. exact Or.
Qed.

Lemma status_goes_forward_except_resets_witness :
  exists msgs,
    history (appState (snd (App.startProcessing 5 Sample.happy)))
    = history (appState Sample.happy)
      ++ [App.analyzing_state; App.cleaning_frame_state; App.generating_state]
      ++ generating_updates msgs ++ [App.completed_state]
    /\ resultVideoUrl (appState (snd (App.startProcessing 5 Sample.happy)))
       = Some "https://videos.example/1?alt=media&key=KEY".
Proof.
  destruct status_goes_forward_except_resets as (H & _).
  pose (w1 := snd (App.capture_stage Sample.happy)).
  pose (w2 := snd (App.describe_stage Sample.uploaded "FRAME" w1)).
  pose (w3 := snd (App.clean_stage "FRAME" w2)).
  pose (w4 := snd (App.generate_stage 5 "CLEAN" "a cat on a skateboard" w3)).
  destruct (H 5 Sample.happy Sample.uploaded "FRAME" "a cat on a skateboard" "CLEAN"
              w3 (Some "https://videos.example/1?alt=media&key=KEY") w4)
    as (msgs & _ & Hh & _ & _ & _ & _ & Hu & _).
  - repeat split. left. reflexivity.
  - reflexivity.
  - exists w2. split; [exists w1; split |]; vm_compute; reflexivity.
  - vm_compute. reflexivity.
  - exists msgs. split; [exact Hh | exact Hu].
Defined.

(** C8.  A pasted link that does not end in [.mp4], [.webm] or [.mov] (in
    either case) gets the warning and nothing else: [onVideoSelected] is
    not called, so no record is produced.  A link that does end so is
    handed to [onVideoSelected] as a record whose [url] and [previewUrl]
    are the link and whose [file] is [null].  The links in question are
    those the form can submit: its button is disabled while the input is
    empty, so [handleLinkSubmit] receives non-empty links only. *)
Theorem link_submission linkInput onVideoSelected w :
  linkInput <> "" ->
  (ends_with_video_extension linkInput ->
     VideoUploader.handleLinkSubmit linkInput onVideoSelected w
     = onVideoSelected (link_record linkInput) w
     /\ file (link_record linkInput) = None
     /\ url (link_record linkInput) = Some linkInput
     /\ previewUrl (link_record linkInput) = Some linkInput)
  /\ (~ ends_with_video_extension linkInput ->
     VideoUploader.handleLinkSubmit linkInput onVideoSelected w
     = (Ret tt, set_trace (trace w ++ [EAlert VideoUploader.link_warning]) w)).
Proof.
  intros Hne. unfold VideoUploader.handleLinkSubmit.
  destruct linkInput as [| c s]; [congruence |]. simpl Js.truthy. simpl negb.
  cbv iota. split.
  - intros H. apply matches_video_extension_spec in H. rewrite H.
    repeat split.
  - intros H.
    destruct (VideoUploader.matches_video_extension (String c s)) eqn:E.
    + exfalso. apply H. apply matches_video_extension_spec. exact E.
    + reflexivity.
Qed.

Lemma link_submission_witness :
  VideoUploader.handleLinkSubmit "https://cdn.example/clip.MOV"
    App.handleVideoSelected Sample.happy
  = App.handleVideoSelected (link_record "https://cdn.example/clip.MOV") Sample.happy
  /\ VideoUploader.handleLinkSubmit "https://example.com/watch?v=1"
       App.handleVideoSelected Sample.happy
     = (Ret tt, set_trace (trace Sample.happy ++ [EAlert VideoUploader.link_warning])
                  Sample.happy).
Proof.
  split.
  - apply (link_submission "https://cdn.example/clip.MOV" App.handleVideoSelected
             Sample.happy); [discriminate |].
    exists "https://cdn.example/clip", "MOV". split; [reflexivity |].
    simpl. auto.
  - apply (link_submission "https://example.com/watch?v=1" App.handleVideoSelected
             Sample.happy); [discriminate |].
    intros H. apply matches_video_extension_spec in H. discriminate H.
Defined.

(** C9.  [generateCleanVideo] never returns [null].  Whenever it returns,
    the video request was accepted and the polling ended with a handle
    (the one the request answered if it was done already, otherwise the
    first done handle that a status check answered) which reports no
    error and whose response holds a first video with a non-empty URI;
    what is returned is that URI followed by ["&key="] and the API key,
    a non-empty string.  Conversely, when the request is accepted and the
    polling ends with such a handle, [generateCleanVideo] returns just
    that.  So when the generate stage of a run returns, the guard of
    [startProcessing] holds and the run ends in the [completed] state with
    progress 100 and the URL stored; and a run that has returned is never
    left in the [generating] status. *)
Theorem generate_result_is_published :
  (forall fuel frame prompt cb w v w',
      Gemini.generateCleanVideo fuel frame prompt cb w = (Ret v, w') ->
      exists operation d r first rest,
        generateVideos (remote w) 0 = Fulfilled operation
        /\ ends_with_handle fuel (getVideosOperation (remote w)) operation d
        /\ op_error d = None
        /\ response d = Some r
        /\ generatedVideos r = Some (first :: rest)
        /\ uri (video first) <> ""
        /\ v = Some (uri (video first) ++ "&key="
                     ++ Js.interpolate (API_KEY (host w)))%string
        /\ Js.truthy_opt v = true)
  /\ (forall fuel frame prompt cb w operation d r first rest,
        generateVideos (remote w) 0 = Fulfilled operation ->
        ends_with_handle fuel (getVideosOperation (remote w)) operation d ->
        op_error d = None ->
        response d = Some r ->
        generatedVideos r = Some (first :: rest) ->
        uri (video first) <> "" ->
        fst (Gemini.generateCleanVideo fuel frame prompt cb w)
        = Ret (Some (uri (video first) ++ "&key="
                     ++ Js.interpolate (API_KEY (host w)))%string))
  /\ (forall fuel w vd frame prompt cleaned w3 v w4,
        can_start w vd ->
        reaches_generate vd w frame prompt cleaned w3 ->
        App.generate_stage fuel cleaned prompt w3 = (Ret v, w4) ->
        fst (App.startProcessing fuel w) = Ret tt
        /\ processingState (appState (snd (App.startProcessing fuel w)))
           = App.completed_state
        /\ status App.completed_state = Status.completed
        /\ progress App.completed_state = Some 100
        /\ resultVideoUrl (appState (snd (App.startProcessing fuel w))) = v)
  /\ (forall fuel w,
        fst (App.startProcessing fuel w) = Ret tt ->
        status (processingState (appState (snd (App.startProcessing fuel w))))
          = Status.generating ->
        appState (snd (App.startProcessing fuel w)) = appState w).
Proof.
  split; [| split; [| split]].
  - intros fuel frame prompt cb w v w' H.
    apply generateCleanVideo_returns_result in H.
    destruct H as (operation & d & r & first & rest & Hv & He & Hn & Hr & Hg & T & ->).
    exists operation, d, r, first, rest.
    repeat (split; [assumption |]).
    split; [intros E; rewrite E in T; discriminate T |].
    split; [reflexivity |]. simpl. apply truthy_app. exact T.
  - intros fuel frame prompt cb w operation d r first rest.
    apply generateCleanVideo_returns_first_video.
  - intros fuel w vd frame prompt cleaned w3 v w4 Hs Hr Hg.
    rewrite (generate_success_run fuel w vd frame prompt cleaned w3 v w4 Hs Hr Hg).
    rewrite (publish_truthy _ _ (generate_stage_truthy _ _ _ _ _ _ Hg)).
    repeat split.
  - intros fuel w Hret Hgen.
    destruct (can_start_dec w) as [[vd Hs] | Hn].
    + pose proof (startProcessing_Run fuel w vd Hs) as HR.
      destruct HR; try discriminate Hret; try discriminate Hgen.
      rewrite (publish_truthy _ _ (generate_stage_truthy _ _ _ _ _ _ H0)) in Hgen.
      discriminate Hgen.
    + destruct (startProcessing_refused fuel w Hn) as (_ & Ha & _). exact Ha.
Qed.

Lemma generate_result_is_published_witness :
  processingState (appState (snd (App.startProcessing 5 Sample.happy)))
  = App.completed_state
  /\ resultVideoUrl (appState (snd (App.startProcessing 5 Sample.happy)))
     = Some "https://videos.example/1?alt=media&key=KEY"
  /\ fst (Gemini.generateCleanVideo 5 "CLEAN" "a cat on a skateboard"
            (Some App.onProgress) Sample.happy)
     = Ret (Some "https://videos.example/1?alt=media&key=KEY").
Proof.
  destruct generate_result_is_published as (_ & Hv & H & _).
  pose (w1 := snd (App.capture_stage Sample.happy)).
  pose (w2 := snd (App.describe_stage Sample.uploaded "FRAME" w1)).
  pose (w3 := snd (App.clean_stage "FRAME" w2)).
  pose (w4 := snd (App.generate_stage 5 "CLEAN" "a cat on a skateboard" w3)).
  destruct (H 5 Sample.happy Sample.uploaded "FRAME" "a cat on a skateboard" "CLEAN"
              w3 (Some "https://videos.example/1?alt=media&key=KEY") w4)
    as (_ & Hp & _ & _ & Hu).
  - repeat split. left. reflexivity.
  - exists w2. split; [exists w1; split |]; vm_compute; reflexivity.
  - vm_compute. reflexivity.
  - split; [exact Hp |]. split; [exact Hu |].
    apply (Hv 5 "CLEAN" "a cat on a skateboard" (Some App.onProgress) Sample.happy
              Sample.pending_operation Sample.finished_operation
              {| generatedVideos :=
                   Some [ {| video := {| uri := "https://videos.example/1?alt=media";
                                         expirationTime := None |} |} ] |}
              {| video := {| uri := "https://videos.example/1?alt=media";
                             expirationTime := None |} |}
              []); try reflexivity; [| discriminate].
    right. split; [reflexivity |]. exists 2. split; [lia |].
    split; [| split; reflexivity].
    intros i Hi. exists Sample.pending_operation.
    destruct i as [| [| i]]; [split; reflexivity | split; reflexivity | lia].
Defined.

(** C10.  Without the host's key dialog, [generateCleanVideo] never opens
    it; an error thrown in its [try] block, whatever its message, is
    logged and rethrown as it is, and the run that meets it fails with that
    error's own message, which for a missing entity is not the
    session-expired one. *)
Theorem entity_not_found_without_dialog fuel frame prompt cb w :
  aistudio (host w) = false ->
  logs not_openSelectKey w (snd (Gemini.generateCleanVideo fuel frame prompt cb w))
  /\ (forall e w2,
        Gemini.generate_try fuel (client_of w) frame prompt cb (entering_try cb w)
          = (Throw e, w2) ->
        Gemini.generateCleanVideo fuel frame prompt cb w
          = (Throw e, set_trace (trace w2 ++ [EConsoleError ["Veo Error:"] e]) w2))
  /\ (forall e,
        generateVideos (remote w) 0 = Rejected e ->
        fst (Gemini.generateCleanVideo fuel frame prompt cb w) = Throw e)
  /\ (forall e wk,
        Gemini.is_entity_not_found e = true ->
        exists m,
          Err.message e = Some m
          /\ error (processingState (appState (failed_with e wk))) = Some m
          /\ m <> Gemini.session_expired)
  /\ (forall e w2 w0 vd first w3,
        Gemini.generate_try fuel (client_of w) frame prompt cb (entering_try cb w)
          = (Throw e, w2) ->
        cb = Some App.onProgress ->
        w = entering_generate w3 ->
        can_start w0 vd ->
        reaches_generate vd w0 first prompt frame w3 ->
        App.startProcessing fuel w0
        = (Ret tt,
           failed_with e (set_trace (trace w2 ++ [EConsoleError ["Veo Error:"] e]) w2))).
Proof.
  intros Hs.
  assert (R : forall e w2,
        Gemini.generate_try fuel (client_of w) frame prompt cb (entering_try cb w)
          = (Throw e, w2) ->
        Gemini.generateCleanVideo fuel frame prompt cb w
          = (Throw e, set_trace (trace w2 ++ [EConsoleError ["Veo Error:"] e]) w2)).
  { intros e w2 Ht. rewrite generateCleanVideo_unfold.
    rewrite (try_catch_throw _ _ _ e w2 Ht), generate_catch_run.
    pose proof (generate_try_same_page fuel (client_of w) frame prompt cb
                  (entering_try cb w)) as [H1 _].
    rewrite Ht in H1. simpl in H1.
    destruct (entering_try_same_page cb w) as [H2 _].
    rewrite H1, H2, Hs, andb_false_r. reflexivity. }
  split; [apply quiet_generateCleanVideo; exact Hs |].
  split; [exact R |]. split; [| split].
  - intros e Hv.
    assert (Ht : exists w2,
      Gemini.generate_try fuel (client_of w) frame prompt cb (entering_try cb w)
      = (Throw e, w2)).
    { rewrite entering_try_standalone by exact Hs.
      unfold Gemini.generate_try, Gemini.models_generateVideos.
      destruct cb as [f |]; simpl; unfold bind, emit; simpl; rewrite Hv; simpl;
        eexists; reflexivity. }
    destruct Ht as [w2 Ht]. rewrite (R e w2 Ht). reflexivity.
  - intros e wk He.
    destruct (is_entity_not_found_message e He) as (m & Hm & _ & Hne & Hd).
    exists m. repeat split; try assumption.
    simpl. rewrite Hm. unfold Js.or_else.
    destruct m; [congruence | reflexivity].
  - intros e w2 w0 vd first w3 Ht Hcb Hw Hc Hr.
    apply (generate_failure_run fuel w0 vd first prompt frame w3 _ _ Hc Hr).
    rewrite generate_stage_unfold, <- Hw, <- Hcb. apply R. exact Ht.
Qed.

Lemma entity_not_found_without_dialog_witness :
  fst (Gemini.generateCleanVideo 5 "CLEAN" "a cat" (Some App.onProgress)
         (Sample.world Sample.standalone Sample.remote_missing_entity
                       (Sample.page Sample.loaded_video)))
  = Throw Sample.missing_entity.
Proof.
  destruct (entity_not_found_without_dialog 5 "CLEAN" "a cat" (Some App.onProgress)
              (Sample.world Sample.standalone Sample.remote_missing_entity
                            (Sample.page Sample.loaded_video)))
    as (_ & _ & H & _ & _); [reflexivity |].
  apply H. reflexivity.
Defined.

(** * Further theorems *)

(** ** services/gemini *)

(** X2.  Each of the three service functions begins with the key check:
    what it logs starts with the events of [getAiClient].  After them
    [analyzeVideoContent] and [cleanFrame] never consult the key dialog
    again, and [generateCleanVideo] never asks again whether a key is
    selected. *)
Theorem services_begin_with_key_check w :
  (forall data mime,
      exists evs,
        trace (snd (Gemini.analyzeVideoContent data mime w))
        = trace w ++ key_events w ++ evs
        /\ Forall (fun ev => dialog_event ev = false) evs)
  /\ (forall img mime,
        exists evs,
          trace (snd (Gemini.cleanFrame img mime w))
          = trace w ++ key_events w ++ evs
          /\ Forall (fun ev => dialog_event ev = false) evs)
  /\ (forall fuel frame prompt cb,
        exists evs,
          trace (snd (Gemini.generateCleanVideo fuel frame prompt cb w))
          = trace w ++ key_events w ++ evs
          /\ Forall (fun ev => ev <> EHasSelectedApiKey) evs).
Proof.
  split; [| split].
  - intros data mime. unfold Gemini.analyzeVideoContent.
    apply after_key_check. intros ai. apply analyzeVideoContent_rest.
  - intros img mime. unfold Gemini.cleanFrame.
    apply after_key_check. intros ai. apply cleanFrame_rest.
  - intros fuel frame prompt cb.
    destruct (generateCleanVideo_log fuel frame prompt cb w)
      as (handles & tail & Ht & _ & _ & Hc).
    eexists. split; [exact Ht |].
    apply Forall_app. split.
    { destruct cb; repeat constructor; discriminate. }
    constructor; [discriminate |].
    apply Forall_app. split.
    + destruct (generateVideos (remote w) 0); [| constructor].
      apply Forall_app. split.
      { destruct cb; repeat constructor; discriminate. }
      apply Forall_flat_map. apply Forall_forall. intros h _.
      unfold poll_iteration. apply Forall_app. split.
      { destruct cb; repeat constructor; discriminate. }
      repeat constructor; discriminate.
    + eapply Forall_impl; [| exact Hc].
      intros ev H ->. discriminate H.
Qed.

(** X3.  [analyzeVideoContent] sends exactly one request, the describe
    request carrying the data and media type it was given.  A rejection of
    that request is thrown on as it is; an answer with a non-empty text is
    returned verbatim; an answer whose text is missing or empty gives the
    fixed description "A cinematic video scene.". *)
Theorem analyzeVideoContent_answer data mime w :
  calls [describe_request data mime] w
        (snd (Gemini.analyzeVideoContent data mime w))
  /\ (forall e,
        generateContent (remote w) 0 = Rejected e ->
        fst (Gemini.analyzeVideoContent data mime w) = Throw e)
  /\ (forall r t,
        generateContent (remote w) 0 = Fulfilled r ->
        text r = Some t -> t <> "" ->
        fst (Gemini.analyzeVideoContent data mime w) = Ret t)
  /\ (forall r,
        generateContent (remote w) 0 = Fulfilled r ->
        text r = None \/ text r = Some "" ->
        fst (Gemini.analyzeVideoContent data mime w)
        = Ret "A cinematic video scene.").
Proof.
  destruct (analyzeVideoContent_run data mime w) as (Ho & Ht).
  split; [apply calls_after_key_check; [exact Ht | reflexivity] |].
  split; [intros e He; rewrite Ho, He; reflexivity |].
  split.
  - intros r t Hr Htext Hne. rewrite Ho, Hr. unfold Js.or_else. rewrite Htext.
    destruct t; [contradiction | reflexivity].
  - intros r Hr [Hn | Hn]; rewrite Ho, Hr; unfold Js.or_else; rewrite Hn;
      reflexivity.
Qed.

(** X4.  When its three requests are answered and the image answer holds
    at least one image, [cleanFrame] returns the bytes of the first image.
    The requests are, in this order, the image-edit request and the
    describe request on the given frame, then the image request whose
    prompt is the description received (or "A clean video frame" when it
    is missing or empty) followed by the fixed qualifier.  Neither the
    frame nor the answer to the edit request enters the result. *)
Theorem cleanFrame_returns_first_image img mime w r1 d i first :
  generateContent (remote w) 0 = Fulfilled r1 ->
  generateContent (remote w) 1 = Fulfilled d ->
  generateImages (remote w) 0 = Fulfilled i ->
  nth_error (generatedImages i) 0 = Some first ->
  fst (Gemini.cleanFrame img mime w) = Ret (imageBytes (image first))
  /\ calls [edit_request img (mime_or_png mime);
            describe_frame_request img (mime_or_png mime);
            imagen_request (Js.or_else (text d) "A clean video frame")] w
           (snd (Gemini.cleanFrame img mime w)).
Proof.
  intros H0 H1 Hi Hn. pose proof (cleanFrame_run img mime w) as H.
  rewrite H0, H1, Hi, Hn in H. destruct H as (Hc & Ho). split; assumption.
Qed.

Lemma cleanFrame_returns_first_image_witness :
  fst (Gemini.cleanFrame "FRAME" None Sample.happy) = Ret "CLEAN"
  /\ calls [edit_request "FRAME" "image/png";
            describe_frame_request "FRAME" "image/png";
            imagen_request "a cat on a skateboard"] Sample.happy
           (snd (Gemini.cleanFrame "FRAME" None Sample.happy)).
Proof.
  apply (cleanFrame_returns_first_image "FRAME" None Sample.happy
           {| text := Some "a cat on a skateboard" |}
           {| text := Some "a cat on a skateboard" |}
           {| generatedImages := [ {| image := {| imageBytes := "CLEAN" |} |} ] |}
           {| image := {| imageBytes := "CLEAN" |} |});
    reflexivity.
Defined.

(** X5.  [cleanFrame] stops at the first request that fails.  A rejected
    edit request is thrown on before anything else is asked; a rejected
    describe request after the edit request alone; a rejected image
    request is thrown on as it is; and an image answer without any image
    makes the read of [generatedImages[0].image] throw a [TypeError]. *)
Theorem cleanFrame_stops_at_first_failure img mime w :
  (forall e,
      generateContent (remote w) 0 = Rejected e ->
      fst (Gemini.cleanFrame img mime w) = Throw e
      /\ calls [edit_request img (mime_or_png mime)] w
               (snd (Gemini.cleanFrame img mime w)))
  /\ (forall r1 e,
        generateContent (remote w) 0 = Fulfilled r1 ->
        generateContent (remote w) 1 = Rejected e ->
        fst (Gemini.cleanFrame img mime w) = Throw e
        /\ calls [edit_request img (mime_or_png mime);
                  describe_frame_request img (mime_or_png mime)] w
                 (snd (Gemini.cleanFrame img mime w)))
  /\ (forall r1 d e,
        generateContent (remote w) 0 = Fulfilled r1 ->
        generateContent (remote w) 1 = Fulfilled d ->
        generateImages (remote w) 0 = Rejected e ->
        fst (Gemini.cleanFrame img mime w) = Throw e)
  /\ (forall r1 d i,
        generateContent (remote w) 0 = Fulfilled r1 ->
        generateContent (remote w) 1 = Fulfilled d ->
        generateImages (remote w) 0 = Fulfilled i ->
        generatedImages i = [] ->
        fst (Gemini.cleanFrame img mime w) = Throw Gemini.TypeError_image).
Proof.
  pose proof (cleanFrame_run img mime w) as H.
  split; [| split; [| split]].
  - intros e H0. rewrite H0 in H. exact H.
  - intros r1 e H0 H1. rewrite H0, H1 in H. exact H.
  - intros r1 d e H0 H1 Hi. rewrite H0, H1, Hi in H. apply H.
  - intros r1 d i H0 H1 Hi Hn. rewrite H0, H1, Hi, Hn in H. apply H.
Qed.

(** X6.  What [generateCleanVideo] makes of the finished operation, that
    is of the handle the video request answered if it was done already,
    and otherwise of the first done handle a status check answers.  If the
    handle reports an error, an error with its message (or "Video
    generation failed" when it has none) is thrown, which the handler
    replaces by the session-expired error when the message names the
    missing entity and the host has its key dialog.  If it reports no
    error and no video URI, "No video URI returned" is thrown.  Otherwise
    the URI of its first video is returned, followed by ["&key="] and
    [process.env.API_KEY]. *)
Theorem finished_operation_outcome fuel frame prompt cb w operation d :
  generateVideos (remote w) 0 = Fulfilled operation ->
  ends_with_handle fuel (getVideosOperation (remote w)) operation d ->
  (forall err,
      op_error d = Some err ->
      fst (Gemini.generateCleanVideo fuel frame prompt cb w)
      = if Gemini.is_entity_not_found
             (Err.new (Js.or_else (Err.message err) "Video generation failed"))
           && aistudio (host w)
        then Throw (Err.new Gemini.session_expired)
        else Throw (Err.new (Js.or_else (Err.message err)
                                        "Video generation failed")))
  /\ (op_error d = None ->
      Js.truthy_opt (Gemini.videoUri_of d) = false ->
      fst (Gemini.generateCleanVideo fuel frame prompt cb w)
      = Throw (Err.new "No video URI returned"))
  /\ (forall u,
        op_error d = None ->
        Gemini.videoUri_of d = Some u ->
        u <> "" ->
        fst (Gemini.generateCleanVideo fuel frame prompt cb w)
        = Ret (Some (u ++ "&key=" ++ Js.interpolate (API_KEY (host w)))%string)).
Proof.
  intros Hv He.
  destruct (entering_try_world cb w) as (_ & Hgv & Hgc & Hh).
  rewrite <- Hgv in Hv. rewrite <- Hgc in He.
  pose proof (generate_try_finished fuel (client_of w) frame prompt cb
                (entering_try cb w) operation d Hv He) as Ht.
  rewrite Hh in Ht.
  pose proof (generateCleanVideo_outcome fuel frame prompt cb w) as Ho.
  rewrite Ht in Ho. clear Ht.
  split; [| split].
  - intros err Herr. rewrite Herr in Ho. exact Ho.
  - intros Hn Hu. rewrite Hn, Hu in Ho. exact Ho.
  - intros u Hn Hu Hne. rewrite Hn, Hu in Ho. simpl in Ho.
    destruct u; [contradiction |]. exact Ho.
Qed.

Lemma finished_operation_outcome_witness :
  fst (Gemini.generateCleanVideo 5 "CLEAN" "a cat" None
         (Sample.world Sample.studio
            (Sample.remote_with (generateContent Sample.remote_ok)
               (generateVideos Sample.remote_ok)
               (fun _ => Fulfilled SampleFiles.failed_operation))
            (Sample.page Sample.loaded_video)))
  = Throw (Err.new "The prompt was blocked").
Proof.
  destruct (finished_operation_outcome 5 "CLEAN" "a cat" None
              (Sample.world Sample.studio
                 (Sample.remote_with (generateContent Sample.remote_ok)
                    (generateVideos Sample.remote_ok)
                    (fun _ => Fulfilled SampleFiles.failed_operation))
                 (Sample.page Sample.loaded_video))
              Sample.pending_operation SampleFiles.failed_operation)
    as (H & _ & _).
  - reflexivity.
  - right. split; [reflexivity |]. exists 0. split; [lia |].
    split; [intros i Hi; lia |]. split; reflexivity.
  - apply (H (Err.new "The prompt was blocked")). reflexivity.
Defined.

(** X7.  The progress callback does not steer [generateCleanVideo]: run
    with any two callbacks, or with one and without, from worlds with the
    same host and the same remote answers, it has the same outcome and
    leaves the same remote answers unconsumed.  (A callback here is what
    the component passes: a function that only rewrites the component
    state.) *)
Theorem callback_does_not_steer_generation fuel frame prompt cb1 cb2 w1 w2 :
  same_service w1 w2 ->
  fst (Gemini.generateCleanVideo fuel frame prompt cb1 w1)
  = fst (Gemini.generateCleanVideo fuel frame prompt cb2 w2)
  /\ same_service (snd (Gemini.generateCleanVideo fuel frame prompt cb1 w1))
                  (snd (Gemini.generateCleanVideo fuel frame prompt cb2 w2)).
Proof. apply simulates_generateCleanVideo. Qed.

Lemma callback_does_not_steer_generation_witness :
  fst (Gemini.generateCleanVideo 5 "CLEAN" "a cat" (Some App.onProgress) Sample.happy)
  = fst (Gemini.generateCleanVideo 5 "CLEAN" "a cat" None Sample.happy).
Proof.
  apply (callback_does_not_steer_generation 5 "CLEAN" "a cat"
           (Some App.onProgress) None Sample.happy Sample.happy).
  split; reflexivity.
Defined.

(** X8.  The messages [generateCleanVideo] hands to a progress callback
    are, in this order: "Initializing generation model..." before the
    video request; when the request is accepted, "Video generation
    started. This may take a moment..."; then "Rendering video frames..."
    once for each status check made.  Nothing is reported after a rejected
    request, and without a callback nothing is reported at all. *)
Theorem progress_messages_in_order fuel frame prompt cb w :
  exists evs handles,
    trace (snd (Gemini.generateCleanVideo fuel frame prompt cb w)) = trace w ++ evs
    /\ filter remote_call evs
       = veo_request prompt frame :: map EGetVideosOperation handles
    /\ progress_messages evs
       = match cb with
         | None => []
         | Some _ =>
             "Initializing generation model..." ::
             match generateVideos (remote w) 0 with
             | Rejected _ => []
             | Fulfilled _ =>
                 "Video generation started. This may take a moment..." ::
                 repeat "Rendering video frames..." (length handles)
             end
         end.
Proof.
  destruct (generateCleanVideo_events fuel frame prompt cb w)
    as (evs & handles & Ht & _ & _ & _ & Hr & _ & _ & Hm).
  exists evs, handles. auto.
Qed.

(** X9.  A call of [generateCleanVideo] sends the video request exactly
    once: model [veo-3.1-fast-generate-preview], the prompt followed by
    the fixed qualifier, the start frame as [image/png], one video, 720p,
    16:9.  Its other remote calls are status checks on handles that were
    not done, each made right after a wait of 5000 ms; their number is
    bounded by the iterations observed, and there is none when the request
    is rejected. *)
Theorem one_video_request_then_status_checks fuel frame prompt cb w :
  exists evs handles,
    trace (snd (Gemini.generateCleanVideo fuel frame prompt cb w)) = trace w ++ evs
    /\ filter generateVideos_event evs
       = [EGenerateVideos "veo-3.1-fast-generate-preview"
            (prompt ++ " cinematic, high quality, consistent motion.")%string
            frame "image/png" 1 "720p" "16:9"]
    /\ filter remote_call evs
       = veo_request prompt frame :: map EGetVideosOperation handles
    /\ filter polling_event evs
       = flat_map (fun h => [ESetTimeout 5000; EGetVideosOperation h]) handles
    /\ Forall (fun h => done h = false) handles
    /\ length handles <= fuel
    /\ (forall e, generateVideos (remote w) 0 = Rejected e -> handles = []).
Proof.
  destruct (generateCleanVideo_events fuel frame prompt cb w)
    as (evs & handles & Ht & Hf & Hl & Hn & Hr & Hg & Hp & _).
  exists evs, handles. repeat split; assumption.
Qed.

(** ** App *)

(** X10.  [startProcessing] begins a run, setting the [analyzing] state,
    exactly when a video with a non-empty preview URL is selected and the
    page has an API key or the host's key dialog.  Otherwise it returns at
    once, leaving the component state, the page and the remote side as
    they are; its only possible effect is the alert "API Key environment
    missing.", shown exactly when the video is there but neither the key
    nor the dialog is. *)
Theorem run_begins_iff_guards_pass fuel w :
  ((exists vd, can_start w vd) <->
   exists hs,
     history (appState (snd (App.startProcessing fuel w)))
     = history (appState w) ++ App.analyzing_state :: hs)
  /\ ((forall vd, ~ can_start w vd) ->
      fst (App.startProcessing fuel w) = Ret tt
      /\ appState (snd (App.startProcessing fuel w)) = appState w
      /\ remote (snd (App.startProcessing fuel w)) = remote w
      /\ dom (snd (App.startProcessing fuel w)) = dom w
      /\ trace (snd (App.startProcessing fuel w))
         = trace w ++
           match videoData (appState w) with
           | Some vd =>
               if Js.truthy_opt (previewUrl vd)
               then [EAlert "API Key environment missing."]
               else []
           | None => []
           end).
Proof.
  assert (Refused : (forall vd, ~ can_start w vd) ->
      fst (App.startProcessing fuel w) = Ret tt
      /\ appState (snd (App.startProcessing fuel w)) = appState w
      /\ remote (snd (App.startProcessing fuel w)) = remote w
      /\ dom (snd (App.startProcessing fuel w)) = dom w
      /\ trace (snd (App.startProcessing fuel w))
         = trace w ++
           match videoData (appState w) with
           | Some vd =>
               if Js.truthy_opt (previewUrl vd)
               then [EAlert "API Key environment missing."]
               else []
           | None => []
           end).
  { intros H. unfold App.startProcessing.
    destruct (videoData (appState w)) as [vd |] eqn:Hv;
      [| rewrite app_nil_r; auto].
    destruct (Js.truthy_opt (previewUrl vd)) eqn:Hp; simpl;
      [| rewrite app_nil_r; auto].
    destruct (Js.truthy_opt (API_KEY (host w))) eqn:Hk; simpl.
    - exfalso. apply (H vd). repeat split; auto.
    - destruct (aistudio (host w)) eqn:Hs; simpl.
      + exfalso. apply (H vd). repeat split; auto.
      + auto. }
  split; [| exact Refused].
  split.
  - intros (vd & Hs). apply (Run_begins fuel vd w). apply startProcessing_Run.
    exact Hs.
  - intros (hs & Hh).
    destruct (can_start_dec w) as [Hs | Hn]; [exact Hs | exfalso].
    destruct (Refused Hn) as (_ & Ha & _). rewrite Ha in Hh.
    apply no_new_state in Hh. discriminate Hh.
Qed.

(** X11.  When no frame can be captured the run fails before any remote
    call: the capture stage throws nothing but "Could not capture video
    frame", the run ends in the error state with that message, after
    [analyzing] only, and all it logs is the error on the console.  This
    is the case when the video element is missing, and on a loaded element
    when the canvas is missing or gives no 2D context. *)
Theorem capture_failure_ends_run fuel w vd :
  can_start w vd ->
  (forall e w1,
      App.capture_stage w = (Throw e, w1) ->
      e = Err.new "Could not capture video frame"
      /\ App.startProcessing fuel w = (Ret tt, failed_with e w1)
      /\ trace (failed_with e w1) = trace w ++ [EConsoleError [] e]
      /\ remote (failed_with e w1) = remote w
      /\ history (appState (failed_with e w1))
         = history (appState w) ++ [App.analyzing_state; App.error_state e]
      /\ error (processingState (appState (failed_with e w1)))
         = Some "Could not capture video frame")
  /\ (videoRef (dom w) = None ->
      fst (App.capture_stage w) = Throw (Err.new "Could not capture video frame"))
  /\ (forall v,
        videoRef (dom w) = Some v ->
        2 <= readyState v ->
        canvasRef (dom w) = None
        \/ (exists c, canvasRef (dom w) = Some c /\ context2d c = false) ->
        fst (App.capture_stage w) = Throw (Err.new "Could not capture video frame")).
Proof.
  intros Hs. split; [| split].
  - intros e w1 H.
    pose proof (capture_stage_throws w e w1 H) as He.
    destruct (capture_stage_world w) as (Ha & Ht & Hr & _).
    rewrite H in Ha, Ht, Hr. simpl in Ha, Ht, Hr.
    split; [exact He |].
    split; [apply (capture_failure_run fuel w vd e w1 Hs H) |].
    split; [simpl; rewrite Ht; reflexivity |].
    split; [exact Hr |].
    split.
    + rewrite failed_with_history, Ha. simpl. rewrite <- app_assoc. reflexivity.
    + rewrite He. reflexivity.
  - apply capture_stage_no_element.
  - apply capture_stage_no_canvas.
Qed.

Lemma capture_failure_ends_run_witness :
  error (processingState (appState (snd
    (App.startProcessing 5
       (Sample.world Sample.studio Sample.remote_ok
                     SampleFiles.page_without_canvas)))))
  = Some "Could not capture video frame"
  /\ filter remote_call (trace (snd
       (App.startProcessing 5
          (Sample.world Sample.studio Sample.remote_ok
                        SampleFiles.page_without_canvas))))
     = [].
Proof.
  pose (w := Sample.world Sample.studio Sample.remote_ok
                          SampleFiles.page_without_canvas).
  destruct (capture_failure_ends_run 5 w Sample.uploaded) as (H & _ & _).
  - repeat split. left. reflexivity.
  - destruct (H (Err.new "Could not capture video frame")
                (snd (App.capture_stage w)))
      as (_ & Hr & Ht & _ & _ & He); [reflexivity |].
    fold w. rewrite Hr. cbn [snd]. rewrite Ht, He. split; reflexivity.
Defined.

(** X12.  A run on a video element that has not loaded its first frame
    waits for the [loadeddata] event.  If the event never comes, the run
    stays suspended in the [analyzing] state however long it is observed,
    having called nobody; if it comes, the frame is captured from the
    element as loaded, with its decoded dimensions. *)
Theorem unloaded_video_suspends_run fuel w vd v :
  can_start w vd ->
  videoRef (dom w) = Some v ->
  readyState v < 2 ->
  (loadeddata (dom w) = None ->
   App.startProcessing fuel w
   = (Pending,
      set_app (update_processingState (fun _ => App.analyzing_state) (appState w)) w))
  /\ (forall loaded c,
        loadeddata (dom w) = Some loaded ->
        canvasRef (dom w) = Some c ->
        context2d c = true ->
        fst (App.capture_stage w)
        = match nth_error (Js.split ","%char
                             (toDataURL (dom w) loaded (videoWidth loaded)
                                        (videoHeight loaded))) 1 with
          | Some payload =>
              if Js.truthy payload then Ret payload
              else Throw (Err.new "Could not capture video frame")
          | None => Throw (Err.new "Could not capture video frame")
          end).
Proof.
  intros Hs Hv Hr. split.
  - intros Hl. pose proof (capture_stage_stalled w v Hv Hr Hl) as H.
    rewrite (startProcessing_starts fuel w vd Hs).
    apply try_catch_pending. unfold App.processing_try.
    apply bind_pending. exact H.
  - intros loaded c Hl Hc Hx. apply (capture_stage_loading w v loaded c); assumption.
Qed.

Lemma unloaded_video_suspends_run_witness :
  fst (App.startProcessing 1000
         (Sample.world Sample.studio Sample.remote_ok
                       (Sample.page SampleFiles.stalled_video)))
  = Pending.
Proof.
  destruct (unloaded_video_suspends_run 1000
              (Sample.world Sample.studio Sample.remote_ok
                            (Sample.page SampleFiles.stalled_video))
              Sample.uploaded SampleFiles.stalled_video) as (H & _).
  - repeat split. left. reflexivity.
  - reflexivity.
  - simpl. lia.
  - rewrite H; reflexivity.
Defined.

(** X13.  The remote calls of a run whose four stages return are, in this
    order: the describe request, carrying the uploaded payload and its
    media type, or the captured frame as [image/png] where the record has
    none; the edit request and the describe request on the captured
    frame; the image request; the video request, carrying the description
    the describe stage returned and the frame the clean-frame stage
    returned; then the status checks, on handles that were not done. *)
Theorem successful_run_requests fuel w vd frame prompt cleaned w3 v w4 :
  can_start w vd ->
  reaches_generate vd w frame prompt cleaned w3 ->
  App.generate_stage fuel cleaned prompt w3 = (Ret v, w4) ->
  exists d handles,
    calls ([describe_request (Js.or_else (base64Data vd) frame)
                             (Js.or_else (mimeType vd) "image/png");
            edit_request frame "image/png";
            describe_frame_request frame "image/png";
            imagen_request d;
            veo_request prompt cleaned]
           ++ map EGetVideosOperation handles)
          w (snd (App.startProcessing fuel w))
    /\ Forall (fun h => done h = false) handles.
Proof.
  intros Hs Hg H4.
  pose proof (generate_success_run fuel w vd frame prompt cleaned w3 v w4 Hs Hg H4)
    as Hrun.
  destruct Hg as (w2 & (w1 & H1 & H2) & H3).
  destruct (reaches_describe_world w frame w1 H1) as (_ & T1 & _ & _).
  pose proof (describe_stage_calls vd frame w1) as C2. rewrite H2 in C2.
  destruct (clean_stage_calls frame w2 cleaned w3 H3) as (d & C3).
  destruct (generate_stage_calls fuel cleaned prompt w3) as (handles & C4 & Hf & _).
  rewrite H4 in C4. cbn [snd] in C2, C4.
  exists d, handles. split; [| exact Hf].
  rewrite Hrun, (publish_truthy v w4)
    by (apply (generate_stage_truthy fuel cleaned prompt w3 v w4 H4)).
  cbn [snd].
  pose proof (calls_trans _ _ _ _ _ (calls_none w w1 T1)
                (calls_trans _ _ _ _ _ C2 (calls_trans _ _ _ _ _ C3 C4))) as C.
  destruct C as (evs & Ht & Hc). exists evs. split; [exact Ht | exact Hc].
Qed.

Lemma successful_run_requests_witness :
  exists d handles,
    calls ([describe_request "VIDEO" "video/mp4";
            edit_request "FRAME" "image/png";
            describe_frame_request "FRAME" "image/png";
            imagen_request d;
            veo_request "a cat on a skateboard" "CLEAN"]
           ++ map EGetVideosOperation handles)
          Sample.happy (snd (App.startProcessing 5 Sample.happy))
    /\ Forall (fun h => done h = false) handles.
Proof.
  pose (w1 := snd (App.capture_stage Sample.happy)).
  pose (w2 := snd (App.describe_stage Sample.uploaded "FRAME" w1)).
  pose (w3 := snd (App.clean_stage "FRAME" w2)).
  pose (w4 := snd (App.generate_stage 5 "CLEAN" "a cat on a skateboard" w3)).
  apply (successful_run_requests 5 Sample.happy Sample.uploaded "FRAME"
           "a cat on a skateboard" "CLEAN" w3
           (Some "https://videos.example/1?alt=media&key=KEY") w4).
  - repeat split. left. reflexivity.
  - exists w2. split; [exists w1; split |]; vm_compute; reflexivity.
  - vm_compute. reflexivity.
Defined.

(** X14.  On the page, a result URL is stored exactly when the status is
    [completed].  An action that the page offers keeps this, whether the
    run it starts has returned or is still suspended, and so does every
    sequence of offered actions each of which has returned before the
    next; it holds when the page is opened. *)
Theorem result_stored_iff_completed :
  result_iff_completed initial_state
  /\ (forall fuel act w,
        result_iff_completed (appState w) ->
        App.offered (appState w) act = true ->
        result_iff_completed (appState (snd (App.perform fuel act w))))
  /\ (forall acts w,
        result_iff_completed (appState w) ->
        all_offered acts w ->
        result_iff_completed (appState (perform_all acts w))).
Proof.
  split; [split; discriminate |].
  split; [apply perform_keeps_result_iff_completed |].
  induction acts as [| [fuel act] rest IH]; intros w I O; [exact I |].
  destruct O as (Oa & _ & Or). simpl. apply IH; [| exact Or].
  apply perform_keeps_result_iff_completed; assumption.
Qed.

(** X15.  When a result URL is stored exactly when the status is
    [completed], the "Restored Output" panel, which is rendered only when
    a video is selected, renders exactly one of its four blocks: the start
    button in status [idle], the progress overlay in [analyzing],
    [cleaning_frame] and [generating], the failure notice with its retry
    button in [error], and the result video in [completed].  Without a
    video none of the four is rendered. *)
Theorem one_view_at_a_time a :
  result_iff_completed a ->
  App.views a
  = match videoData a with
    | None => []
    | Some _ =>
        match status (processingState a) with
        | Status.idle => [App.ReadyView]
        | Status.analyzing => [App.ProcessingView]
        | Status.cleaning_frame => [App.ProcessingView]
        | Status.generating => [App.ProcessingView]
        | Status.completed => [App.ResultView]
        | Status.error => [App.FailedView]
        end
    end.
Proof.
  unfold result_iff_completed, App.views. intros [I1 I2].
  destruct (videoData a); [| reflexivity].
  destruct (status (processingState a)) eqn:S;
    destruct (Js.truthy_opt (resultVideoUrl a)) eqn:T;
    try reflexivity;
    try (specialize (I1 eq_refl); discriminate I1);
    try (specialize (I2 eq_refl); discriminate I2).
Qed.

Lemma one_view_at_a_time_witness :
  App.views (appState Sample.restored) = [App.ResultView].
Proof.
  apply (one_view_at_a_time (appState Sample.restored)).
  split; intros _; vm_compute; reflexivity.
Defined.

(** ** components/VideoUploader *)

(** X16.  [processFile] on a file whose read gives the data URL
    [header,payload] (no comma in either part) hands [onVideoSelected] the
    record with the file, no [url], the object URL as [previewUrl], the
    payload after the comma as [base64Data] and the file's type as
    [mimeType].  A data URL without a comma gives a record whose
    [base64Data] is [undefined].  When the read fails, the handler throws
    a [TypeError] and [onVideoSelected] is not called.  The file picker
    and the drop zone process the first file and ignore the others, and
    do nothing without a file. *)
Theorem processFile_record browser f onVideoSelected w :
  (forall header payload,
      VideoUploader.readAsDataURL browser f = Some (header ++ "," ++ payload)%string ->
      has_char ","%char header = false ->
      has_char ","%char payload = false ->
      VideoUploader.processFile browser f onVideoSelected w
      = onVideoSelected
          {| file := Some f;
             url := None;
             previewUrl := Some (VideoUploader.createObjectURL browser f);
             base64Data := Some payload;
             mimeType := Some (file_type f) |} w)
  /\ (forall dataUrl,
        VideoUploader.readAsDataURL browser f = Some dataUrl ->
        has_char ","%char dataUrl = false ->
        VideoUploader.processFile browser f onVideoSelected w
        = onVideoSelected
            {| file := Some f;
               url := None;
               previewUrl := Some (VideoUploader.createObjectURL browser f);
               base64Data := None;
               mimeType := Some (file_type f) |} w)
  /\ (VideoUploader.readAsDataURL browser f = None ->
      VideoUploader.processFile browser f onVideoSelected w
      = (Throw VideoUploader.TypeError_split, w))
  /\ (forall others,
        VideoUploader.handleFileChange browser (Some (f :: others)) onVideoSelected w
        = VideoUploader.processFile browser f onVideoSelected w
        /\ snd (VideoUploader.handleDrop browser (Some (f :: others)) onVideoSelected) w
           = VideoUploader.processFile browser f onVideoSelected w)
  /\ VideoUploader.handleFileChange browser (Some []) onVideoSelected w = (Ret tt, w)
  /\ VideoUploader.handleFileChange browser None onVideoSelected w = (Ret tt, w)
  /\ snd (VideoUploader.handleDrop browser (Some []) onVideoSelected) w = (Ret tt, w)
  /\ snd (VideoUploader.handleDrop browser None onVideoSelected) w = (Ret tt, w).
Proof.
  split; [| split; [| split; [| split]]].
  - intros header payload Hr Hh Hp. unfold VideoUploader.processFile.
    rewrite Hr, (payload_of_data_url header payload Hh Hp). reflexivity.
  - intros dataUrl Hr Hn. unfold VideoUploader.processFile.
    rewrite Hr, (split_without_separator _ _ Hn). reflexivity.
  - intros Hr. unfold VideoUploader.processFile. rewrite Hr. reflexivity.
  - intros others. split; reflexivity.
  - repeat split.
Qed.

Lemma processFile_record_witness :
  VideoUploader.processFile SampleFiles.browser SampleFiles.clip
    App.handleVideoSelected SampleFiles.blank
  = App.handleVideoSelected
      {| file := Some SampleFiles.clip;
         url := None;
         previewUrl := Some "blob:clip.mp4";
         base64Data := Some "AAAAIGZ0eXA=";
         mimeType := Some "video/mp4" |} SampleFiles.blank
  /\ VideoUploader.processFile SampleFiles.browser SampleFiles.notes
       App.handleVideoSelected SampleFiles.blank
     = (Throw VideoUploader.TypeError_split, SampleFiles.blank).
Proof.
  split.
  - destruct (processFile_record SampleFiles.browser SampleFiles.clip
                App.handleVideoSelected SampleFiles.blank) as (H & _).
    apply (H "data:video/mp4;base64" "AAAAIGZ0eXA="); reflexivity.
  - destruct (processFile_record SampleFiles.browser SampleFiles.notes
                App.handleVideoSelected SampleFiles.blank) as (_ & _ & H & _).
    apply H. reflexivity.
Defined.

(** X17.  What the describe stage sends depends on how the video came
    in.  For a pasted link, whose record has neither payload nor media
    type, it sends the captured frame as [image/png].  For an uploaded
    file with a non-empty payload and type, it sends that payload under
    the file's type.  When the record has a media type but no usable
    payload, it sends the captured frame under the file's type, not as
    [image/png]. *)
Theorem describe_stage_input frame w :
  (forall link,
      calls [describe_request frame "image/png"] w
            (snd (App.describe_stage (link_record link) frame w)))
  /\ (forall vd payload type,
        base64Data vd = Some payload -> payload <> "" ->
        mimeType vd = Some type -> type <> "" ->
        calls [describe_request payload type] w
              (snd (App.describe_stage vd frame w)))
  /\ (forall vd type,
        base64Data vd = None \/ base64Data vd = Some "" ->
        mimeType vd = Some type -> type <> "" ->
        calls [describe_request frame type] w
              (snd (App.describe_stage vd frame w))).
Proof.
  split; [| split].
  - intros link. apply (describe_stage_calls (link_record link) frame w).
  - intros vd payload type Hb Hp Hm Ht.
    pose proof (describe_stage_calls vd frame w) as C.
    rewrite Hb, Hm in C. unfold Js.or_else in C.
    destruct payload; [contradiction |]. destruct type; [contradiction |].
    exact C.
  - intros vd type Hb Hm Ht.
    pose proof (describe_stage_calls vd frame w) as C.
    rewrite Hm in C. unfold Js.or_else in C.
    destruct type; [contradiction |].
    destruct Hb as [Hb | Hb]; rewrite Hb in C; exact C.
Qed.

(** ** The service and the page *)

(** X18.  The service functions never touch the host page or the two DOM
    elements.  [analyzeVideoContent] and [cleanFrame] leave the component
    state as it is; [generateCleanVideo] changes it only by calling the
    progress callback, so not at all when it is given none. *)
Theorem services_leave_the_page_alone w :
  (forall data mime,
      same_page w (snd (Gemini.analyzeVideoContent data mime w))
      /\ appState (snd (Gemini.analyzeVideoContent data mime w)) = appState w)
  /\ (forall img mime,
        same_page w (snd (Gemini.cleanFrame img mime w))
        /\ appState (snd (Gemini.cleanFrame img mime w)) = appState w)
  /\ (forall fuel frame prompt cb,
        same_page w (snd (Gemini.generateCleanVideo fuel frame prompt cb w))
        /\ progressed cb w (snd (Gemini.generateCleanVideo fuel frame prompt cb w)))
  /\ (forall fuel frame prompt,
        appState (snd (Gemini.generateCleanVideo fuel frame prompt None w))
        = appState w).
Proof.
  split; [| split; [| split]].
  - intros data mime. split;
      [apply analyzeVideoContent_same_page | apply analyzeVideoContent_appState].
  - intros img mime. split; [apply cleanFrame_same_page | apply cleanFrame_appState].
  - intros fuel frame prompt cb. split;
      [apply generateCleanVideo_same_page | apply generateCleanVideo_progressed].
  - intros fuel frame prompt. apply (progressed_None w).
    apply generateCleanVideo_progressed.
Qed.

(** X19.  No error escapes [startProcessing]: whatever the page and the
    answers of the remote side, it does not throw; and when it has
    returned from a run that it began, the run is completed or failed. *)
Theorem no_error_escapes_startProcessing fuel w :
  (forall e, fst (App.startProcessing fuel w) <> Throw e)
  /\ (forall vd,
        can_start w vd ->
        fst (App.startProcessing fuel w) = Ret tt ->
        status (processingState (appState (snd (App.startProcessing fuel w))))
        = Status.completed
        \/ status (processingState (appState (snd (App.startProcessing fuel w))))
           = Status.error).
Proof.
  split.
  - destruct (can_start_dec w) as [(vd & Hs) | Hn].
    + pose proof (startProcessing_Run fuel w vd Hs) as R.
      intros e He. destruct (Run_never_throws fuel vd w _ R) as [H | H];
        rewrite H in He; discriminate He.
    + destruct (startProcessing_refused fuel w Hn) as (H & _). rewrite H.
      discriminate.
  - intros vd Hs E.
    apply (Run_returned fuel vd w _ (startProcessing_Run fuel w vd Hs) E).
Qed.

(** X21.  No state that an action of the page hands to
    [setProcessingState] carries a stale error or a stale progress value:
    each has an error message exactly when its status is [error], and
    lacks the progress value exactly then. *)
Theorem states_are_consistent fuel act w :
  exists hs,
    history (appState (snd (App.perform fuel act w))) = history (appState w) ++ hs
    /\ Forall consistent hs.
Proof.
  assert (I : consistent App.idle_state)
    by (apply consistent_without_error; discriminate || reflexivity).
  destruct act as [data | | |]; simpl.
  - exists [App.idle_state].
    split; [reflexivity | apply Forall_cons; [exact I | apply Forall_nil]].
  - exists []. rewrite app_nil_r. split; [reflexivity | apply Forall_nil].
  - destruct (can_start_dec w) as [(vd & Hs) | Hn].
    + apply (Run_consistent fuel vd w). apply startProcessing_Run. exact Hs.
    + destruct (startProcessing_refused fuel w Hn) as (_ & Ha & _).
      exists []. rewrite Ha, app_nil_r. split; [reflexivity | apply Forall_nil].
  - exists [App.idle_state].
    split; [reflexivity | apply Forall_cons; [exact I | apply Forall_nil]].
Qed.

(** X22.  A rejection inside the [try] block of [generateCleanVideo],
    of the video request or of a status check that follows checks
    answering handles that are not done, ends the call: it throws the
    rejection as it is, unless the message names the missing entity and
    the host has its key dialog, in which case it throws the
    session-expired error. *)
Theorem rejection_ends_generation fuel frame prompt cb w e :
  (generateVideos (remote w) 0 = Rejected e ->
   fst (Gemini.generateCleanVideo fuel frame prompt cb w) = rethrown w e)
  /\ (forall operation k,
        generateVideos (remote w) 0 = Fulfilled operation ->
        done operation = false ->
        (forall i, i < k -> answers_not_done (getVideosOperation (remote w)) i) ->
        getVideosOperation (remote w) k = Rejected e ->
        k < fuel ->
        fst (Gemini.generateCleanVideo fuel frame prompt cb w) = rethrown w e).
Proof.
  destruct (entering_try_world cb w) as (_ & Hgv & Hgc & _).
  pose proof (generateCleanVideo_outcome fuel frame prompt cb w) as Ho.
  split.
  - intros Hv. rewrite <- Hgv in Hv.
    rewrite (generate_try_request_rejected fuel (client_of w) frame prompt cb
               (entering_try cb w) e Hv) in Ho.
    exact Ho.
  - intros operation k Hv Hd Hn Hk Hf. rewrite <- Hgv in Hv. rewrite <- Hgc in Hn, Hk.
    rewrite (generate_try_check_rejected fuel (client_of w) frame prompt cb
               (entering_try cb w) operation k e Hv Hd Hn Hk Hf) in Ho.
    exact Ho.
Qed.

Lemma rejection_ends_generation_witness :
  fst (Gemini.generateCleanVideo 5 "CLEAN" "a cat" None
         (Sample.world Sample.studio
            (Sample.remote_with (generateContent Sample.remote_ok)
               (generateVideos Sample.remote_ok)
               (fun n => if n =? 0 then Fulfilled Sample.pending_operation
                         else Rejected Sample.network_error))
            (Sample.page Sample.loaded_video)))
  = Throw Sample.network_error.
Proof.
  destruct (rejection_ends_generation 5 "CLEAN" "a cat" None
              (Sample.world Sample.studio
                 (Sample.remote_with (generateContent Sample.remote_ok)
                    (generateVideos Sample.remote_ok)
                    (fun n => if n =? 0 then Fulfilled Sample.pending_operation
                              else Rejected Sample.network_error))
                 (Sample.page Sample.loaded_video))
              Sample.network_error) as (_ & H).
  apply (H Sample.pending_operation 1); try reflexivity; [| lia].
  intros i Hi. exists Sample.pending_operation.
  destruct i as [| i]; [split; reflexivity | lia].
Defined.

(** X23.  A run cannot be started twice.  Once [startProcessing] has
    begun a run, the page keeps the video and no longer offers "Start
    Restoration", whether the run has returned or is still suspended; it
    offers "Try Again" exactly when the run has failed.  "Start
    Restoration" comes back with "Try Again" on a failed run, and with the
    selection of a video. *)
Theorem start_is_offered_once fuel w vd :
  can_start w vd ->
  App.offered (appState (snd (App.startProcessing fuel w))) App.StartRestoration
  = false
  /\ App.offered (appState (snd (App.startProcessing fuel w))) App.ChangeVideo
     = true
  /\ (App.offered (appState (snd (App.startProcessing fuel w))) App.TryAgain = true
      <-> status (processingState (appState (snd (App.startProcessing fuel w))))
          = Status.error)
  /\ (status (processingState (appState (snd (App.startProcessing fuel w))))
      = Status.error ->
      resultVideoUrl (appState w) = None ->
      App.offered (appState (snd (App.tryAgain (snd (App.startProcessing fuel w)))))
                  App.StartRestoration = true)
  /\ (forall data w',
        App.offered (appState (snd (App.handleVideoSelected data w')))
                    App.StartRestoration = true).
Proof.
  intros Hs. pose proof (startProcessing_Run fuel w vd Hs) as R.
  pose proof (Run_not_idle fuel vd w _ R) as Hi.
  pose proof (Run_keeps_video fuel vd w _ R) as Hv.
  pose proof (Run_result fuel vd w _ R) as Hres.
  destruct Hs as (Hvd & _). rewrite Hvd in Hv.
  clear R. remember (snd (App.startProcessing fuel w)) as w1 eqn:E. clear E.
  split; [| split; [| split; [| split]]].
  - unfold App.offered. rewrite Hv, (Status_eqb_neq _ _ Hi). reflexivity.
  - unfold App.offered. rewrite Hv. reflexivity.
  - unfold App.offered. rewrite Hv. split.
    + apply Status_eqb_eq.
    + intros E. rewrite E. reflexivity.
  - intros He Hr.
    destruct Hres as [(Hc & _) | (_ & Hu)].
    + rewrite Hc in He. discriminate He.
    + rewrite tryAgain_state. unfold App.offered, update_processingState.
      cbn [videoData processingState resultVideoUrl status App.idle_state].
      rewrite Hv, Hu, Hr. reflexivity.
  - intros data w'. reflexivity.
Qed.

Lemma start_is_offered_once_witness :
  App.offered (appState (snd (App.startProcessing 5 Sample.happy)))
              App.StartRestoration = false.
Proof.
  destruct (start_is_offered_once 5 Sample.happy Sample.uploaded) as (H & _).
  - repeat split. left. reflexivity.
  - exact H.
Defined.
